(** * The email mirror of zerver/lib/email_mirror.py

    A shallow embedding of the email gateway: the address codec, the
    missed-message token store, the content extraction pipeline and the
    dispatch functions, followed by the properties of the specification
    that were checked against them. *)

From Stdlib Require Import NArith ZArith List String Ascii Bool Lia.
From stdpp Require Import base option list gmap.

Set Default Proof Using "Type".

(** ** Python strings

    A Python [str] is a sequence of Unicode code points; a code point is
    a number in [N].  The operations below are the [str] methods the
    module calls, with Python's names. *)

Abbreviation str := (list N).
Abbreviation bytes := (list Byte.byte).

Module PyStr.
Local Open Scope N_scope.

(** An ASCII literal of the source as a [str]. *)
Definition lit (s : string) : str :=
  List.map N_of_ascii (list_ascii_of_string s).
Arguments lit : simpl never.

(** [s.startswith(p)] *)
Fixpoint startswith (p s : str) : bool :=
  match p, s with
  | [], _ => true
  | a :: p', b :: s' => (a =? b) && startswith p' s'
  | _ :: _, [] => false
  end.

(** [c in s] for a one-character string [c]. *)
Definition has_char (c : N) (s : str) : bool := existsb (N.eqb c) s.

(** [s.split(sep)] for a non-empty [sep]: the pieces between the
    non-overlapping occurrences of [sep], found left to right.  [skip]
    counts the characters of a separator that are still to be passed. *)
Fixpoint split_from (sep : str) (skip : nat) (s : str) : list str :=
  match s with
  | [] => [[]]
  | c :: s' =>
      match skip with
      | S k => split_from sep k s'
      | O =>
          if startswith sep s
          then [] :: split_from sep (Nat.pred (length sep)) s'
          else match split_from sep O s' with
               | piece :: pieces => (c :: piece) :: pieces
               | [] => [[c]]
               end
      end
  end.

Definition split (sep s : str) : list str := split_from sep O s.

(** [sep.join(pieces)] *)
Fixpoint join (sep : str) (pieces : list str) : str :=
  match pieces with
  | [] => []
  | [p] => p
  | p :: rest => p ++ sep ++ join sep rest
  end.

(** [s.replace(old, new)], which for a non-empty [old] is
    [new.join(s.split(old))]. *)
Definition replace (old new s : str) : str := join new (split old s).

(** [s.partition(sep)[0]]: the text before the first occurrence of
    [sep], the whole text when there is none. *)
Fixpoint partition_head (sep s : str) : str :=
  match s with
  | [] => []
  | c :: s' => if startswith sep s then [] else c :: partition_head sep s'
  end.

(** [str.isspace] on one character: the code points Python treats as
    whitespace. *)
Definition isspace (c : N) : bool :=
  ((9 <=? c) && (c <=? 13)) || ((28 <=? c) && (c <=? 32))
  || (c =? 133) || (c =? 160) || (c =? 5760)
  || ((8192 <=? c) && (c <=? 8202))
  || (c =? 8232) || (c =? 8233) || (c =? 8239) || (c =? 8287)
  || (c =? 12288).

Fixpoint lstrip (s : str) : str :=
  match s with
  | c :: s' => if isspace c then lstrip s' else s
  | [] => []
  end.

Definition rstrip (s : str) : str := rev (lstrip (rev s)).

(** [s.strip()] *)
Definition strip (s : str) : str := rstrip (lstrip s).

(** [str(n)] for a non-negative integer: its decimal digits. *)
Fixpoint digits_from (fuel : nat) (n : N) (acc : str) : str :=
  match fuel with
  | O => acc
  | S fuel' =>
      let acc' := (48 + n mod 10) :: acc in
      if n / 10 =? 0 then acc' else digits_from fuel' (n / 10) acc'
  end.

Definition str_of_int (n : N) : str := digits_from (S (N.size_nat n)) n [].

(** [s.zfill(width)] for a string without a sign. *)
Definition zfill (width : nat) (s : str) : str :=
  repeat 48 (width - length s) ++ s.

(** ASCII letters and digits. *)
Definition ascii_isalnum (c : N) : bool :=
  ((48 <=? c) && (c <=? 57)) || ((65 <=? c) && (c <=? 90))
  || ((97 <=? c) && (c <=? 122)).

End PyStr.

(** ** The Unicode tables

    [re] and [int] classify characters by the Unicode character database
    of the interpreter, which is not part of the repository.  It enters
    as a parameter for the code points outside ASCII; inside ASCII the
    classification is written out. *)

Record UnicodeDB := {
  (** [str.isalnum] on a code point of 128 or more *)
  uni_isalnum : N -> bool;
  (** the value of a decimal digit of 128 or more, [None] for the rest *)
  uni_decimal : N -> option N;
  (** [str.lower] *)
  uni_lower : str -> str;
}.

Module Re.
Import PyStr.
Local Open Scope N_scope.

Section WithUnicode.
Variable U : UnicodeDB.

(** [\w] of a [str] pattern: alphanumeric or underscore. *)
Definition is_word (c : N) : bool :=
  if c <? 128 then ascii_isalnum c || (c =? 95) else uni_isalnum U c.

(** [\d] of a [str] pattern with the digit's value, as [int] reads it. *)
Definition digit_value (c : N) : option N :=
  if c <? 128
  then (if (48 <=? c) && (c <=? 57) then Some (c - 48) else None)
  else uni_decimal U c.

End WithUnicode.
End Re.

(** ** Exceptions and results

    The exception classes the module defines, and the built-in and
    collaborator exceptions its code can raise. *)

Inductive exn :=
| ZulipEmailForwardError (msg : str)
| ZulipEmailUnrecognizedAddressError (msg : str)
| ValueError
| IndexError
| TypeError
| AssertionError
| LookupError
| DoesNotExist
| MultipleObjectsReturned
| ResponseError.

Inductive result (A : Type) :=
| Ok (a : A)
| Raise (e : exn).
Arguments Ok {A} a.
Arguments Raise {A} e.

Definition result_map {A B} (f : A -> B) (r : result A) : result B :=
  match r with Ok a => Ok (f a) | Raise e => Raise e end.

(** ** Settings *)

Record Settings := {
  (** the address template, with [%s] for the local part *)
  EMAIL_GATEWAY_PATTERN : str;
  (** the extra acceptance pattern, a regular expression put in place of
      the last literal of the template; it is kept as the test "the
      expression matches at the start of this text".  [None] when the
      setting is unset or empty. *)
  EMAIL_GATEWAY_EXTRA_PATTERN_HACK : option (str -> bool);
  EMAIL_GATEWAY_BOT : str;
  ERROR_BOT : option str;
}.

(** ** The address template as a regular expression *)

Module Template.
Import PyStr.
Local Open Scope N_scope.

(** The conversion characters that ask for a number: [d i o u x X e E
    f F g G]. *)
Definition numeric_conversion (d : N) : bool :=
  existsb (N.eqb d) [100; 105; 111; 117; 120; 88; 101; 69; 102; 70; 103; 71].

(** [pattern % args] for a tuple [args] of strings, on the templates
    whose conversions are written with two characters: literal text, [%s],
    [%%], a numeric conversion, which raises [TypeError] on a string, an
    unknown conversion character and a [%] at the end, which raise
    [ValueError].  Conversions with flags, a width, a precision or a
    mapping key, and [%c], [%r] and [%a], are not modelled: a template
    with one of them is outside the domain of this function, which
    answers [ValueError] there as for an unknown character. *)
Fixpoint percent_format (pattern : str) (args : list str) : result str :=
  match pattern with
  | [] => match args with [] => Ok [] | _ :: _ => Raise TypeError end
  | c :: rest =>
      if c =? 37 then
        match rest with
        | d :: rest' =>
            if d =? 115 then
              match args with
              | a :: args' => result_map (app a) (percent_format rest' args')
              | [] => Raise TypeError
              end
            else if d =? 37 then result_map (cons 37) (percent_format rest' args)
            else if numeric_conversion d then Raise TypeError
            else Raise ValueError
        | [] => Raise ValueError
        end
      else result_map (cons c) (percent_format rest args)
  end.

(** Matching an escaped literal at the start of the text: the rest of
    the text after it. *)
Fixpoint match_literal (p s : str) : option str :=
  match p, s with
  | [], _ => Some s
  | a :: p', b :: s' => if a =? b then match_literal p' s' else None
  | _ :: _, [] => None
  end.

(** A non-greedy group [(.*?)] followed by the rest of the expression
    [k]: the shortest run of characters other than a newline after which
    [k] matches. *)
Fixpoint lazy_group (k : str -> option (list str)) (captured s : str)
  : option (list str) :=
  match k s with
  | Some groups => Some (captured :: groups)
  | None =>
      match s with
      | [] => None
      | c :: s' => if c =? 10 then None else lazy_group k (captured ++ [c]) s'
      end
  end.

(** [re.match] of the expression [p0(.*?)p1(.*?)...(.*?)last], where
    [p0, p1, ...] are literals and [last] tests the final part; the
    result is the list of the groups. *)
Fixpoint re_match (literals : list str) (last : str -> bool) (s : str)
  : option (list str) :=
  match literals with
  | [] => if last s then Some [] else None
  | p :: literals' =>
      match match_literal p s with
      | Some rest => lazy_group (re_match literals' last) [] rest
      | None => None
      end
  end.

(** [pattern_parts]: the literals of the template around its [%s]. *)
Definition pattern_parts (settings : Settings) : list str :=
  split (lit "%s") (EMAIL_GATEWAY_PATTERN settings).

End Template.

(** ** The address codec *)

Section AddressCodec.
Import PyStr Re Template.
Local Open Scope N_scope.

Variable U : UnicodeDB.
Variable settings : Settings.

(** The replacement of one match of [\W] in [encode_email_address_helper]:
    ["%" + str(ord(c)).zfill(4)]. *)
Definition escape_char (c : N) : str := 37 :: zfill 4 (str_of_int c).

(** [re.sub("\W", ..., name)] *)
Definition escape_name (name : str) : str :=
  flat_map (fun c => if is_word U c then [c] else escape_char c) name.

Definition encode_email_address_helper (name email_token : str) : result str :=
  if decide (EMAIL_GATEWAY_PATTERN settings = []) then Ok []
  else
    let encoded_name := escape_name name in
    let encoded_token := encoded_name ++ lit "+" ++ email_token in
    percent_format (EMAIL_GATEWAY_PATTERN settings) [encoded_token].

(** The compiled expression of
    [get_email_gateway_message_string_from_address]: the literals before
    the last part, and the test for the last part, which is the extra
    acceptance pattern when that is configured. *)
Definition gateway_last_part (parts : list str) : str -> bool :=
  match EMAIL_GATEWAY_EXTRA_PATTERN_HACK settings with
  | Some hack => hack
  | None => startswith (List.last parts [])
  end.

(** [match_email_re.match(address)] there: the groups of the match. *)
Definition gateway_match (address : str) : option (list str) :=
  let pattern_parts := pattern_parts settings in
  re_match (removelast pattern_parts) (gateway_last_part pattern_parts) address.

Definition get_email_gateway_message_string_from_address (address : str)
  : result str :=
  match gateway_match address with
  | None => Raise (ZulipEmailUnrecognizedAddressError (lit "No matching address found"))
  | Some groups =>
      match groups with
      | msg_string :: _ => Ok msg_string
      | [] => Raise IndexError
      end
  end.

(** [int] of four digits. *)
Definition four_digits (d1 d2 d3 d4 : N) : option N :=
  match digit_value U d1, digit_value U d2, digit_value U d3, digit_value U d4 with
  | Some v1, Some v2, Some v3, Some v4 =>
      Some (((v1 * 10 + v2) * 10 + v3) * 10 + v4)
  | _, _, _, _ => None
  end.

(** [re.sub("%\d{4}", lambda x: unichr(int(x.group(0)[1:])), s)] *)
Fixpoint unescape_name (s : str) : str :=
  match s with
  | [] => []
  | c :: s' =>
      match s' with
      | d1 :: d2 :: d3 :: d4 :: rest =>
          match (if c =? 37 then four_digits d1 d2 d3 d4 else None) with
          | Some n => n :: unescape_name rest
          | None => c :: unescape_name s'
          end
      | _ => c :: unescape_name s'
      end
  end.

(** The declared return type is [Optional[Tuple[Text, Text]]]; the
    unpacking of a split that has not exactly two pieces raises
    [ValueError]. *)
Definition decode_email_address (email : str) : result (option (str * str)) :=
  match get_email_gateway_message_string_from_address email with
  | Raise e => Raise e
  | Ok msg_string =>
      let pieces :=
        if has_char 46 msg_string
        then split (lit ".") msg_string
        else split (lit "+") msg_string in
      match pieces with
      | [encoded_stream_name; token] =>
          Ok (Some (unescape_name encoded_stream_name, token))
      | _ => Raise ValueError
      end
  end.

(** ** Missed-message addresses *)

Definition missed_message_redis_key (token : str) : str :=
  lit "missed_message:" ++ token.

Definition is_mm_32_format (msg_string : option str) : bool :=
  match msg_string with
  | None => false
  | Some s => startswith (lit "mm") s && (length s =? 34)%nat
  end.

(** The declared return type is [bool]; the handler returns [None]. *)
Definition is_missed_message_address (address : str) : result (option bool) :=
  match get_email_gateway_message_string_from_address address with
  | Ok msg_string => Ok (Some (is_mm_32_format (Some msg_string)))
  | Raise (ZulipEmailUnrecognizedAddressError _) => Ok None
  | Raise e => Raise e
  end.

Definition get_missed_message_token_from_address (address : str) : result str :=
  match get_email_gateway_message_string_from_address address with
  | Ok msg_string =>
      if negb (is_mm_32_format (Some msg_string))
      then Raise (ZulipEmailForwardError (lit "Could not parse missed message address"))
      else Ok (drop 2 msg_string)
  | Raise (ZulipEmailUnrecognizedAddressError _) =>
      Raise (ZulipEmailForwardError (lit "Address not recognized by gateway."))
  | Raise e => Raise e
  end.

End AddressCodec.

(** ** The key-value store

    The Redis client of the module, reduced to the commands it sends.  A
    key holds a hash of fields; a field holds an integer or a byte
    string.  The time to live of a key is recorded, the passing of time
    is not modelled. *)

Inductive rval :=
| RInt (z : Z)
| RBytes (b : bytes).

Record Redis := {
  hashes : gmap str (gmap str rval);
  ttls : gmap str N;
}.

Module RedisClient.
Local Open Scope Z_scope.

Definition hash_of (key : str) (r : Redis) : gmap str rval :=
  default ∅ (hashes r !! key).

(** HSETNX: sets the field when it is absent, and says whether it did. *)
Definition hsetnx (key field : str) (value : rval) (r : Redis) : bool * Redis :=
  match hash_of key r !! field with
  | Some _ => (false, r)
  | None =>
      (true, {| hashes := <[key := <[field := value]> (hash_of key r)]> (hashes r);
                ttls := ttls r |})
  end.

(** HMSET: sets the given fields. *)
Definition hmset (key : str) (mapping : list (str * rval)) (r : Redis) : Redis :=
  {| hashes := <[key := foldl (fun h kv => <[kv.1 := kv.2]> h) (hash_of key r) mapping]>
                 (hashes r);
     ttls := ttls r |}.

(** HMGET: the values of the given fields, [None] for an absent one. *)
Definition hmget (key : str) (fields : list str) (r : Redis) : list (option rval) :=
  List.map (fun f => hash_of key r !! f) fields.

(** HINCRBY: an absent key or field counts as 0; a field that is not
    an integer, or a result outside the signed 64-bit range, is an
    error and changes nothing. *)
Definition hincrby (key field : str) (amount : Z) (r : Redis) : option Z * Redis :=
  match hash_of key r !! field with
  | Some (RBytes _) => (None, r)
  | old =>
      let new_value := (match old with Some (RInt z) => z | _ => 0 end) + amount in
      if (new_value <? - 2 ^ 63) || (2 ^ 63 <=? new_value) then (None, r)
      else (Some new_value,
            {| hashes := <[key := <[field := RInt new_value]> (hash_of key r)]> (hashes r);
               ttls := ttls r |})
  end.

(** EXPIRE: sets the time to live of an existing key. *)
Definition expire (key : str) (seconds : N) (r : Redis) : Redis :=
  match hashes r !! key with
  | Some _ => {| hashes := hashes r; ttls := <[key := seconds]> (ttls r) |}
  | None => r
  end.

(** DEL *)
Definition delete (key : str) (r : Redis) : Redis :=
  {| hashes := base.delete key (hashes r); ttls := base.delete key (ttls r) |}.

End RedisClient.

(** ** The records of the collaborators *)

Record Realm := { string_id : str }.

Global Instance Realm_eq_dec : EqDecision Realm.
Proof. solve_decision. Defined.

Record Stream := {
  stream_name : str;
  email_token : str;
  stream_realm : Realm;
}.

Record UserProfile := {
  user_email : str;
  user_realm : Realm;
}.

(** [Recipient.type] is an integer; [PERSONAL], [STREAM] and [HUDDLE]
    are 1, 2 and 3. *)
Record Recipient := {
  recipient_id : Z;
  recipient_type : Z;
}.

Definition PERSONAL : Z := 1.
Definition STREAM : Z := 2.
Definition HUDDLE : Z := 3.

(** What [get_display_recipient] returns: the name of a stream, or the
    list of the users of a conversation (each a dict, of which the
    module reads the key [email]). *)
Inductive DisplayRecipient :=
| DisplayName (name : str)
| DisplayUsers (emails : list str).

(** ** Parsed emails

    An [email.message.Message]: its headers in order, and what
    [get_content_type], [get_content_charset] and [get_filename] return
    for it; a part is a leaf with a payload or a multipart container. *)

Record PartInfo := {
  headers : list (str * str);
  content_type : str;
  content_charset : option str;
  part_filename : option str;
}.

#[warnings="-register-all"]
Inductive Message :=
| Leaf (info : PartInfo) (payload : bytes)
| Multipart (info : PartInfo) (parts : list Message).

Definition part_info (m : Message) : PartInfo :=
  match m with Leaf i _ => i | Multipart i _ => i end.

(** ** The world the module acts on *)

Inductive Delivery :=
| InternalSendMessage (realm : Realm) (sender recipient_type_name recipients
                       topic content : str) (email_gateway : bool)
| InternalSendStreamMessage (realm : Realm) (sender : UserProfile)
                            (stream topic content : str)
| InternalSendPrivateMessage (realm : Realm) (sender recipient_user : UserProfile)
                             (content : str)
| InternalSendHuddleMessage (realm : Realm) (sender : UserProfile)
                            (emails : list str) (content : str).

Inductive LogLevel := INFO | WARNING | ERROR.

Record Upload := {
  upload_filename : str;
  upload_size : nat;
  upload_content_type : str;
  upload_data : bytes;
  upload_user : UserProfile;
  upload_realm : Realm;
}.

Record QueueEvent := {
  event_message : str;
  event_rcpt_to : str;
}.

(** [debug_info], the dict that [process_message] creates and passes
    on. *)
Record DebugInfo := {
  debug_to : option str;
  debug_stream : option Stream;
}.

Record World := {
  redis : Redis;
  outbox : list Delivery;
  log : list (LogLevel * str);
  queue : list (str * QueueEvent);
  uploads : list Upload;
  debug_info : DebugInfo;
}.

(** ** Computations: a state and exception monad over the world *)

Definition M (A : Type) : Type := World -> result A * World.

Global Instance M_ret : MRet M := fun A a w => (Ok a, w).

Global Instance M_bind : MBind M := fun A B f c w =>
  match c w with
  | (Ok a, w') => f a w'
  | (Raise e, w') => (Raise e, w')
  end.

Definition raise {A} (e : exn) : M A := fun w => (Raise e, w).

Definition lift {A} (r : result A) : M A := fun w => (r, w).

Definition get_world : M World := fun w => (Ok w, w).

Definition modify (f : World -> World) : M unit := fun w => (Ok tt, f w).

(** [try: body except ZulipEmailForwardError as e: handler(str(e))] *)
Definition try_except_forward {A} (body : M A) (handler : str -> M A) : M A :=
  fun w =>
    match body w with
    | (Raise (ZulipEmailForwardError msg), w') => handler msg w'
    | other => other
    end.

Definition set_redis (r : Redis) (w : World) : World :=
  {| redis := r; outbox := outbox w; log := log w; queue := queue w;
     uploads := uploads w; debug_info := debug_info w |}.

Definition add_delivery (d : Delivery) (w : World) : World :=
  {| redis := redis w; outbox := outbox w ++ [d]; log := log w; queue := queue w;
     uploads := uploads w; debug_info := debug_info w |}.

Definition add_log (level : LogLevel) (text : str) (w : World) : World :=
  {| redis := redis w; outbox := outbox w; log := log w ++ [(level, text)];
     queue := queue w; uploads := uploads w; debug_info := debug_info w |}.

Definition add_queue (name : str) (e : QueueEvent) (w : World) : World :=
  {| redis := redis w; outbox := outbox w; log := log w;
     queue := queue w ++ [(name, e)]; uploads := uploads w;
     debug_info := debug_info w |}.

Definition add_upload (u : Upload) (w : World) : World :=
  {| redis := redis w; outbox := outbox w; log := log w; queue := queue w;
     uploads := uploads w ++ [u]; debug_info := debug_info w |}.

Definition set_debug_info (d : DebugInfo) (w : World) : World :=
  {| redis := redis w; outbox := outbox w; log := log w; queue := queue w;
     uploads := uploads w; debug_info := d |}.

(** ** The module's functions *)

Section EmailMirror.
Import PyStr Re Template.

Variable U : UnicodeDB.
Variable settings : Settings.

(** *** Collaborators

    Code outside the module, taken as parameters: the codecs of the
    interpreter, the talon quotation heuristics, the renderer of HTML,
    the models of the database, the uploader, and the regular-expression
    engine on the one expression that is built from the text of a
    setting. *)

(** [content.decode(charset, errors="ignore")]; an unknown charset raises
    [LookupError]. *)
Variable bytes_decode : str -> bytes -> result str.
(** [quotations.extract_from_plain] *)
Variable extract_from_plain : str -> str.
(** [quotations.extract_from_html] *)
Variable extract_from_html : str -> str.
Variable convert_html_to_markdown : str -> str.
(** The rows of the [Stream] table. *)
Variable streams : list Stream.
Variable get_system_bot : str -> result UserProfile.
Variable get_user_profile_by_id : rval -> result UserProfile.
(** [Recipient.objects.get(id=...)] *)
Variable get_recipient : rval -> result Recipient.
Variable get_display_recipient : Recipient -> DisplayRecipient.
Variable get_user : str -> Realm -> result UserProfile.
(** [subject_b.decode('utf-8')] on the stored subject *)
Variable decode_stored_subject : rval -> result str.
(** The URL that [upload_message_image] returns. *)
Variable upload_message_image :
  str -> nat -> str -> bytes -> UserProfile -> Realm -> str.
(** [re.search(pattern, text)] for a pattern given as text: the first
    group of the match, [None] without a match. *)
Variable re_search_group : str -> str -> option str.
(** Lines 319 to 327 of [process_message]: [decode_header] on the
    subject header and the decoding of its first chunk. *)
Variable decode_subject : str -> result str.

(** *** Headers *)

Definition ascii_lower (s : str) : str :=
  List.map (fun c => if ((65 <=? c) && (c <=? 90))%N then (c + 32)%N else c) s.

(** [message.get_all(name, None)]: header names, which are ASCII,
    compare without case. *)
Definition get_all (m : Message) (name : str) : option (list str) :=
  match List.filter (fun h => bool_decide (ascii_lower h.1 = ascii_lower name))
          (headers (part_info m)) with
  | [] => None
  | values => Some (List.map snd values)
  end.

(** [message.get(name)] *)
Definition get_header (m : Message) (name : str) : option (str) :=
  match get_all m name with
  | Some (v :: _) => Some v
  | _ => None
  end.

(** [str(x)] of an optional string. *)
Definition str_of_optional (o : option str) : str :=
  match o with Some s => s | None => lit "None" end.

(** *** Error reports *)

Definition redact_stream (error_message : str) : str :=
  let domain := List.last (split (lit "@") (EMAIL_GATEWAY_PATTERN settings)) [] in
  match re_search_group (lit "\b(.*?)@" ++ domain) error_message with
  | Some stream_name =>
      match stream_name with
      | [] => error_message
      | _ :: _ =>
          replace stream_name (repeat 88%N (length stream_name)) error_message
      end
  | None => error_message
  end.

(** [Stream.objects.get(...)] with a filter. *)
Definition stream_get (p : Stream -> bool) : result Stream :=
  match List.filter p streams with
  | [] => Raise DoesNotExist
  | [s] => Ok s
  | _ :: _ :: _ => Raise MultipleObjectsReturned
  end.

Definition send_zulip (sender : str) (stream : Stream) (topic content : str)
  : M unit :=
  modify (add_delivery
    (InternalSendMessage (stream_realm stream) sender (lit "stream")
       (stream_name stream) (take 60 topic) (take 2000 content) true)).

Definition report_to_zulip (error_message : str) : M unit :=
  match ERROR_BOT settings with
  | None => mret tt
  | Some bot =>
      error_bot ← lift (get_system_bot bot);
      error_stream ← lift (stream_get (fun s =>
        bool_decide (stream_name s = lit "errors")
        && bool_decide (stream_realm s = user_realm error_bot)));
      send_zulip bot error_stream (lit "email mirror error")
        (lit "~~~" ++ [10%N] ++ error_message ++ [10%N] ++ lit "~~~")
  end.

Definition log_and_report (email_message : Message) (error_message : str)
  : M unit :=
  w ← get_world;
  let debug_info := debug_info w in
  let scrubbed_error :=
    lit "Sender: " ++ str_of_optional (get_header email_message (lit "From"))
    ++ [10%N] ++ redact_stream error_message in
  let scrubbed_error :=
    match debug_to debug_info with
    | Some to => lit "Stream: " ++ redact_stream to ++ [10%N] ++ scrubbed_error
    | None => scrubbed_error
    end in
  let scrubbed_error :=
    match debug_stream debug_info with
    | Some stream =>
        lit "Realm: " ++ string_id (stream_realm stream) ++ [10%N] ++ scrubbed_error
    | None => scrubbed_error
    end in
  modify (add_log ERROR scrubbed_error);;
  report_to_zulip scrubbed_error.

(** *** The token store *)

Definition uses_left : str := lit "uses_left".

(** Five days, in seconds. *)
Definition TOKEN_TTL : N := (60 * 60 * 24 * 5)%N.

(** The pipeline of [mark_missed_message_address_as_used]: both commands
    are executed, and [execute] raises when the first one failed. *)
Definition decrement_uses_left (key : str) : M Z :=
  fun w =>
    let (new_value, r1) := RedisClient.hincrby key uses_left (-1) (redis w) in
    let r2 := RedisClient.expire key TOKEN_TTL r1 in
    match new_value with
    | Some v => (Ok v, set_redis r2 w)
    | None => (Raise ResponseError, set_redis r2 w)
    end.

Definition mark_missed_message_address_as_used (address : str) : M unit :=
  token ← lift (get_missed_message_token_from_address settings address);
  let key := missed_message_redis_key token in
  new_value ← decrement_uses_left key;
  if (new_value <? 0)%Z then
    modify (fun w => set_redis (RedisClient.delete key (redis w)) w);;
    raise (ZulipEmailForwardError (lit "Missed message address has already been used"))
  else mret tt.

(** *** Content extraction *)

(** [message.walk()]: the part, then the parts below it, depth first. *)
Fixpoint walk (m : Message) : list Message :=
  m :: match m with
       | Leaf _ _ => []
       | Multipart _ parts => flat_map walk parts
       end.

Definition get_charsets (m : Message) : list (option str) :=
  List.map (fun part => content_charset (part_info part)) (walk m).

(** [part.get_payload(decode=True)]: the bytes of a leaf, [None] for a
    multipart container. *)
Definition get_payload_decoded (part : Message) : option bytes :=
  match part with
  | Leaf _ payload => Some payload
  | Multipart _ _ => None
  end.

(** The truth value of an optional string. *)
Definition truthy (o : option str) : bool :=
  match o with
  | Some (_ :: _) => true
  | _ => false
  end.

(** The loop of [get_message_part_by_type] over [enumerate(message.walk())]. *)
Fixpoint part_by_type_from (charsets : list (option str)) (wanted : str)
    (idx : nat) (parts : list Message) : result (option str) :=
  match parts with
  | [] => Ok None
  | part :: rest =>
      if bool_decide (content_type (part_info part) = wanted) then
        match get_payload_decoded part with
        | None => Raise AssertionError
        | Some content =>
            match charsets !! idx with
            | None => Raise IndexError
            | Some charset =>
                match (if truthy charset then charset else None) with
                | Some name => result_map Some (bytes_decode name content)
                | None => part_by_type_from charsets wanted (S idx) rest
                end
            end
        end
      else part_by_type_from charsets wanted (S idx) rest
  end.

Definition get_message_part_by_type (message : Message) (wanted : str)
  : result (option str) :=
  let charsets := get_charsets message in
  part_by_type_from charsets wanted 0 (walk message).

Definition extract_body (message : Message) : result str :=
  match get_message_part_by_type message (lit "text/plain") with
  | Raise e => Raise e
  | Ok plaintext_content =>
      if truthy plaintext_content
      then Ok (extract_from_plain (default [] plaintext_content))
      else
        match get_message_part_by_type message (lit "text/html") with
        | Raise e => Raise e
        | Ok html_content =>
            if truthy html_content
            then Ok (convert_html_to_markdown
                       (extract_from_html (default [] html_content)))
            else Raise (ZulipEmailForwardError
                          (lit "Unable to find plaintext or HTML message body"))
        end
  end.

Definition filter_footer (text : str) : str :=
  let possible_footers :=
    List.filter (fun line => startswith (lit "--") (strip line))
      (split [10%N] text) in
  if negb (length possible_footers =? 1)%nat then text
  else strip (partition_head (lit "--") text).

(** The loop of [extract_and_upload_attachments] over the parts of the
    payload; the links so far are [attachment_links]. *)
Fixpoint upload_attachments (message : Message) (user_profile : UserProfile)
    (realm : Realm) (payload : list Message) (attachment_links : list str)
  : M (list str) :=
  match payload with
  | [] => mret attachment_links
  | part :: rest =>
      let content_type := content_type (part_info part) in
      match (if truthy (part_filename (part_info part))
             then part_filename (part_info part) else None) with
      | Some filename =>
          match get_payload_decoded part with
          | Some attachment =>
              let s3_url := upload_message_image filename (length attachment)
                              content_type attachment user_profile realm in
              modify (add_upload
                {| upload_filename := filename; upload_size := length attachment;
                   upload_content_type := content_type; upload_data := attachment;
                   upload_user := user_profile; upload_realm := realm |});;
              upload_attachments message user_profile realm rest
                (attachment_links
                 ++ [lit "[" ++ filename ++ lit "](" ++ s3_url ++ lit ")"])
          | None =>
              modify (add_log WARNING
                (lit "Payload is not bytes (invalid attachment " ++ filename
                 ++ lit " in message from "
                 ++ str_of_optional (get_header message (lit "From")) ++ lit ")."));;
              upload_attachments message user_profile realm rest attachment_links
          end
      | None => upload_attachments message user_profile realm rest attachment_links
      end
  end.

Definition extract_and_upload_attachments (message : Message) (realm : Realm)
  : M str :=
  user_profile ← lift (get_system_bot (EMAIL_GATEWAY_BOT settings));
  match message with
  | Leaf _ _ => mret []
  | Multipart _ payload =>
      attachment_links ← upload_attachments message user_profile realm payload [];
      mret (join [10%N] attachment_links)
  end.

Definition PLACEHOLDER : str := lit "(No email body)".

Definition construct_zulip_body (message : Message) (realm : Realm) : M str :=
  body ← lift (extract_body message);
  let body := replace [0%N] [] body in
  let body := filter_footer body in
  links ← extract_and_upload_attachments message realm;
  let body := body ++ links in
  let body := strip body in
  match body with
  | [] => mret PLACEHOLDER
  | _ :: _ => mret body
  end.

(** *** Routing *)

Definition valid_stream (stream_name' token : str) : result bool :=
  match stream_get (fun s => bool_decide (email_token s = token)) with
  | Ok stream =>
      Ok (bool_decide (uni_lower U (stream_name stream) = uni_lower U stream_name'))
  | Raise DoesNotExist => Ok false
  | Raise e => Raise e
  end.

Definition extract_and_validate (email : str) : result Stream :=
  match decode_email_address U settings email with
  | Raise e => Raise e
  | Ok None => Raise (ZulipEmailForwardError (lit "Malformed email recipient " ++ email))
  | Ok (Some (stream_name, token)) =>
      match valid_stream stream_name token with
      | Raise e => Raise e
      | Ok false =>
          Raise (ZulipEmailForwardError
                   (lit "Bad stream token from email recipient " ++ email))
      | Ok true => stream_get (fun s => bool_decide (email_token s = token))
      end
  end.

Definition recipient_headers : list str :=
  [lit "X-Gm-Original-To"; lit "Delivered-To"; lit "To"].

(** The first loop of [find_emailgateway_recipient]: the values of the
    first header that has any. *)
Fixpoint first_recipients (message : Message) (names : list str) : list str :=
  match names with
  | [] => []
  | recipient_header :: rest =>
      match get_all message recipient_header with
      | Some (v :: vs) => v :: vs
      | _ => first_recipients message rest
      end
  end.

(** [match_email_re.match(recipient_email)], the expression being the
    literals of the template joined by [.*?]. *)
Definition match_email_re (recipient_email : str) : bool :=
  let pattern_parts := pattern_parts settings in
  bool_decide (is_Some (re_match (removelast pattern_parts)
                          (startswith (List.last pattern_parts []))
                          recipient_email)).

Definition find_emailgateway_recipient (message : Message) : result str :=
  let recipients := first_recipients message recipient_headers in
  match List.find match_email_re recipients with
  | Some recipient_email => Ok recipient_email
  | None => Raise (ZulipEmailForwardError (lit "Missing recipient in mirror email"))
  end.

Definition process_stream_message (to subject : str) (message : Message)
  : M unit :=
  stream ← lift (extract_and_validate to);
  body ← construct_zulip_body message (stream_realm stream);
  modify (fun w => set_debug_info
            {| debug_to := debug_to (debug_info w); debug_stream := Some stream |} w);;
  send_zulip (EMAIL_GATEWAY_BOT settings) stream subject body;;
  modify (add_log INFO
    (lit "Successfully processed email to " ++ stream_name stream ++ lit " ("
     ++ string_id (stream_realm stream) ++ lit ")")).

Definition send_to_missed_message_address (address : str) (message : Message)
  : M unit :=
  token ← lift (get_missed_message_token_from_address settings address);
  let key := missed_message_redis_key token in
  w ← get_world;
  match RedisClient.hmget key
          [lit "user_profile_id"; lit "recipient_id"; lit "subject"] (redis w) with
  | [Some user_profile_id; Some recipient_id; Some subject_b] =>
      user_profile ← lift (get_user_profile_by_id user_profile_id);
      recipient ← lift (get_recipient recipient_id);
      let display_recipient := get_display_recipient recipient in
      body ← construct_zulip_body message (user_realm user_profile);
      recipient_str ←
        (if bool_decide (recipient_type recipient = STREAM) then
           match display_recipient with
           | DisplayName recipient_str =>
               topic ← lift (decode_stored_subject subject_b);
               modify (add_delivery
                 (InternalSendStreamMessage (user_realm user_profile) user_profile
                    recipient_str topic body));;
               mret recipient_str
           | DisplayUsers _ => raise AssertionError
           end
         else if bool_decide (recipient_type recipient = PERSONAL) then
           match display_recipient with
           | DisplayName _ => raise AssertionError
           | DisplayUsers [] => raise IndexError
           | DisplayUsers (recipient_str :: _) =>
               recipient_user ← lift (get_user recipient_str (user_realm user_profile));
               modify (add_delivery
                 (InternalSendPrivateMessage (user_realm user_profile) user_profile
                    recipient_user body));;
               mret recipient_str
           end
         else if bool_decide (recipient_type recipient = HUDDLE) then
           match display_recipient with
           | DisplayName _ => raise AssertionError
           | DisplayUsers emails =>
               modify (add_delivery
                 (InternalSendHuddleMessage (user_realm user_profile) user_profile
                    emails body));;
               mret (join (lit ", ") emails)
           end
         else raise AssertionError);
      modify (add_log INFO
        (lit "Successfully processed email from " ++ user_email user_profile
         ++ lit " to " ++ recipient_str))
  | _ => raise (ZulipEmailForwardError (lit "Missing missed message address data"))
  end.

Definition process_missed_message (to : str) (message : Message)
    (pre_checked : bool) : M unit :=
  (if negb pre_checked then mark_missed_message_address_as_used to else mret tt);;
  send_to_missed_message_address to message.

(** The truth value of what [is_missed_message_address] returns. *)
Definition is_true (b : option bool) : bool := default false b.

Definition process_message (message : Message) (rcpt_to : option str)
    (pre_checked : bool) : M unit :=
  subject ← lift (decode_subject
                    (default (lit "(no subject)") (get_header message (lit "Subject"))));
  modify (set_debug_info {| debug_to := None; debug_stream := None |});;
  try_except_forward
    (to ← match rcpt_to with
          | Some rcpt_to => mret rcpt_to
          | None => lift (find_emailgateway_recipient message)
          end;
     modify (fun w => set_debug_info
               {| debug_to := Some to; debug_stream := debug_stream (debug_info w) |} w);;
     missed ← lift (is_missed_message_address settings to);
     if is_true missed
     then process_missed_message to message pre_checked
     else process_stream_message to subject message)
    (fun e => log_and_report message e).

(** The dict that [mirror_email_message] receives. *)
Record MirrorData := {
  recipient : str;
  msg_text : str;
}.

Definition mirror_email_message (data : MirrorData) : M (list (str * str)) :=
  let rcpt_to := recipient data in
  missed ← lift (is_missed_message_address settings rcpt_to);
  rejected ←
    (if is_true missed then
       try_except_forward
         (mark_missed_message_address_as_used rcpt_to;; mret None)
         (fun _ => mret (Some
            [(lit "status", lit "error");
             (lit "msg", lit "5.1.1 Bad destination mailbox address: "
                         ++ lit "Bad or expired missed message address.")]))
     else
       try_except_forward
         (lift (extract_and_validate rcpt_to);; mret None)
         (fun _ => mret (Some
            [(lit "status", lit "error");
             (lit "msg", lit "5.1.1 Bad destination mailbox address: "
                         ++ lit "Please use the address specified in your Streams page.")])));
  match rejected with
  | Some response => mret response
  | None =>
      modify (add_queue (lit "email_mirror")
                {| event_message := msg_text data; event_rcpt_to := rcpt_to |});;
      mret [(lit "status", lit "success")]
  end.

End EmailMirror.

(** ** The functions around the flows

    [encode_email_address] and [create_missed_message_address], which
    make the addresses that the flows above read. *)

(** A [zerver.models.Message], the chat message a missed-message email
    is about: the columns that [create_missed_message_address] reads. *)
Record ChatMessage := {
  sender_id : Z;
  chat_recipient : Recipient;
  chat_subject : str;
}.

Section MakingAddresses.
Import PyStr Template.

Variable U : UnicodeDB.
Variable settings : Settings.
(** [user_profile.id] *)
Variable profile_id : UserProfile -> Z.
Variable get_personal_recipient : Z -> result Recipient.
(** [message.subject.encode('utf-8')] *)
Variable utf8_encode : str -> result bytes.
(** [FromAddress.NOREPLY] *)
Variable NOREPLY : str.

Definition encode_email_address (stream : Stream) : result str :=
  encode_email_address_helper U settings (stream_name stream) (email_token stream).

(** The loop [while True] of [create_missed_message_address], over the
    successive results of [generate_random_token(32)]: the first token
    whose key takes the counter is kept.  [None] when the given results
    are used up and the loop still runs. *)
Fixpoint claim_token (candidates : list str) (r : Redis) : option (str * Redis) :=
  match candidates with
  | [] => None
  | token :: rest =>
      let key := missed_message_redis_key token in
      match RedisClient.hsetnx key uses_left (RInt 1) r with
      | (true, r') => Some (token, r')
      | (false, r') => claim_token rest r'
      end
  end.

Definition create_missed_message_address (candidates : list str)
    (user_profile : UserProfile) (message : ChatMessage)
  : World -> option (result str * World) :=
  fun w =>
    if decide (EMAIL_GATEWAY_PATTERN settings = []) then
      Some (Ok NOREPLY,
            add_log WARNING
              (lit "EMAIL_GATEWAY_PATTERN is an empty string, using "
               ++ lit "NOREPLY_EMAIL_ADDRESS in the 'from' field.") w)
    else
      match (if bool_decide (recipient_type (chat_recipient message) = PERSONAL)
             then result_map recipient_id (get_personal_recipient (sender_id message))
             else Ok (recipient_id (chat_recipient message))) with
      | Raise e => Some (Raise e, w)
      | Ok recipient_id =>
          match utf8_encode (chat_subject message) with
          | Raise e => Some (Raise e, w)
          | Ok subject =>
              let data := [(lit "user_profile_id", RInt (profile_id user_profile));
                           (lit "recipient_id", RInt recipient_id);
                           (lit "subject", RBytes subject)] in
              match claim_token candidates (redis w) with
              | None => None
              | Some (token, r1) =>
                  let key := missed_message_redis_key token in
                  let r2 := RedisClient.expire key TOKEN_TTL
                              (RedisClient.hmset key data r1) in
                  let address := lit "mm" ++ token in
                  Some (percent_format (EMAIL_GATEWAY_PATTERN settings) [address],
                        set_redis r2 w)
              end
          end
      end.

End MakingAddresses.

(** ** The vocabulary of the properties *)

(** A legal token: letters and digits of ASCII, as
    [generate_random_token] produces them. *)
Definition legal_token (token : str) : bool := forallb PyStr.ascii_isalnum token.

(** The escape of a code point below 10000, digit by digit. *)
Definition escape_check (c : N) : bool :=
  bool_decide (escape_char c =
    [37; 48 + c / 1000; 48 + (c / 100) mod 10; 48 + (c / 10) mod 10; 48 + c mod 10]%N).

(** Characters that neither end the local part nor separate it. *)
Definition plain_char (c : N) : Prop :=
  (c ≠ 64 /\ c ≠ 10 /\ c ≠ 46 /\ c ≠ 43)%N.

(** The names the escaping can carry: every character that is escaped
    has a code point of four digits at most. *)
Definition escapable (U : UnicodeDB) (name : str) : Prop :=
  Forall (fun c => Re.is_word U c = true \/ (c < 10000)%N) name.

(** The counter of a token in the store. *)
Definition uses_left_of (key : str) (w : World) : option rval :=
  RedisClient.hash_of key (redis w) !! uses_left.

Definition ALREADY_USED : exn :=
  ZulipEmailForwardError (PyStr.lit "Missed message address has already been used").

Definition NO_MATCH : exn :=
  ZulipEmailUnrecognizedAddressError (PyStr.lit "No matching address found").

Definition MISSING_RECIPIENT : exn :=
  ZulipEmailForwardError (PyStr.lit "Missing recipient in mirror email").

Definition SUCCESS : list (str * str) := [(PyStr.lit "status", PyStr.lit "success")].

(** The two rejections of [mirror_email_message]. *)
Definition BAD_MISSED_ADDRESS : list (str * str) :=
  [(PyStr.lit "status", PyStr.lit "error");
   (PyStr.lit "msg", PyStr.lit "5.1.1 Bad destination mailbox address: "
                     ++ PyStr.lit "Bad or expired missed message address.")].

Definition BAD_STREAM_ADDRESS : list (str * str) :=
  [(PyStr.lit "status", PyStr.lit "error");
   (PyStr.lit "msg", PyStr.lit "5.1.1 Bad destination mailbox address: "
                     ++ PyStr.lit "Please use the address specified in your Streams page.")].

Definition TEXT_PLAIN : str := PyStr.lit "text/plain".
Definition TEXT_HTML : str := PyStr.lit "text/html".

(** A part that [get_message_part_by_type] passes over when it looks for
    [wanted]: of another type, or a leaf of that type without a declared
    charset. *)
Definition skipped (wanted : str) (part : Message) : Prop :=
  content_type (part_info part) ≠ wanted \/
  (is_Some (get_payload_decoded part) /\ truthy (content_charset (part_info part)) = false).

(** The recipient of the dispatch: the explicit one, or the one found
    in the headers. *)
Definition resolve_recipient (settings : Settings) (message : Message)
    (rcpt_to : option str) : result str :=
  match rcpt_to with
  | Some rcpt_to => Ok rcpt_to
  | None => find_emailgateway_recipient settings message
  end.

(** The world in which the flows of [process_message] start for the
    recipient [to]. *)
Definition dispatch_start (to : str) (w : World) : World :=
  set_debug_info {| debug_to := Some to; debug_stream := None |} w.

(** The world after [queue_json_publish] in [mirror_email_message]. *)
Definition queued (data : MirrorData) (w : World) : World :=
  add_queue (PyStr.lit "email_mirror")
    {| event_message := msg_text data; event_rcpt_to := recipient data |} w.

(** A computation that leaves the key-value store as it was. *)
Definition keeps_redis {A} (c : M A) : Prop :=
  forall w, redis (c w).2 = redis w.

(** A computation that acts on the key-value store only. *)
Definition only_redis {A} (c : M A) : Prop :=
  forall w, (c w).2 = set_redis (redis (c w).2) w.

(** The specification's reading of [filter_footer], in its words: the
    lines whose trimmed form starts with "--" are the candidates; with
    exactly one candidate the result is everything before that line,
    trimmed, and the text itself otherwise. *)
Definition footer_candidate (line : str) : bool :=
  PyStr.startswith (PyStr.lit "--") (PyStr.strip line).

Fixpoint lines_before_footer (lines : list str) : list str :=
  match lines with
  | [] => []
  | line :: rest =>
      if footer_candidate line then [] else line :: lines_before_footer rest
  end.

Definition filter_footer_spec (text : str) : str :=
  let lines := PyStr.split [10%N] text in
  if (length (List.filter footer_candidate lines) =? 1)%nat
  then PyStr.strip (PyStr.join [10%N] (lines_before_footer lines))
  else text.

(** No two dashes side by side, and no dash at the end. *)
Fixpoint dashless (s : str) : bool :=
  match s with
  | [] => true
  | a :: s' => negb ((a =? 45)%N && (hd 45%N s' =? 45)%N) && dashless s'
  end.

(** [sub in s] *)
Fixpoint has_sub (sub s : str) : bool :=
  PyStr.startswith sub s || match s with [] => false | _ :: s' => has_sub sub s' end.

(** An ASCII digit. *)
Definition ascii_digit (c : N) : Prop := (48 <= c <= 57)%N.

(** Worlds that differ in the uploads and the log only. *)
Definition uploads_and_log_only (w w' : World) : Prop :=
  redis w' = redis w /\ outbox w' = outbox w /\ queue w' = queue w
  /\ debug_info w' = debug_info w.

(** A computation that uploads and logs, and does nothing else. *)
Definition only_uploads {A} (c : M A) : Prop :=
  forall w, uploads_and_log_only w (c w).2.

(** The delivery of [send_zulip]. *)
Definition stream_delivery (sender : str) (stream : Stream) (topic content : str)
  : Delivery :=
  InternalSendMessage (stream_realm stream) sender (PyStr.lit "stream")
    (stream_name stream) (take 60 topic) (take 2000 content) true.

Definition BAD_STREAM_TOKEN (email : str) : exn :=
  ZulipEmailForwardError (PyStr.lit "Bad stream token from email recipient " ++ email).

(** The row of the table with this token, when there is exactly one. *)
Definition the_stream_of_token (streams : list Stream) (stream : Stream) : Prop :=
  List.filter (fun s => bool_decide (email_token s = email_token stream)) streams
  = [stream].

Definition NO_BODY : exn :=
  ZulipEmailForwardError (PyStr.lit "Unable to find plaintext or HTML message body").

(** The file name of a part, when it has one that is not empty. *)
Definition attachment_name (part : Message) : option str :=
  if truthy (part_filename (part_info part)) then part_filename (part_info part)
  else None.

(** The link and the upload that [extract_and_upload_attachments] makes
    for a part: for a leaf with a file name. *)
Definition attachment_upload
    (upload_message_image : str -> nat -> str -> bytes -> UserProfile -> Realm -> str)
    (user_profile : UserProfile) (realm : Realm) (part : Message)
  : option (str * Upload) :=
  match attachment_name part, get_payload_decoded part with
  | Some filename, Some attachment =>
      let content_type := content_type (part_info part) in
      Some (PyStr.lit "[" ++ filename ++ PyStr.lit "]("
            ++ upload_message_image filename (length attachment) content_type
                 attachment user_profile realm
            ++ PyStr.lit ")",
            {| upload_filename := filename; upload_size := length attachment;
               upload_content_type := content_type; upload_data := attachment;
               upload_user := user_profile; upload_realm := realm |})
  | _, _ => None
  end.

(** The parts that [extract_and_upload_attachments] looks at: the
    immediate parts of a multipart email. *)
Definition immediate_parts (message : Message) : list Message :=
  match message with
  | Leaf _ _ => []
  | Multipart _ payload => payload
  end.

Definition MISSING_DATA : exn :=
  ZulipEmailForwardError (PyStr.lit "Missing missed message address data").

(** The fields that [send_to_missed_message_address] reads. *)
Definition DATA_FIELDS : list str :=
  [PyStr.lit "user_profile_id"; PyStr.lit "recipient_id"; PyStr.lit "subject"].

(** A token whose key holds a counter already. *)
Definition taken (r : Redis) (token : str) : Prop :=
  RedisClient.hash_of (missed_message_redis_key token) r !! uses_left ≠ None.

(** The recipient that [create_missed_message_address] stores: the
    personal recipient of the sender for a private message, the
    recipient of the message otherwise. *)
Definition recipient_to_reply (get_personal_recipient : Z -> result Recipient)
    (message : ChatMessage) : result Z :=
  if bool_decide (recipient_type (chat_recipient message) = PERSONAL)
  then result_map recipient_id (get_personal_recipient (sender_id message))
  else Ok (recipient_id (chat_recipient message)).

(** A delivery of the missed-message flow, made as [user_profile] in the
    realm of that user, with the given body. *)
Definition sent_as (user_profile : UserProfile) (body : str) (d : Delivery) : Prop :=
  match d with
  | InternalSendStreamMessage realm sender _ _ content
  | InternalSendPrivateMessage realm sender _ content
  | InternalSendHuddleMessage realm sender _ content =>
      realm = user_realm user_profile /\ sender = user_profile /\ content = body
  | InternalSendMessage _ _ _ _ _ _ _ => False
  end.

(** The text [s] with the occurrences of [name] overwritten by "X",
    character by character: the text is read from left to right, and
    where [name] starts its characters become "X" and the reading goes on
    behind it.  [pending] counts the characters of an occurrence that are
    still to be overwritten. *)
Fixpoint overwritten (name : str) (pending : nat) (s : str) : str :=
  match s with
  | [] => []
  | c :: s' =>
      match pending with
      | S k => 88%N :: overwritten name k s'
      | O =>
          if PyStr.startswith name s
          then 88%N :: overwritten name (Nat.pred (length name)) s'
          else c :: overwritten name O s'
      end
  end.

(** ** A deployment to evaluate on

    The template of the specification's scenarios, and stand-ins for
    the collaborators: a Unicode table without letters or digits outside
    ASCII, codecs that read bytes as code points, quotation heuristics
    and a renderer that leave the text as it is, and the search of the
    expression of [redact_stream] for that template. *)

Module Scenario.
Import PyStr.

Definition unicode : UnicodeDB :=
  {| uni_isalnum := fun _ => false;
     uni_decimal := fun _ => None;
     uni_lower := ascii_lower |}.

Definition settings : Settings :=
  {| EMAIL_GATEWAY_PATTERN := lit "%s@example.com";
     EMAIL_GATEWAY_EXTRA_PATTERN_HACK := None;
     EMAIL_GATEWAY_BOT := lit "emailgateway@zulip.com";
     ERROR_BOT := None |}.

Definition realm : Realm := {| string_id := lit "zulip" |}.

Definition bot : UserProfile :=
  {| user_email := lit "emailgateway@zulip.com"; user_realm := realm |}.

Definition general : Stream :=
  {| stream_name := lit "general"; email_token := lit "abc123";
     stream_realm := realm |}.

Definition streams : list Stream := [general].

Definition bytes_decode (charset : str) (content : bytes) : result str :=
  Ok (List.map Byte.to_N content).

Definition to_bytes (s : string) : bytes := list_byte_of_string s.

Definition identity (s : str) : str := s.

Definition get_system_bot (email : str) : result UserProfile := Ok bot.

Definition empty_redis : Redis := {| hashes := ∅; ttls := ∅ |}.

Definition empty_world : World :=
  {| redis := empty_redis; outbox := []; log := []; queue := []; uploads := [];
     debug_info := {| debug_to := None; debug_stream := None |} |}.

(** A missed-message address and the key of its token. *)
Definition token : str := lit "0123456789abcdef0123456789abcdef".
Definition mm_address : str := lit "mm" ++ token ++ lit "@example.com".
Definition mm_key : str := missed_message_redis_key token.

(** The store after the commands of [create_missed_message_address]
    for that token: HSETNX of the counter, HMSET of the data, EXPIRE. *)
Definition fresh_redis : Redis :=
  RedisClient.expire mm_key TOKEN_TTL
    (RedisClient.hmset mm_key
       [(lit "user_profile_id", RInt 7); (lit "recipient_id", RInt 11);
        (lit "subject", RBytes (to_bytes "hello"))]
       (RedisClient.hsetnx mm_key uses_left (RInt 1) empty_redis).2).

Definition fresh_world : World := set_redis fresh_redis empty_world.

(** Emails: a plaintext part without a declared charset, an HTML part
    and a plaintext part that declare one, and a container for them. *)
Definition plain_without_charset : Message :=
  Leaf {| headers := []; content_type := lit "text/plain";
          content_charset := None; part_filename := None |}
       (to_bytes "Hello").

Definition html_part : Message :=
  Leaf {| headers := []; content_type := lit "text/html";
          content_charset := Some (lit "utf-8"); part_filename := None |}
       (to_bytes "<p>Hi</p>").

Definition plain_part : Message :=
  Leaf {| headers := []; content_type := lit "text/plain";
          content_charset := Some (lit "utf-8"); part_filename := None |}
       (to_bytes "Hello").

Definition alternative (parts : list Message) : Message :=
  Multipart {| headers := [(lit "From", lit "alice@example.org")];
               content_type := lit "multipart/alternative";
               content_charset := None; part_filename := None |}
            parts.

(** An email whose header of highest priority holds an address of
    another domain. *)
Definition forwarded : Message :=
  Leaf {| headers := [(lit "X-Gm-Original-To", lit "someone@elsewhere.org");
                      (lit "To", lit "general+abc123@example.com")];
          content_type := lit "text/plain";
          content_charset := Some (lit "utf-8"); part_filename := None |}
       (to_bytes "Hello").

(** An email with two values of the header [Delivered-To]. *)
Definition delivered : Message :=
  Leaf {| headers := [(lit "Delivered-To", lit "postmaster@example.org");
                      (lit "delivered-to", lit "general+abc123@example.com");
                      (lit "To", lit "other+abc123@example.com")];
          content_type := lit "text/plain"; content_charset := None;
          part_filename := None |} [].

(** A text with one footer line and two dashes inside an earlier line,
    and the text of the specification's scenario. *)
Definition dashes_inside : str :=
  lit "a--b" ++ [10%N] ++ lit "--" ++ [10%N] ++ lit "sig".

Definition hello_footer : str :=
  lit "Hello" ++ [10%N] ++ lit "--" ++ [10%N] ++ lit "Sent from my phone".

Definition decode_subject (header : str) : result str := Ok header.

Definition no_user {A} (key : A) : result UserProfile := Raise DoesNotExist.

Definition extract_body : Message -> result str :=
  extract_body bytes_decode identity identity identity.

(** [re.search] of the expression that [redact_stream] builds, which is
    "\b(.*?)@" followed by the domain of the template, for a domain of
    letters, digits and dots.  The domain is not escaped: a dot of it
    stands for any character but a newline. *)
Fixpoint match_domain (domain s : str) : bool :=
  match domain, s with
  | [], _ => true
  | d :: domain', c :: s' =>
      (if (d =? 46)%N then negb (c =? 10)%N else (d =? c)%N)
      && match_domain domain' s'
  | _ :: _, [] => false
  end.

(** The non-greedy group, then "@" and the domain. *)
Fixpoint lazy_until (domain captured s : str) : option str :=
  match s with
  | [] => None
  | c :: s' =>
      if (c =? 64)%N && match_domain domain s' then Some captured
      else if (c =? 10)%N then None
      else lazy_until domain (captured ++ [c]) s'
  end.

(** The search: the first place at a word boundary from which the rest
    of the expression matches. *)
Fixpoint search_from (domain : str) (after_word : bool) (s : str) : option str :=
  match s with
  | [] => None
  | c :: s' =>
      match (if xorb after_word (Re.is_word unicode c)
             then lazy_until domain [] s else None) with
      | Some name => Some name
      | None => search_from domain (Re.is_word unicode c) s'
      end
  end.

Definition re_search_group (pattern message : str) : option str :=
  search_from (drop 8 pattern) false message.

Definition process_message : Message -> option str -> bool -> M unit :=
  process_message unicode settings bytes_decode identity identity identity streams
    get_system_bot no_user (fun _ => Raise DoesNotExist)
    (fun _ => DisplayUsers []) (fun _ _ => Raise DoesNotExist)
    (fun _ => Raise ValueError) (fun _ _ _ _ _ _ => lit "/user_uploads/1")
    re_search_group decode_subject.

Definition mirror_email_message : MirrorData -> M (list (str * str)) :=
  mirror_email_message unicode settings streams.

Definition missed_reply : MirrorData :=
  {| recipient := mm_address; msg_text := lit "Subject: Re: hello" |}.

(** An email whose only part is a plaintext of two spaces. *)
Definition blank_part : Message :=
  Leaf {| headers := []; content_type := lit "text/plain";
          content_charset := Some (lit "utf-8"); part_filename := None |}
       (to_bytes "  ").

Definition construct_zulip_body : Message -> Realm -> M str :=
  construct_zulip_body settings bytes_decode identity identity identity
    get_system_bot (fun _ _ _ _ _ _ => lit "/user_uploads/1").

(** A stream whose token has 32 characters, and a table with it. *)
Definition design : Stream :=
  {| stream_name := lit "design/ux"; email_token := token; stream_realm := realm |}.

Definition more_streams : list Stream := [general; design].

(** The chat message of a missed-message email, and the collaborators
    of [create_missed_message_address]. *)
Definition missed : ChatMessage :=
  {| sender_id := 5; chat_recipient := {| recipient_id := 11; recipient_type := STREAM |};
     chat_subject := lit "hello" |}.

Definition utf8_encode (s : str) : result bytes :=
  Ok (List.map (fun c => default Byte.x00 (Byte.of_N c)) s).

Definition create_missed_message_address (candidates : list str)
  : World -> option (result str * World) :=
  create_missed_message_address settings (fun _ => 7%Z) (fun _ => Raise DoesNotExist)
    utf8_encode (lit "noreply@example.com") candidates bot missed.

(** An email with two attachments around a part without a file name. *)
Definition attachment (name : string) (content : string) : Message :=
  Leaf {| headers := []; content_type := lit "application/octet-stream";
          content_charset := None; part_filename := Some (lit name) |}
       (to_bytes content).

Definition with_attachments : Message :=
  alternative [plain_part; attachment "a.txt" "aa"; attachment "b.txt" "b"].

End Scenario.

(** * Properties *)

(** ** Strings and the template *)

Import PyStr Re Template.

Section Strings.
Local Open Scope N_scope.

Lemma startswith_single c s :
  startswith [c] s = match s with d :: _ => c =? d | [] => false end.
Proof. destruct s as [|d s]; [done|]. cbn. by rewrite andb_true_r. Qed.

(** [split] on a one-character separator. *)
Lemma split_char_cons c d s :
  split [c] (d :: s) =
    if c =? d then [] :: split [c] s
    else match split [c] s with
         | piece :: pieces => (d :: piece) :: pieces
         | [] => [[d]]
         end.
Proof. unfold split. cbn [split_from]. rewrite startswith_single. done. Qed.

Lemma split_char_absent c s : has_char c s = false -> split [c] s = [s].
Proof.
  induction s as [|d s IH]; [done|].
  cbn [has_char existsb]. intros [Hd Hs]%orb_false_iff.
  rewrite split_char_cons, Hd, IH; done.
Qed.

Lemma split_char_app c a s :
  has_char c a = false -> split [c] (a ++ c :: s) = a :: split [c] s.
Proof.
  induction a as [|d a IH]; intros Ha.
  - cbn [app]. by rewrite split_char_cons, N.eqb_refl.
  - cbn [has_char existsb] in Ha. apply orb_false_iff in Ha as [Hd Ha].
    cbn [app]. rewrite split_char_cons, Hd, IH; done.
Qed.

Lemma split_char_once c a b :
  has_char c a = false -> has_char c b = false ->
  split [c] (a ++ c :: b) = [a; b].
Proof. intros Ha Hb. by rewrite split_char_app, split_char_absent. Qed.

Lemma has_char_app c a b : has_char c (a ++ b) = has_char c a || has_char c b.
Proof. apply existsb_app. Qed.

Lemma has_char_false c s : has_char c s = false <-> Forall (fun d => d ≠ c) s.
Proof.
  induction s as [|d s IH]; cbn [has_char existsb].
  - split; [constructor|done].
  - rewrite orb_false_iff, Forall_cons, <- IH. unfold has_char.
    rewrite N.eqb_neq. split; intros [Hd Hs]; (split; [congruence|exact Hs]).
Qed.

(** The placeholder splits a template without another "%" in two. *)
Lemma split_placeholder_absent s :
  has_char 37 s = false -> split_from [37; 115] 0 s = [s].
Proof.
  induction s as [|d s IH]; [done|].
  cbn [has_char existsb]. intros [Hd Hs]%orb_false_iff.
  cbn [split_from startswith]. rewrite Hd. cbn [andb]. by rewrite IH.
Qed.

Lemma split_placeholder prefix suffix :
  has_char 37 prefix = false -> has_char 37 suffix = false ->
  split (lit "%s") (prefix ++ lit "%s" ++ suffix) = [prefix; suffix].
Proof.
  change (lit "%s") with [37; 115]. unfold split. intros Hp Hs.
  induction prefix as [|d prefix IH].
  - cbn. by rewrite split_placeholder_absent.
  - cbn [has_char existsb] in Hp. apply orb_false_iff in Hp as [Hd Hp].
    cbn [app split_from startswith]. rewrite Hd. cbn [andb].
    cbn [app] in IH. by rewrite IH.
Qed.

Lemma percent_format_plain s :
  has_char 37 s = false -> percent_format s [] = Ok s.
Proof.
  induction s as [|d s IH]; [done|].
  cbn [has_char existsb]. intros [Hd Hs]%orb_false_iff.
  cbn [percent_format]. rewrite N.eqb_sym, Hd, IH; done.
Qed.

Lemma percent_format_placeholder prefix suffix arg :
  has_char 37 prefix = false -> has_char 37 suffix = false ->
  percent_format (prefix ++ lit "%s" ++ suffix) [arg] = Ok (prefix ++ arg ++ suffix).
Proof.
  change (lit "%s") with [37; 115]. intros Hp Hs.
  induction prefix as [|d prefix IH].
  - cbn. by rewrite percent_format_plain.
  - cbn [has_char existsb] in Hp. apply orb_false_iff in Hp as [Hd Hp].
    cbn [app percent_format]. rewrite N.eqb_sym, Hd.
    cbn [app] in IH. by rewrite IH.
Qed.

Lemma match_literal_app p s : match_literal p (p ++ s) = Some s.
Proof. induction p as [|a p IH]; [done|]. cbn. by rewrite N.eqb_refl. Qed.

Lemma startswith_self p : startswith p p = true.
Proof. induction p as [|a p IH]; [done|]. cbn. by rewrite N.eqb_refl. Qed.

(** A non-greedy group in front of a literal that starts with a
    character the text before it does not hold. *)
Lemma lazy_group_until c0 suffix body : forall captured,
  Forall (fun c => c ≠ c0 /\ c ≠ 10) body ->
  lazy_group (fun s => if startswith (c0 :: suffix) s then Some [] else None)
    captured (body ++ c0 :: suffix) = Some [captured ++ body].
Proof.
  induction body as [|c body IH]; intros captured Hbody.
  - cbn [app lazy_group].
    rewrite (startswith_self (c0 :: suffix)). by rewrite app_nil_r.
  - apply Forall_cons in Hbody as [[Hc0 Hnl] Hbody].
    cbn [app lazy_group startswith].
    apply N.eqb_neq in Hc0, Hnl. rewrite N.eqb_sym, Hc0. cbn [andb].
    rewrite Hnl, IH by done. by rewrite <- app_assoc.
Qed.

End Strings.

Section Matching.
Variable settings : Settings.

Lemma lazy_group_nonempty k : forall s captured groups,
  lazy_group k captured s = Some groups -> groups ≠ [].
Proof.
  induction s as [|c s IH]; intros captured groups; cbn [lazy_group].
  - destruct (k []); [|done]. by intros [= <-].
  - destruct (k (c :: s)); [by intros [= <-]|].
    destruct (c =? 10)%N; [done|]. apply IH.
Qed.

Lemma removelast_nonempty {A} (l : list A) :
  (2 <= length l)%nat -> removelast l ≠ [].
Proof. destruct l as [|a [|b l]]; cbn; [lia..|done]. Qed.

(** With a placeholder in the template the expression has a group, and
    the message string is the first group of a match. *)
Lemma message_string_cases address :
  (2 <= length (pattern_parts settings))%nat ->
  match gateway_match settings address with
  | Some groups =>
      exists segment, get_email_gateway_message_string_from_address settings address
                      = Ok segment
  | None =>
      get_email_gateway_message_string_from_address settings address = Raise NO_MATCH
  end.
Proof.
  intros Hparts. unfold get_email_gateway_message_string_from_address.
  destruct (gateway_match settings address) as [groups|] eqn:Hm; [|done].
  destruct groups as [|segment groups]; [|by eexists].
  exfalso. unfold gateway_match in Hm.
  destruct (removelast (pattern_parts settings)) as [|p literals] eqn:Hl.
  { by apply removelast_nonempty in Hparts. }
  cbn [re_match] in Hm. destruct (match_literal p address); [|done].
  by apply lazy_group_nonempty in Hm.
Qed.

End Matching.

(** ** The address codec *)

Section RoundTrip.
Local Open Scope N_scope.
Variable U : UnicodeDB.
Variable settings : Settings.

Abbreviation encode := (encode_email_address_helper U settings).
Abbreviation decode := (decode_email_address U settings).

Lemma ascii_isalnum_plain c : ascii_isalnum c = true -> plain_char c /\ c ≠ 37.
Proof.
  intros H. unfold plain_char. split_and!; intros ->; vm_compute in H; discriminate.
Qed.

Lemma is_word_plain c : is_word U c = true -> plain_char c /\ c ≠ 37.
Proof.
  intros H. unfold plain_char. split_and!; intros ->; vm_compute in H; discriminate.
Qed.

Lemma escape_check_all :
  forallb escape_check (List.map N.of_nat (seq 0 (N.to_nat 10000))) = true.
Proof. vm_compute. reflexivity. Qed.

Lemma escape_char_digits c :
  c < 10000 ->
  escape_char c =
    [37; 48 + c / 1000; 48 + (c / 100) mod 10; 48 + (c / 10) mod 10; 48 + c mod 10].
Proof.
  intros Hc. eapply bool_decide_eq_true_1.
  apply (proj1 (forallb_forall escape_check _) escape_check_all).
  apply in_map_iff. exists (N.to_nat c). split; [lia|]. apply in_seq. lia.
Qed.

Lemma decimal_parts c :
  c < 10000 ->
  exists d3 d2 d1 d0,
    c / 1000 = d3 /\ (c / 100) mod 10 = d2 /\ (c / 10) mod 10 = d1 /\ c mod 10 = d0
    /\ d3 < 10 /\ d2 < 10 /\ d1 < 10 /\ d0 < 10
    /\ c = ((d3 * 10 + d2) * 10 + d1) * 10 + d0.
Proof.
  intros Hc.
  exists (c / 1000), ((c / 100) mod 10), ((c / 10) mod 10), (c mod 10).
  assert (H100 : c / 100 = c / 10 / 10) by (rewrite N.Div0.div_div; reflexivity).
  assert (H1000 : c / 1000 = c / 10 / 10 / 10) by (rewrite !N.Div0.div_div; reflexivity).
  assert (c / 1000 < 10) by (apply N.Div0.div_lt_upper_bound; lia).
  rewrite H100, H1000 in *.
  pose proof (N.div_mod c 10 ltac:(lia)).
  pose proof (N.div_mod (c / 10) 10 ltac:(lia)).
  pose proof (N.div_mod (c / 10 / 10) 10 ltac:(lia)).
  pose proof (N.mod_lt c 10 ltac:(lia)).
  pose proof (N.mod_lt (c / 10) 10 ltac:(lia)).
  pose proof (N.mod_lt (c / 10 / 10) 10 ltac:(lia)).
  repeat split; lia.
Qed.

Lemma digit_value_ascii d : d < 10 -> digit_value U (48 + d) = Some d.
Proof.
  intros Hd. unfold digit_value.
  rewrite (proj2 (N.ltb_lt _ _)) by lia.
  rewrite (proj2 (N.leb_le 48 _)), (proj2 (N.leb_le _ 57)) by lia.
  cbn [andb]. f_equal. lia.
Qed.

Lemma four_digits_escape c :
  c < 10000 ->
  four_digits U (48 + c / 1000) (48 + (c / 100) mod 10) (48 + (c / 10) mod 10)
    (48 + c mod 10) = Some c.
Proof.
  intros Hc. unfold four_digits.
  destruct (decimal_parts c Hc)
    as (d3 & d2 & d1 & d0 & -> & -> & -> & -> & H3 & H2 & H1 & H0 & Hvalue).
  rewrite !digit_value_ascii by done. f_equal. lia.
Qed.

Lemma unescape_name_other c s :
  c ≠ 37 -> unescape_name U (c :: s) = c :: unescape_name U s.
Proof.
  intros Hc. apply N.eqb_neq in Hc. cbn [unescape_name]. rewrite Hc.
  by destruct s as [|? [|? [|? [|? ?]]]].
Qed.

Lemma unescape_escape_char c s :
  c < 10000 -> unescape_name U (escape_char c ++ s) = c :: unescape_name U s.
Proof.
  intros Hc. rewrite escape_char_digits by done.
  cbn [app unescape_name N.eqb Pos.eqb]. by rewrite four_digits_escape.
Qed.

Lemma unescape_escape_name name :
  escapable U name -> unescape_name U (escape_name U name) = name.
Proof.
  unfold escape_name. induction 1 as [|c name Hc Hname IH]; [done|].
  cbn [flat_map]. destruct (is_word U c) eqn:Hw.
  - cbn [app]. apply is_word_plain in Hw as [_ Hw].
    by rewrite unescape_name_other, IH.
  - destruct Hc as [|Hc]; [done|]. by rewrite unescape_escape_char, IH.
Qed.

Lemma escape_char_plain c : c < 10000 -> Forall plain_char (escape_char c).
Proof.
  intros Hc. rewrite escape_char_digits by done.
  destruct (decimal_parts c Hc)
    as (d3 & d2 & d1 & d0 & -> & -> & -> & -> & H3 & H2 & H1 & H0 & Hvalue).
  unfold plain_char. repeat constructor; lia.
Qed.

Lemma escape_name_plain name :
  escapable U name -> Forall plain_char (escape_name U name).
Proof.
  unfold escape_name. induction 1 as [|c name Hc Hname IH]; [constructor|].
  cbn [flat_map]. apply Forall_app. split; [|done].
  destruct (is_word U c) eqn:Hw.
  - constructor; [|constructor]. by apply is_word_plain in Hw as [Hw _].
  - destruct Hc as [|Hc]; [done|]. by apply escape_char_plain.
Qed.

Lemma legal_token_plain token :
  legal_token token = true -> Forall plain_char token.
Proof.
  unfold legal_token. rewrite forallb_forall, Forall_forall.
  intros H c Hc%list_elem_of_In. by apply ascii_isalnum_plain, H.
Qed.

Lemma plain_no_char c s :
  (c = 64 \/ c = 10 \/ c = 46 \/ c = 43) -> Forall plain_char s -> has_char c s = false.
Proof.
  intros Hc Hs. apply has_char_false. eapply Forall_impl; [exact Hs|].
  unfold plain_char. intros d Hd. lia.
Qed.

(** The local part of an address made from the template: the text put
    in place of the placeholder, when it holds neither "@" nor a newline. *)
Lemma message_string_of_template prefix domain body :
  EMAIL_GATEWAY_PATTERN settings = prefix ++ lit "%s" ++ 64 :: domain ->
  EMAIL_GATEWAY_EXTRA_PATTERN_HACK settings = None ->
  has_char 37 prefix = false -> has_char 37 domain = false ->
  Forall (fun c => c ≠ 64 /\ c ≠ 10) body ->
  get_email_gateway_message_string_from_address settings
    (prefix ++ body ++ 64 :: domain) = Ok body.
Proof.
  intros Hpattern Hhack Hprefix Hdomain Hbody.
  unfold get_email_gateway_message_string_from_address, gateway_match,
    gateway_last_part, pattern_parts.
  rewrite Hhack, Hpattern, split_placeholder by done.
  cbn [removelast List.last re_match]. rewrite match_literal_app.
  by rewrite lazy_group_until.
Qed.

Lemma plain_not_end s :
  Forall plain_char s -> Forall (fun c => c ≠ 64 /\ c ≠ 10) s.
Proof. intros H. eapply Forall_impl; [exact H|]. by intros c (H64 & H10 & _). Qed.

(** X1.  Decoding an encoded address gives back the name and the token,
    for a template with one placeholder followed by "@", no extra
    acceptance pattern, a name whose escaped characters have code points
    below 10000, and a token of ASCII letters and digits. *)
Theorem decode_encode_roundtrip prefix domain name token :
  EMAIL_GATEWAY_PATTERN settings = prefix ++ lit "%s" ++ 64 :: domain ->
  EMAIL_GATEWAY_EXTRA_PATTERN_HACK settings = None ->
  has_char 37 prefix = false -> has_char 37 domain = false ->
  escapable U name -> legal_token token = true ->
  exists address,
    encode name token = Ok address /\ decode address = Ok (Some (name, token)).
Proof.
  intros Hpattern Hhack Hprefix Hdomain Hname Htoken.
  set (body := escape_name U name ++ lit "+" ++ token).
  exists (prefix ++ body ++ 64 :: domain). split.
  - unfold encode_email_address_helper. rewrite Hpattern.
    destruct (decide _) as [Hnil|_].
    { by apply (f_equal length) in Hnil; rewrite !length_app in Hnil; cbn in Hnil; lia. }
    by apply percent_format_placeholder.
  - pose proof (escape_name_plain _ Hname) as Hplain_name.
    pose proof (legal_token_plain _ Htoken) as Hplain_token.
    assert (Hbody : Forall (fun c => c ≠ 64 /\ c ≠ 10) body).
    { subst body. change (lit "+") with [43]. rewrite !Forall_app. split_and!.
      - by apply plain_not_end.
      - repeat constructor; lia.
      - by apply plain_not_end. }
    unfold decode_email_address.
    rewrite (message_string_of_template prefix domain body) by done.
    subst body. change (lit "+") with [43]. change (lit ".") with [46].
    rewrite has_char_app, (plain_no_char 46 (escape_name U name)) by auto.
    cbn [has_char existsb N.eqb Pos.eqb orb app].
    fold (has_char 46 token). rewrite (plain_no_char 46 token) by auto.
    rewrite split_char_once by (apply plain_no_char; auto).
    by rewrite unescape_escape_name.
Qed.

(** X3.  The address made from the template for a token of 32 letters
    and digits is recognized as a missed-message address, and the token
    is read back from it. *)
Theorem missed_message_address_recognized prefix domain token :
  EMAIL_GATEWAY_PATTERN settings = prefix ++ lit "%s" ++ 64 :: domain ->
  EMAIL_GATEWAY_EXTRA_PATTERN_HACK settings = None ->
  has_char 37 prefix = false -> has_char 37 domain = false ->
  legal_token token = true -> length token = 32%nat ->
  exists address,
    percent_format (EMAIL_GATEWAY_PATTERN settings) [lit "mm" ++ token] = Ok address
    /\ is_missed_message_address settings address = Ok (Some true)
    /\ get_missed_message_token_from_address settings address = Ok token.
Proof.
  intros Hpattern Hhack Hprefix Hdomain Htoken Hlength.
  exists (prefix ++ (lit "mm" ++ token) ++ 64 :: domain).
  assert (Hsegment : get_email_gateway_message_string_from_address settings
            (prefix ++ (lit "mm" ++ token) ++ 64 :: domain) = Ok (lit "mm" ++ token)).
  { apply message_string_of_template; try done.
    change (lit "mm") with [109; 109]. rewrite Forall_app. split.
    - repeat constructor; lia.
    - by apply plain_not_end, legal_token_plain. }
  assert (Hshape : is_mm_32_format (Some (lit "mm" ++ token)) = true).
  { unfold is_mm_32_format. change (lit "mm") with [109; 109].
    cbn [app startswith length]. rewrite Hlength. reflexivity. }
  split_and!.
  - rewrite Hpattern. by apply percent_format_placeholder.
  - unfold is_missed_message_address. by rewrite Hsegment, Hshape.
  - unfold get_missed_message_token_from_address. by rewrite Hsegment, Hshape.
Qed.

End RoundTrip.

(** C1.  A character outside the letters and digits whose code point has
    more than four digits is escaped with all its digits, of which the
    decoder reads four: the name that comes back is another one. *)
Theorem decode_encode_five_digits U :
  uni_isalnum U 128512 = false ->
  encode_email_address_helper U Scenario.settings [128512%N] (lit "abc123")
    = Ok (lit "%128512+abc123@example.com")
  /\ decode_email_address U Scenario.settings (lit "%128512+abc123@example.com")
    = Ok (Some ([1285%N; 49%N; 50%N], lit "abc123")).
Proof.
  intros Hsmiley. split.
  - unfold encode_email_address_helper, escape_name. cbn [flat_map].
    unfold is_word. change (128512 <? 128)%N with false. cbv iota. rewrite Hsmiley.
    vm_compute. reflexivity.
  - vm_compute. reflexivity.
Qed.

Lemma decode_encode_five_digits_witness :
  encode_email_address_helper Scenario.unicode Scenario.settings [128512%N] (lit "abc123")
    = Ok (lit "%128512+abc123@example.com")
  /\ decode_email_address Scenario.unicode Scenario.settings
       (lit "%128512+abc123@example.com")
    = Ok (Some ([1285%N; 49%N; 50%N], lit "abc123")).
Proof. apply decode_encode_five_digits. reflexivity. Defined.

Lemma decode_encode_roundtrip_witness :
  exists address,
    encode_email_address_helper Scenario.unicode Scenario.settings
      (lit "sales/eu") (lit "abc123") = Ok address
    /\ decode_email_address Scenario.unicode Scenario.settings address
       = Ok (Some (lit "sales/eu", lit "abc123")).
Proof.
  apply (decode_encode_roundtrip Scenario.unicode Scenario.settings [] (lit "example.com")).
  - reflexivity.
  - reflexivity.
  - reflexivity.
  - reflexivity.
  - unfold escapable. repeat (constructor; [right; reflexivity|]). constructor.
  - reflexivity.
Defined.

Lemma missed_message_address_recognized_witness :
  exists address,
    percent_format (EMAIL_GATEWAY_PATTERN Scenario.settings)
      [lit "mm" ++ Scenario.token] = Ok address
    /\ is_missed_message_address Scenario.settings address = Ok (Some true)
    /\ get_missed_message_token_from_address Scenario.settings address
       = Ok Scenario.token.
Proof.
  apply (missed_message_address_recognized Scenario.settings [] (lit "example.com"));
    reflexivity.
Defined.

(** The first two scenarios of the specification. *)
Example encode_general :
  encode_email_address_helper Scenario.unicode Scenario.settings
    (lit "general") (lit "abc123") = Ok (lit "general+abc123@example.com")
  /\ decode_email_address Scenario.unicode Scenario.settings
       (lit "general+abc123@example.com") = Ok (Some (lit "general", lit "abc123")).
Proof. split; vm_compute; reflexivity. Qed.

Example encode_sales_eu :
  encode_email_address_helper Scenario.unicode Scenario.settings
    (lit "sales/eu") (lit "abc123") = Ok (lit "sales%0047eu+abc123@example.com")
  /\ decode_email_address Scenario.unicode Scenario.settings
       (lit "sales%0047eu+abc123@example.com")
     = Ok (Some (lit "sales/eu", lit "abc123")).
Proof. split; vm_compute; reflexivity. Qed.

(** A disabled gateway: the address is empty, and reading the message
    string of any address fails on the group that the expression lacks. *)
Example encode_disabled :
  let disabled := {| EMAIL_GATEWAY_PATTERN := [];
                     EMAIL_GATEWAY_EXTRA_PATTERN_HACK := None;
                     EMAIL_GATEWAY_BOT := lit "emailgateway@zulip.com";
                     ERROR_BOT := None |} in
  encode_email_address_helper Scenario.unicode disabled (lit "general") (lit "abc123")
    = Ok []
  /\ is_missed_message_address disabled (lit "general+abc123@example.com")
     = Raise IndexError.
Proof. split; vm_compute; reflexivity. Qed.

Section Decode.
Variable U : UnicodeDB.
Variable settings : Settings.

Abbreviation decode := (decode_email_address U settings).
Abbreviation message_string :=
  (get_email_gateway_message_string_from_address settings).

(** C4, amended.  On an address whose local part was captured, a segment
    with exactly one "." is split at that ".", and a segment with no "."
    and exactly one "+" is split at that "+"; the name is unescaped. *)
Theorem decode_email_address_split email segment :
  message_string email = Ok segment ->
  (forall name token,
      segment = name ++ 46%N :: token ->
      has_char 46 name = false -> has_char 46 token = false ->
      decode email = Ok (Some (unescape_name U name, token)))
  /\ (forall name token,
        segment = name ++ 43%N :: token ->
        has_char 46 segment = false ->
        has_char 43 name = false -> has_char 43 token = false ->
        decode email = Ok (Some (unescape_name U name, token))).
Proof.
  intros Hseg. unfold decode_email_address. rewrite Hseg. split.
  - intros name token -> Hname Htoken.
    rewrite has_char_app. cbn [has_char existsb N.eqb Pos.eqb]. rewrite orb_true_r.
    change (lit ".") with [46%N]. by rewrite split_char_once.
  - intros name token -> Hdot Hname Htoken. rewrite Hdot.
    change (lit "+") with [43%N]. by rewrite split_char_once.
Qed.

End Decode.

Lemma decode_email_address_split_witness :
  decode_email_address Scenario.unicode Scenario.settings
    (lit "general.abc123@example.com") = Ok (Some (lit "general", lit "abc123"))
  /\ decode_email_address Scenario.unicode Scenario.settings
    (lit "sales%0047eu+abc123@example.com") = Ok (Some (lit "sales/eu", lit "abc123")).
Proof.
  split.
  - apply (proj1 (decode_email_address_split Scenario.unicode Scenario.settings
                    (lit "general.abc123@example.com") (lit "general.abc123")
                    ltac:(vm_compute; reflexivity)) (lit "general") (lit "abc123"));
      vm_compute; reflexivity.
  - apply (proj2 (decode_email_address_split Scenario.unicode Scenario.settings
                    (lit "sales%0047eu+abc123@example.com") (lit "sales%0047eu+abc123")
                    ltac:(vm_compute; reflexivity)) (lit "sales%0047eu") (lit "abc123"));
      vm_compute; reflexivity.
Defined.

(** C4: a segment that holds a "+" before a "." is split at the ".",
    and a segment without a separator raises [ValueError]. *)
Lemma decode_splits_at_dot_first :
  decode_email_address Scenario.unicode Scenario.settings (lit "a+b.c@example.com")
    = Ok (Some (lit "a+b", lit "c"))
  /\ decode_email_address Scenario.unicode Scenario.settings (lit "general@example.com")
    = Raise ValueError.
Proof. split; vm_compute; reflexivity. Qed.

(** ** The token store *)

Section TokenStore.
Variable settings : Settings.
Local Open Scope Z_scope.

Abbreviation consume := (mark_missed_message_address_as_used settings).

Lemma hash_of_set_redis key r w :
  RedisClient.hash_of key (redis (set_redis r w)) = RedisClient.hash_of key r.
Proof. reflexivity. Qed.

(** What one consumption does on a decodable address, by the value of
    the counter before it. *)
Lemma consume_run address token w :
  get_missed_message_token_from_address settings address = Ok token ->
  let key := missed_message_redis_key token in
  consume address w =
    match RedisClient.hincrby key uses_left (-1) (redis w) with
    | (None, r1) => (Raise ResponseError, set_redis (RedisClient.expire key TOKEN_TTL r1) w)
    | (Some v, r1) =>
        let w2 := set_redis (RedisClient.expire key TOKEN_TTL r1) w in
        if v <? 0
        then (Raise ALREADY_USED, set_redis (RedisClient.delete key (redis w2)) w2)
        else (Ok tt, w2)
    end.
Proof.
  intros Htok key.
  unfold mark_missed_message_address_as_used, mbind, M_bind, lift.
  rewrite Htok. fold key. unfold decrement_uses_left.
  destruct (RedisClient.hincrby key uses_left (-1) (redis w)) as [[v|] r1]; [|reflexivity].
  cbn. destruct (v <? 0); reflexivity.
Qed.

Lemma consume_undecodable address e w :
  get_missed_message_token_from_address settings address = Raise e ->
  consume address w = (Raise e, w).
Proof.
  intros H. unfold mark_missed_message_address_as_used, mbind, M_bind, lift.
  by rewrite H.
Qed.

Lemma hash_of_expire k key n r :
  RedisClient.hash_of k (RedisClient.expire key n r) = RedisClient.hash_of k r.
Proof.
  unfold RedisClient.expire. by destruct (hashes r !! key).
Qed.

Lemma hashes_expire key n r : hashes (RedisClient.expire key n r) = hashes r.
Proof. unfold RedisClient.expire. by destruct (hashes r !! key). Qed.

Lemma hash_of_delete_eq key r :
  RedisClient.hash_of key (RedisClient.delete key r) = ∅.
Proof. unfold RedisClient.hash_of, RedisClient.delete. cbn. by rewrite lookup_delete_eq. Qed.

Lemma hash_of_delete_ne k key r :
  k ≠ key -> RedisClient.hash_of k (RedisClient.delete key r) = RedisClient.hash_of k r.
Proof.
  intros. unfold RedisClient.hash_of, RedisClient.delete. cbn.
  by rewrite lookup_delete_ne.
Qed.

(** HINCRBY by -1 on the counter: the cases of its result. *)
Lemma hincrby_cases key r :
  let res := RedisClient.hincrby key uses_left (-1) r in
  (res = (None, r)) \/
  (exists v, res.1 = Some v /\
     hashes res.2 = <[key := <[uses_left := RInt v]> (RedisClient.hash_of key r)]> (hashes r) /\
     ((RedisClient.hash_of key r !! uses_left = None /\ v = -1) \/
      (exists old, RedisClient.hash_of key r !! uses_left = Some (RInt old) /\ v = old - 1))).
Proof.
  unfold RedisClient.hincrby.
  destruct (RedisClient.hash_of key r !! uses_left) as [[old|b]|] eqn:E; cbn.
  - destruct (_ || _); [by left|]. right. exists (old + -1). split_and!; [done..|].
    right. exists old. split; [done|lia].
  - by left.
  - right. exists (-1). split_and!; [done..|]. by left.
Qed.

Lemma consume_monotone address w k v' :
  uses_left_of k (consume address w).2 = Some (RInt v') ->
  exists v, uses_left_of k w = Some (RInt v) /\ v' <= v.
Proof.
  destruct (get_missed_message_token_from_address settings address) as [token|e] eqn:Htok.
  2:{ rewrite (consume_undecodable _ _ _ Htok). cbn. intros H. eexists; split; [exact H|lia]. }
  rewrite (consume_run _ _ _ Htok).
  set (key := missed_message_redis_key token).
  destruct (hincrby_cases key (redis w)) as [Hnone|(v & Hv & Hh & Hold)].
  - cbn zeta in Hnone. rewrite Hnone. unfold uses_left_of. cbn.
    rewrite hash_of_expire. intros H. eexists; split; [exact H|lia].
  - cbn zeta in Hv, Hh.
    destruct (RedisClient.hincrby key uses_left (-1) (redis w)) as [o r1].
    cbn in Hv, Hh. subst o. cbn zeta.
    unfold uses_left_of.
    destruct (v <? 0) eqn:Hneg; cbn [snd redis set_redis].
    + destruct (decide (k = key)) as [->|Hne].
      * rewrite hash_of_delete_eq. by rewrite lookup_empty.
      * rewrite hash_of_delete_ne, hash_of_expire by done.
        unfold RedisClient.hash_of at 1. rewrite Hh, lookup_insert_ne by done.
        intros H. eexists; split; [exact H|lia].
    + rewrite hash_of_expire. unfold RedisClient.hash_of at 1. rewrite Hh.
      destruct (decide (k = key)) as [->|Hne].
      * rewrite lookup_insert_eq. cbn. rewrite lookup_insert_eq.
        intros [= <-]. destruct Hold as [[_ ->]|(old & Hold & ->)]; [done|].
        exists old. split; [done|lia].
      * rewrite lookup_insert_ne by done. intros H. eexists; split; [exact H|lia].
Qed.

Lemma hincrby_absent key r :
  RedisClient.hash_of key r !! uses_left = None ->
  RedisClient.hincrby key uses_left (-1) r =
    (Some (-1),
     {| hashes := <[key := <[uses_left := RInt (-1)]> (RedisClient.hash_of key r)]>
                    (hashes r);
        ttls := ttls r |}).
Proof. intros H. unfold RedisClient.hincrby. by rewrite H. Qed.

Lemma hincrby_int key r v :
  RedisClient.hash_of key r !! uses_left = Some (RInt v) ->
  - 2 ^ 63 < v <= 2 ^ 63 ->
  RedisClient.hincrby key uses_left (-1) r =
    (Some (v - 1),
     {| hashes := <[key := <[uses_left := RInt (v - 1)]> (RedisClient.hash_of key r)]>
                    (hashes r);
        ttls := ttls r |}).
Proof.
  intros H Hv. unfold RedisClient.hincrby. rewrite H.
  replace (v + -1) with (v - 1) by lia.
  destruct (v - 1 <? - 2 ^ 63) eqn:E1; [lia|].
  destruct (2 ^ 63 <=? v - 1) eqn:E2; [lia|]. done.
Qed.

Lemma consume_exhausted address token w :
  get_missed_message_token_from_address settings address = Ok token ->
  let key := missed_message_redis_key token in
  (uses_left_of key w = None \/
   exists v, uses_left_of key w = Some (RInt v) /\ - 2 ^ 63 < v <= 0) ->
  (consume address w).1 = Raise ALREADY_USED /\
  hashes (redis (consume address w).2) !! key = None.
Proof.
  intros Htok key Hcount. rewrite (consume_run _ _ _ Htok). fold key.
  destruct Hcount as [Habs|(v & Hv & Hrange)].
  - rewrite (hincrby_absent _ _ Habs). cbn. by rewrite lookup_delete_eq.
  - rewrite (hincrby_int _ _ _ Hv) by lia. cbn zeta.
    destruct (v - 1 <? 0) eqn:E; [|lia]. cbn. by rewrite lookup_delete_eq.
Qed.

Lemma consume_available address token w v :
  get_missed_message_token_from_address settings address = Ok token ->
  let key := missed_message_redis_key token in
  uses_left_of key w = Some (RInt v) -> 0 < v <= 2 ^ 63 ->
  (consume address w).1 = Ok tt /\
  uses_left_of key (consume address w).2 = Some (RInt (v - 1)).
Proof.
  intros Htok key Hv Hrange. rewrite (consume_run _ _ _ Htok). fold key.
  rewrite (hincrby_int _ _ _ Hv) by lia. cbn zeta.
  destruct (v - 1 <? 0) eqn:E; [lia|]. split; [done|].
  unfold uses_left_of. cbn [snd redis set_redis]. rewrite hash_of_expire.
  unfold RedisClient.hash_of at 1. cbn [hashes].
  rewrite lookup_insert_eq. cbn. by rewrite lookup_insert_eq.
Qed.

Lemma uses_left_of_absent key w :
  hashes (redis w) !! key = None -> uses_left_of key w = None.
Proof. intros H. unfold uses_left_of, RedisClient.hash_of. by rewrite H. Qed.

(** After the counter reached zero every further consumption fails and
    leaves no record. *)
Lemma consume_repeated address token w n :
  get_missed_message_token_from_address settings address = Ok token ->
  let key := missed_message_redis_key token in
  (uses_left_of key w = None \/ uses_left_of key w = Some (RInt 0)) ->
  let wn := Nat.iter n (fun w => (consume address w).2) w in
  (consume address wn).1 = Raise ALREADY_USED /\
  hashes (redis (consume address wn).2) !! key = None.
Proof.
  intros Htok key Hw wn.
  assert (Hinv : uses_left_of key wn = None \/ uses_left_of key wn = Some (RInt 0)).
  { subst wn. induction n as [|n IH]; [exact Hw|]. cbn [Nat.iter]. left.
    apply uses_left_of_absent, (consume_exhausted _ _ _ Htok).
    destruct IH as [IH|IH]; [by left|right; exists 0; split; [done|lia]]. }
  apply (consume_exhausted _ _ _ Htok).
  destruct Hinv as [H|H]; [by left|right; exists 0; split; [done|lia]].
Qed.

End TokenStore.

(** C7. The counter [uses_left] of a missed-message token never grows
    under [mark_missed_message_address_as_used]; a consumption that would
    make it negative deletes the record and fails; on a fresh token, with
    the counter at 1, the first consumption succeeds and every later one
    fails with "Missed message address has already been used", the record
    being deleted. *)
Theorem uses_left_single_use settings address token :
  get_missed_message_token_from_address settings address = Ok token ->
  let key := missed_message_redis_key token in
  let consume := mark_missed_message_address_as_used settings address in
  (forall w k v',
      uses_left_of k (consume w).2 = Some (RInt v') ->
      exists v, uses_left_of k w = Some (RInt v) /\ (v' <= v)%Z)
  /\ (forall w v,
        uses_left_of key w = Some (RInt v) -> (- 2 ^ 63 < v <= 0)%Z ->
        (consume w).1 = Raise ALREADY_USED /\
        hashes (redis (consume w).2) !! key = None)
  /\ (forall w,
        uses_left_of key w = Some (RInt 1) ->
        (consume w).1 = Ok tt /\
        uses_left_of key (consume w).2 = Some (RInt 0) /\
        forall n,
          let wn := Nat.iter n (fun w => (consume w).2) (consume w).2 in
          (consume wn).1 = Raise ALREADY_USED /\
          hashes (redis (consume wn).2) !! key = None).
Proof.
  intros Htok key consume. split_and!.
  - intros w k v'. apply consume_monotone.
  - intros w v Hv Hrange. apply (consume_exhausted _ _ _ _ Htok).
    right. by exists v.
  - intros w Hw.
    destruct (consume_available _ _ _ w 1 Htok Hw) as [Hok Hzero]; [lia|].
    split_and!; [done..|]. intros n.
    apply (consume_repeated _ _ _ _ n Htok). by right.
Qed.

Lemma uses_left_single_use_witness :
  let consume := mark_missed_message_address_as_used Scenario.settings Scenario.mm_address in
  (consume Scenario.fresh_world).1 = Ok tt /\
  (consume (consume Scenario.fresh_world).2).1 = Raise ALREADY_USED /\
  hashes (redis (consume (consume Scenario.fresh_world).2).2) !! Scenario.mm_key = None.
Proof.
  intros consume.
  destruct (uses_left_single_use Scenario.settings Scenario.mm_address Scenario.token
              ltac:(vm_compute; reflexivity)) as (_ & _ & Hfresh).
  destruct (Hfresh Scenario.fresh_world ltac:(vm_compute; reflexivity)) as (H1 & _ & Hn).
  split; [exact H1|]. exact (Hn 0%nat).
Defined.

(** ** Content extraction *)

Section Footer.
Local Open Scope N_scope.

Lemma split_char_nonempty c s : split [c] s ≠ [].
Proof.
  induction s as [|d s IH]; [done|]. rewrite split_char_cons.
  destruct (c =? d); [done|]. by destruct (split [c] s).
Qed.

Lemma join_cons_cons sep a b l :
  join sep (a :: b :: l) = a ++ sep ++ join sep (b :: l).
Proof. done. Qed.

Lemma join_split_char c s : join [c] (split [c] s) = s.
Proof.
  induction s as [|d s IH]; [done|]. rewrite split_char_cons.
  pose proof (split_char_nonempty c s) as Hne.
  destruct (c =? d) eqn:E.
  - apply N.eqb_eq in E as ->.
    destruct (split [d] s) as [|p ps]; [done|].
    by rewrite join_cons_cons, IH.
  - destruct (split [c] s) as [|p [|q ps]]; [done|..].
    + cbn [join] in *. by rewrite IH.
    + by rewrite join_cons_cons, <- IH, join_cons_cons.
Qed.

Lemma join_app_cons sep pre f post :
  join sep (pre ++ f :: post) =
    flat_map (fun line => line ++ sep) pre ++ join sep (f :: post).
Proof.
  induction pre as [|p pre IH]; [done|].
  cbn [app flat_map]. rewrite <- app_assoc, <- IH.
  destruct (pre ++ f :: post) as [|x l] eqn:E; [destruct pre; discriminate|].
  by rewrite join_cons_cons, <- app_assoc.
Qed.

Lemma join_lines_before sep pre :
  flat_map (fun line => line ++ sep) pre =
    match pre with [] => [] | _ :: _ => join sep pre ++ sep end.
Proof.
  induction pre as [|p pre IH]; [done|]. cbn [flat_map]. rewrite IH.
  destruct pre as [|q pre]; [by rewrite app_nil_r|].
  rewrite join_cons_cons. by rewrite <- !app_assoc.
Qed.

Lemma lines_before_footer_split lines :
  List.filter footer_candidate lines ≠ [] ->
  exists footer rest,
    lines = lines_before_footer lines ++ footer :: rest
    /\ footer_candidate footer = true.
Proof.
  induction lines as [|line lines IH]; [done|].
  cbn [List.filter lines_before_footer]. destruct (footer_candidate line) eqn:E.
  - intros _. by exists line, lines.
  - intros Hne. destruct (IH Hne) as (footer & rest & Hl & Hf).
    exists footer, rest. split; [|done]. cbn [app]. by rewrite <- Hl.
Qed.

(** Whitespace at the two ends. *)
Lemma lstrip_decompose s :
  exists ws, s = ws ++ lstrip s /\ Forall (fun c => isspace c = true) ws.
Proof.
  induction s as [|c s (ws & Hs & Hws)]; [by exists []|].
  cbn [lstrip]. destruct (isspace c) eqn:E.
  - exists (c :: ws). split; [by rewrite Hs at 1|by constructor].
  - by exists [].
Qed.

Lemma lstrip_space_app ws s :
  Forall (fun c => isspace c = true) ws -> lstrip (ws ++ s) = lstrip s.
Proof. induction 1 as [|c ws Hc _ IH]; [done|]. cbn [app lstrip]. by rewrite Hc. Qed.

Lemma lstrip_all_space ws :
  Forall (fun c => isspace c = true) ws -> lstrip ws = [].
Proof. intros H. rewrite <- (app_nil_r ws). by rewrite lstrip_space_app. Qed.

Lemma lstrip_app s t :
  lstrip s ≠ [] -> lstrip (s ++ t) = lstrip s ++ t.
Proof.
  induction s as [|c s IH]; [done|]. cbn [app lstrip].
  destruct (isspace c); [exact IH|done].
Qed.

Lemma rstrip_app_space s ws :
  Forall (fun c => isspace c = true) ws -> rstrip (s ++ ws) = rstrip s.
Proof.
  intros H. unfold rstrip. rewrite rev_app_distr, lstrip_space_app; [done|].
  by apply Forall_rev.
Qed.

Lemma rstrip_decompose s :
  exists ws, s = rstrip s ++ ws /\ Forall (fun c => isspace c = true) ws.
Proof.
  unfold rstrip. destruct (lstrip_decompose (rev s)) as (ws & Hs & Hws).
  exists (rev ws). split; [|by apply Forall_rev].
  rewrite <- rev_app_distr, <- Hs. by rewrite rev_involutive.
Qed.

Lemma strip_app_space s ws :
  Forall (fun c => isspace c = true) ws -> strip (s ++ ws) = strip s.
Proof.
  intros Hws. unfold strip. destruct (lstrip s) as [|c s'] eqn:E.
  - destruct (lstrip_decompose s) as (ws' & Hs & Hws'). rewrite E, app_nil_r in Hs.
    subst ws'. rewrite lstrip_all_space; [done|]. by apply Forall_app.
  - rewrite lstrip_app, E by (by rewrite E). by rewrite rstrip_app_space.
Qed.

Lemma strip_all_space ws :
  Forall (fun c => isspace c = true) ws -> strip ws = [].
Proof. intros H. unfold strip. by rewrite lstrip_all_space. Qed.

Lemma startswith_app p s t : startswith p s = true -> startswith p (s ++ t) = true.
Proof.
  revert s. induction p as [|a p IH]; [done|]. intros [|b s]; [done|].
  cbn. intros [-> Hp]%andb_true_iff. by rewrite IH.
Qed.

(** A footer line is whitespace followed by two dashes. *)
Lemma footer_candidate_shape line :
  footer_candidate line = true ->
  exists ws rest,
    line = ws ++ 45 :: 45 :: rest /\ Forall (fun c => isspace c = true) ws.
Proof.
  unfold footer_candidate, strip. intros H.
  destruct (lstrip_decompose line) as (ws & Hline & Hws).
  destruct (rstrip_decompose (lstrip line)) as (ws' & Hr & _).
  apply (startswith_app _ _ ws') in H. rewrite <- Hr in H.
  change (lit "--") with [45; 45] in H.
  destruct (lstrip line) as [|a [|b rest]]; [done| |]; cbn [startswith app] in H.
  { by rewrite andb_false_r in H. }
  apply andb_true_iff in H as [->%N.eqb_eq H].
  apply andb_true_iff in H as [->%N.eqb_eq _]. by exists ws, rest.
Qed.

(** Dashes. *)
Lemma dashless_app s t : dashless s = true -> dashless t = true -> dashless (s ++ t) = true.
Proof.
  intros Hs Ht. induction s as [|a s IH]; [done|].
  cbn [dashless] in Hs. apply andb_true_iff in Hs as [Ha Hs].
  cbn [app dashless]. rewrite IH by done. rewrite andb_true_r.
  destruct s as [|b s]; [|exact Ha].
  cbn [hd] in Ha. rewrite N.eqb_refl, andb_true_r in Ha.
  apply negb_true_iff in Ha. by rewrite Ha.
Qed.

Lemma dashless_space ws :
  Forall (fun c => isspace c = true) ws -> dashless ws = true.
Proof.
  induction 1 as [|c ws Hc _ IH]; [done|]. cbn [dashless]. rewrite IH, andb_true_r.
  destruct (c =? 45) eqn:E; [|done]. apply N.eqb_eq in E as ->. done.
Qed.

Lemma dashless_line line :
  has_sub (lit "--") line = false -> dashless (line ++ [10]) = true.
Proof.
  change (lit "--") with [45; 45].
  induction line as [|a line IH]; [done|].
  cbn [has_sub]. intros [Ha Hline]%orb_false_iff.
  cbn [app dashless]. rewrite IH by done. rewrite andb_true_r.
  destruct line as [|b line]; cbn [app hd].
  - change (10 =? 45) with false. by rewrite andb_false_r.
  - cbn [startswith] in Ha. rewrite andb_true_r in Ha.
    by rewrite (N.eqb_sym a), (N.eqb_sym b), Ha.
Qed.

Lemma dashless_lines pre :
  Forall (fun line => has_sub (lit "--") line = false) pre ->
  dashless (flat_map (fun line => line ++ [10]) pre) = true.
Proof.
  induction 1 as [|line pre Hl _ IH]; [done|]. cbn [flat_map].
  apply dashless_app; [by apply dashless_line|done].
Qed.

Lemma partition_head_dashless s t :
  dashless s = true -> partition_head (lit "--") (s ++ 45 :: 45 :: t) = s.
Proof.
  change (lit "--") with [45; 45].
  induction s as [|a s IH]; [done|].
  cbn [dashless]. intros [Ha Hs]%andb_true_iff.
  cbn [app partition_head]. rewrite IH by done.
  replace (startswith [45; 45] (a :: s ++ 45 :: 45 :: t)) with false; [done|].
  symmetry. apply negb_true_iff in Ha. cbn [startswith].
  destruct s as [|b s]; cbn [app hd] in *.
  - rewrite N.eqb_refl, andb_true_r in Ha. by rewrite (N.eqb_sym 45 a), Ha.
  - rewrite andb_true_r. by rewrite (N.eqb_sym 45 a), (N.eqb_sym 45 b).
Qed.

(** X2.  [filter_footer] is the specification's [filterFooter] on every
    text in which no line before the first footer line holds two dashes
    side by side. *)
Theorem filter_footer_refines text :
  Forall (fun line => has_sub (lit "--") line = false)
    (lines_before_footer (split [10] text)) ->
  filter_footer text = filter_footer_spec text.
Proof.
  intros Hpre. unfold filter_footer, filter_footer_spec.
  fold footer_candidate.
  destruct (length (List.filter footer_candidate (split [10%N] text)) =? 1)%nat eqn:Hone;
    [|done].
  cbn [negb].
  destruct (lines_before_footer_split (split [10] text))
    as (footer & rest & Hlines & Hfooter).
  { intros Hnil. by rewrite Hnil in Hone. }
  destruct (footer_candidate_shape _ Hfooter) as (ws & tail & -> & Hws).
  set (pre := lines_before_footer (split [10] text)) in *.
  rewrite <- (join_split_char 10 text) at 1. rewrite Hlines, join_app_cons.
  assert (Htail : exists t, join [10] ((ws ++ 45 :: 45 :: tail) :: rest)
                            = ws ++ 45 :: 45 :: t).
  { destruct rest as [|r rest]; [by eexists|].
    rewrite join_cons_cons, <- app_assoc. cbn [app]. by eexists. }
  destruct Htail as [t ->]. rewrite app_assoc.
  rewrite partition_head_dashless
    by (apply dashless_app; [by apply dashless_lines|by apply dashless_space]).
  rewrite join_lines_before. destruct pre as [|p pre'].
  - cbn [app join]. by rewrite strip_all_space.
  - rewrite <- app_assoc. change ([10] ++ ws) with (10 :: ws).
    apply strip_app_space. by constructor.
Qed.

End Footer.

Lemma filter_footer_refines_witness :
  filter_footer Scenario.hello_footer = filter_footer_spec Scenario.hello_footer.
Proof.
  apply filter_footer_refines. vm_compute. repeat constructor.
Defined.

(** C5: with one footer line and two dashes inside an earlier line, the
    text is cut at the dashes inside the line. *)
Theorem filter_footer_cuts_inside_line :
  List.filter footer_candidate (split [10%N] Scenario.dashes_inside) = [lit "--"]
  /\ filter_footer Scenario.dashes_inside = lit "a"
  /\ filter_footer_spec Scenario.dashes_inside = lit "a--b".
Proof. split_and!; vm_compute; reflexivity. Qed.

(** The sixth scenario of the specification. *)
Example filter_footer_hello : filter_footer Scenario.hello_footer = lit "Hello".
Proof. vm_compute. reflexivity. Qed.

Example filter_footer_two_lines :
  let text := lit "Hello" ++ [10%N] ++ lit "--" ++ [10%N] ++ lit "one"
              ++ [10%N] ++ lit "-- " ++ [10%N] ++ lit "two" in
  filter_footer text = text.
Proof. vm_compute. reflexivity. Qed.

Section ContentExtraction.
Variable settings : Settings.
Variable bytes_decode : str -> bytes -> result str.
Variable extract_from_plain extract_from_html convert_html_to_markdown : str -> str.
Variable get_system_bot : str -> result UserProfile.
Variable upload_message_image :
  str -> nat -> str -> bytes -> UserProfile -> Realm -> str.

Abbreviation part_by_type := (part_by_type_from bytes_decode).
Abbreviation body_of :=
  (extract_body bytes_decode extract_from_plain extract_from_html
     convert_html_to_markdown).
Abbreviation attachments_of :=
  (extract_and_upload_attachments settings get_system_bot upload_message_image).
Abbreviation assemble :=
  (construct_zulip_body settings bytes_decode extract_from_plain extract_from_html
     convert_html_to_markdown get_system_bot upload_message_image).

Lemma part_by_type_from_found (all : list Message) wanted pre p rest cs content text :
  Forall (skipped wanted) pre ->
  content_type (part_info p) = wanted ->
  get_payload_decoded p = Some content ->
  content_charset (part_info p) = Some cs -> cs ≠ [] ->
  bytes_decode cs content = Ok text ->
  forall idx, drop idx all = pre ++ p :: rest ->
  part_by_type (List.map (fun part => content_charset (part_info part)) all)
    wanted idx (pre ++ p :: rest) = Ok (Some text).
Proof.
  intros Hpre Hty Hpay Hcs Hne Hdec.
  induction Hpre as [|q pre Hq Hpre IH]; intros idx Hdrop.
  - cbn [app part_by_type_from]. rewrite bool_decide_eq_true_2 by done.
    rewrite Hpay.
    assert (Hl : all !! idx = Some p).
    { rewrite <- (Nat.add_0_r idx), <- lookup_drop, Hdrop. done. }
    change (List.map ?f all) with (f <$> all).
    rewrite list_lookup_fmap, Hl. cbn. rewrite Hcs.
    destruct cs; [done|]. cbn. by rewrite Hdec.
  - cbn [app part_by_type_from].
    assert (Hl : all !! idx = Some q).
    { rewrite <- (Nat.add_0_r idx), <- lookup_drop, Hdrop. done. }
    assert (Hnext : drop (S idx) all = pre ++ p :: rest).
    { replace (S idx) with (idx + 1)%nat by lia.
      rewrite <- (drop_drop all 1 idx), Hdrop. done. }
    destruct Hq as [Hq|[[c Hc] Hq]].
    + rewrite bool_decide_eq_false_2 by done. by apply IH.
    + case_bool_decide; [|by apply IH].
      rewrite Hc. change (List.map ?f all) with (f <$> all).
      rewrite list_lookup_fmap, Hl. cbn. rewrite Hq. by apply IH.
Qed.

Lemma get_message_part_by_type_found message wanted pre p rest cs content text :
  walk message = pre ++ p :: rest ->
  Forall (skipped wanted) pre ->
  content_type (part_info p) = wanted ->
  get_payload_decoded p = Some content ->
  content_charset (part_info p) = Some cs -> cs ≠ [] ->
  bytes_decode cs content = Ok text ->
  get_message_part_by_type bytes_decode message wanted = Ok (Some text).
Proof.
  intros Hwalk Hpre Hty Hpay Hcs Hne Hdec.
  unfold get_message_part_by_type, get_charsets. rewrite Hwalk at 2.
  eapply part_by_type_from_found; eauto.
Qed.

(** X22.  When the first plaintext part that declares a charset
    decodes to a text that is not empty, the body is that text with its
    quotations stripped, whatever HTML parts the email has. *)
Theorem extract_body_prefers_plaintext message pre p rest cs content text :
  walk message = pre ++ p :: rest ->
  Forall (skipped TEXT_PLAIN) pre ->
  content_type (part_info p) = TEXT_PLAIN ->
  get_payload_decoded p = Some content ->
  content_charset (part_info p) = Some cs -> cs ≠ [] ->
  bytes_decode cs content = Ok text -> text ≠ [] ->
  body_of message = Ok (extract_from_plain text).
Proof.
  intros Hwalk Hpre Hty Hpay Hcs Hne Hdec Htext.
  unfold extract_body. fold TEXT_PLAIN.
  rewrite (get_message_part_by_type_found _ _ _ _ _ _ _ _ Hwalk Hpre Hty Hpay Hcs Hne Hdec).
  destruct text; [done|]. reflexivity.
Qed.

(** C9.  The body that [construct_zulip_body] returns is never empty:
    when a body is extracted and the attachments are uploaded, the result
    is the trimmed text, and the placeholder when that is empty. *)
Theorem construct_zulip_body_never_empty message realm w :
  (forall body w', assemble message realm w = (Ok body, w') -> body ≠ [])
  /\ (forall body0 links w',
        body_of message = Ok body0 ->
        attachments_of message realm w = (Ok links, w') ->
        let text := strip (filter_footer (replace [0%N] [] body0) ++ links) in
        assemble message realm w =
          (Ok (if bool_decide (text = []) then PLACEHOLDER else text), w')).
Proof.
  unfold construct_zulip_body, mbind, M_bind, lift, mret, M_ret. split.
  - intros body w'.
    destruct (body_of message) as [body0|e]; [|done].
    destruct (attachments_of message realm w) as [[links|e] w1]; [|done].
    destruct (strip _) as [|c text] eqn:E; intros [= <- _]; done.
  - intros body0 links w' -> ->. cbn zeta.
    destruct (strip _) as [|c text]; done.
Qed.

End ContentExtraction.

Lemma construct_zulip_body_never_empty_witness :
  (Scenario.construct_zulip_body Scenario.blank_part Scenario.realm
     Scenario.empty_world).1 = Ok PLACEHOLDER.
Proof.
  pose proof (proj2 (construct_zulip_body_never_empty Scenario.settings
    Scenario.bytes_decode Scenario.identity Scenario.identity Scenario.identity
    Scenario.get_system_bot (fun _ _ _ _ _ _ => lit "/user_uploads/1")
    Scenario.blank_part Scenario.realm Scenario.empty_world)
    (lit "  ") [] Scenario.empty_world eq_refl eq_refl) as H.
  unfold Scenario.construct_zulip_body. rewrite H. reflexivity.
Defined.

Lemma extract_body_prefers_plaintext_witness :
  Scenario.extract_body
    (Scenario.alternative [Scenario.html_part; Scenario.plain_part])
  = Ok (lit "Hello").
Proof.
  apply (extract_body_prefers_plaintext Scenario.bytes_decode Scenario.identity
           Scenario.identity Scenario.identity _
           [Scenario.alternative [Scenario.html_part; Scenario.plain_part];
            Scenario.html_part]
           Scenario.plain_part [] (lit "utf-8") (Scenario.to_bytes "Hello")).
  - reflexivity.
  - constructor; [left; vm_compute; discriminate|].
    constructor; [left; vm_compute; discriminate|]. constructor.
  - reflexivity.
  - reflexivity.
  - reflexivity.
  - vm_compute; discriminate.
  - reflexivity.
  - vm_compute; discriminate.
Defined.

(** ** Routing *)

Section Routing.
Variable U : UnicodeDB.
Variable settings : Settings.
Variable bytes_decode : str -> bytes -> result str.
Variable extract_from_plain extract_from_html convert_html_to_markdown : str -> str.
Variable streams : list Stream.
Variable get_system_bot : str -> result UserProfile.
Variable get_user_profile_by_id : rval -> result UserProfile.
Variable get_recipient : rval -> result Recipient.
Variable get_display_recipient : Recipient -> DisplayRecipient.
Variable get_user : str -> Realm -> result UserProfile.
Variable decode_stored_subject : rval -> result str.
Variable upload_message_image :
  str -> nat -> str -> bytes -> UserProfile -> Realm -> str.
Variable re_search_group : str -> str -> option str.
Variable decode_subject : str -> result str.

Abbreviation dispatch :=
  (process_message U settings bytes_decode extract_from_plain extract_from_html
     convert_html_to_markdown streams get_system_bot get_user_profile_by_id
     get_recipient get_display_recipient get_user decode_stored_subject
     upload_message_image re_search_group decode_subject).
Abbreviation stream_flow :=
  (process_stream_message U settings bytes_decode extract_from_plain
     extract_from_html convert_html_to_markdown streams get_system_bot
     upload_message_image).
Abbreviation report :=
  (log_and_report settings streams get_system_bot re_search_group).
Abbreviation subject_header message :=
  (default (lit "(no subject)") (get_header message (lit "Subject"))).
Abbreviation find_recipient := (find_emailgateway_recipient settings).

(** The recipient that [process_message] dispatches on. *)
Lemma process_message_resolved message rcpt_to pre_checked subject to w :
  decode_subject (subject_header message) = Ok subject ->
  resolve_recipient settings message rcpt_to = Ok to ->
  dispatch message rcpt_to pre_checked w =
    try_except_forward
      (missed ← lift (is_missed_message_address settings to);
       if is_true missed
       then process_missed_message settings bytes_decode extract_from_plain
              extract_from_html convert_html_to_markdown get_system_bot
              get_user_profile_by_id get_recipient get_display_recipient get_user
              decode_stored_subject upload_message_image to message pre_checked
       else stream_flow to subject message)
      (report message) (dispatch_start to w).
Proof.
  intros Hsubject Hto.
  unfold process_message, mbind at 1 2, M_bind at 1 2, lift at 1. rewrite Hsubject.
  cbn [modify]. unfold try_except_forward, mbind at 1 2, M_bind at 1 2.
  destruct rcpt_to as [rcpt_to|]; cbn [resolve_recipient] in Hto.
  - injection Hto as ->. reflexivity.
  - unfold lift at 1. rewrite Hto. reflexivity.
Qed.

(** X23.  On an address that the template does not match,
    [is_missed_message_address] returns [None], and [process_message]
    runs the stream flow for that address; with a placeholder in the
    template it raises on no address. *)
Theorem is_missed_message_address_unmatched :
  (forall address,
      gateway_match settings address = None ->
      is_missed_message_address settings address = Ok None
      /\ forall message rcpt_to pre_checked subject w,
           decode_subject (subject_header message) = Ok subject ->
           resolve_recipient settings message rcpt_to = Ok address ->
           dispatch message rcpt_to pre_checked w =
             try_except_forward (stream_flow address subject message)
               (report message) (dispatch_start address w))
  /\ ((2 <= length (pattern_parts settings))%nat ->
      forall address, exists b, is_missed_message_address settings address = Ok b).
Proof.
  split.
  - intros address Hno.
    assert (Hmissed : is_missed_message_address settings address = Ok None).
    { unfold is_missed_message_address, get_email_gateway_message_string_from_address.
      by rewrite Hno. }
    split; [done|]. intros message rcpt_to pre_checked subject w Hsubject Hto.
    rewrite (process_message_resolved _ _ _ _ _ _ Hsubject Hto).
    unfold try_except_forward, mbind at 1, M_bind at 1, lift at 1.
    rewrite Hmissed. reflexivity.
  - intros Hparts address.
    pose proof (message_string_cases settings address Hparts) as H.
    unfold is_missed_message_address.
    destruct (gateway_match settings address).
    + destruct H as [segment ->]. by eexists.
    + rewrite H. by eexists.
Qed.

(** C2.  An error of a class other than [ZulipEmailForwardError] passes
    through [process_message]: the unrecognized-address error of the
    stream flow on a recipient that the template does not match, and the
    [ValueError] of [decode_email_address] on a local part without a
    separator. *)
Theorem process_message_lets_errors_escape message rcpt_to pre_checked subject to w :
  decode_subject (subject_header message) = Ok subject ->
  resolve_recipient settings message rcpt_to = Ok to ->
  (get_email_gateway_message_string_from_address settings to = Raise NO_MATCH ->
   dispatch message rcpt_to pre_checked w = (Raise NO_MATCH, dispatch_start to w))
  /\ (forall segment,
        get_email_gateway_message_string_from_address settings to = Ok segment ->
        is_mm_32_format (Some segment) = false ->
        has_char 46 segment = false -> has_char 43 segment = false ->
        dispatch message rcpt_to pre_checked w = (Raise ValueError, dispatch_start to w)).
Proof.
  intros Hsubject Hto.
  rewrite (process_message_resolved _ _ _ _ _ _ Hsubject Hto).
  unfold try_except_forward, mbind at 1, M_bind at 1, lift at 1,
    is_missed_message_address.
  split.
  - intros Hno. rewrite Hno. cbn [is_true default from_option id].
    unfold process_stream_message, mbind, M_bind, lift, extract_and_validate,
      decode_email_address.
    rewrite Hno. reflexivity.
  - intros segment Hseg Hmm Hdot Hplus.
    rewrite Hseg, Hmm. cbn [is_true default from_option id].
    unfold process_stream_message, mbind, M_bind, lift, extract_and_validate,
      decode_email_address.
    rewrite Hseg, Hdot. change (lit "+") with [43%N].
    rewrite split_char_absent by done. reflexivity.
Qed.

Lemma get_all_nonempty message name values :
  get_all message name = Some values -> values ≠ [].
Proof.
  unfold get_all. destruct (List.filter _ _); [done|]. by intros [= <-].
Qed.

(** C6, amended.  The recipients are the values of the first of the
    three headers that is present; the result is the first of these
    values that matches the pattern, and the error "Missing recipient in
    mirror email" when none of them does or no header is present. *)
Theorem find_emailgateway_recipient_selected message :
  (forall i name values,
      recipient_headers !! i = Some name ->
      (forall j name', (j < i)%nat -> recipient_headers !! j = Some name' ->
                       get_all message name' = None) ->
      get_all message name = Some values ->
      find_recipient message =
        match List.find (match_email_re settings) values with
        | Some recipient_email => Ok recipient_email
        | None => Raise MISSING_RECIPIENT
        end)
  /\ ((forall name, name ∈ recipient_headers -> get_all message name = None) ->
      find_recipient message = Raise MISSING_RECIPIENT).
Proof.
  unfold find_emailgateway_recipient, recipient_headers. split.
  - intros i name values Hi Hbefore Hvalues.
    pose proof (get_all_nonempty _ _ _ Hvalues) as Hne.
    destruct values as [|v values]; [done|].
    destruct i as [|[|[|i]]]; cbn in Hi; simplify_eq; cbn [first_recipients].
    + by rewrite Hvalues.
    + rewrite (Hbefore 0%nat (lit "X-Gm-Original-To")) by (done || lia).
      by rewrite Hvalues.
    + rewrite (Hbefore 0%nat (lit "X-Gm-Original-To")) by (done || lia).
      rewrite (Hbefore 1%nat (lit "Delivered-To")) by (done || lia).
      by rewrite Hvalues.
  - intros Hnone. cbn [first_recipients].
    rewrite !Hnone by (repeat constructor). done.
Qed.

End Routing.

Lemma find_emailgateway_recipient_selected_witness :
  find_emailgateway_recipient Scenario.settings
    Scenario.delivered
  = Ok (lit "general+abc123@example.com").
Proof.
  apply (proj1 (find_emailgateway_recipient_selected Scenario.settings _) 1%nat
           (lit "Delivered-To")
           [lit "postmaster@example.org"; lit "general+abc123@example.com"]).
  - reflexivity.
  - intros [|j] name' Hj Hname; [|lia]. vm_compute in Hname.
    injection Hname as <-. vm_compute. reflexivity.
  - vm_compute. reflexivity.
Defined.

(** C6: a header of higher priority without a matching value hides the
    matching value of the header [To]. *)
Lemma find_emailgateway_recipient_ignores_lower_header :
  get_all Scenario.forwarded (lit "To") = Some [lit "general+abc123@example.com"]
  /\ match_email_re Scenario.settings (lit "general+abc123@example.com") = true
  /\ find_emailgateway_recipient Scenario.settings Scenario.forwarded
     = Raise MISSING_RECIPIENT.
Proof. split_and!; vm_compute; reflexivity. Qed.

Lemma is_missed_message_address_unmatched_witness :
  is_missed_message_address Scenario.settings (lit "general+abc123@elsewhere.org")
    = Ok None
  /\ exists b, is_missed_message_address Scenario.settings Scenario.mm_address = Ok b.
Proof.
  pose proof (is_missed_message_address_unmatched
    Scenario.unicode Scenario.settings Scenario.bytes_decode Scenario.identity
    Scenario.identity Scenario.identity Scenario.streams Scenario.get_system_bot
    Scenario.no_user (fun _ => Raise DoesNotExist)
    (fun _ => DisplayUsers []) (fun _ _ => Raise DoesNotExist)
    (fun _ => Raise ValueError) (fun _ _ _ _ _ _ => lit "/user_uploads/1")
    Scenario.re_search_group Scenario.decode_subject) as [Hunmatched Htotal].
  split.
  - apply Hunmatched. vm_compute. reflexivity.
  - apply Htotal. vm_compute. lia.
Defined.

Lemma process_message_lets_errors_escape_witness :
  Scenario.process_message Scenario.forwarded
    (Some (lit "general+abc123@elsewhere.org")) false Scenario.empty_world
  = (Raise NO_MATCH,
     dispatch_start (lit "general+abc123@elsewhere.org") Scenario.empty_world)
  /\ Scenario.process_message Scenario.forwarded
       (Some (lit "general@example.com")) false Scenario.empty_world
     = (Raise ValueError, dispatch_start (lit "general@example.com") Scenario.empty_world).
Proof.
  split.
  - apply (process_message_lets_errors_escape
      Scenario.unicode Scenario.settings Scenario.bytes_decode Scenario.identity
      Scenario.identity Scenario.identity Scenario.streams Scenario.get_system_bot
      Scenario.no_user (fun _ => Raise DoesNotExist)
      (fun _ => DisplayUsers []) (fun _ _ => Raise DoesNotExist)
      (fun _ => Raise ValueError) (fun _ _ _ _ _ _ => lit "/user_uploads/1")
      Scenario.re_search_group Scenario.decode_subject
      Scenario.forwarded (Some (lit "general+abc123@elsewhere.org")) false
      (lit "(no subject)") (lit "general+abc123@elsewhere.org") Scenario.empty_world
      eq_refl eq_refl).
    vm_compute. reflexivity.
  - apply (proj2 (process_message_lets_errors_escape
      Scenario.unicode Scenario.settings Scenario.bytes_decode Scenario.identity
      Scenario.identity Scenario.identity Scenario.streams Scenario.get_system_bot
      Scenario.no_user (fun _ => Raise DoesNotExist)
      (fun _ => DisplayUsers []) (fun _ _ => Raise DoesNotExist)
      (fun _ => Raise ValueError) (fun _ _ _ _ _ _ => lit "/user_uploads/1")
      Scenario.re_search_group Scenario.decode_subject
      Scenario.forwarded (Some (lit "general@example.com")) false
      (lit "(no subject)") (lit "general@example.com") Scenario.empty_world
      eq_refl eq_refl) (lit "general")); vm_compute; reflexivity.
Defined.

(** ** The two phases *)

Section Frames.

Lemma keeps_redis_ret {A} (a : A) : keeps_redis (mret a).
Proof. done. Qed.

Lemma keeps_redis_lift {A} (r : result A) : keeps_redis (lift r).
Proof. done. Qed.

Lemma keeps_redis_raise {A} e : keeps_redis (@raise A e).
Proof. done. Qed.

Lemma keeps_redis_get_world : keeps_redis get_world.
Proof. done. Qed.

Lemma keeps_redis_modify f :
  (forall w, redis (f w) = redis w) -> keeps_redis (modify f).
Proof. intros H w. apply H. Qed.

Lemma keeps_redis_bind {A B} (c : M A) (k : A -> M B) :
  keeps_redis c -> (forall a, keeps_redis (k a)) -> keeps_redis (c ≫= k).
Proof.
  intros Hc Hk w. unfold mbind, M_bind. specialize (Hc w).
  destruct (c w) as [[a|e] w1]; cbn in *; [|done].
  by rewrite Hk.
Qed.

Lemma set_redis_same w : set_redis (redis w) w = w.
Proof. by destruct w. Qed.

Lemma only_redis_pure {A} (c : M A) :
  (forall w, (c w).2 = w) -> only_redis c.
Proof. intros H w. by rewrite H, set_redis_same. Qed.

Lemma only_redis_bind {A B} (c : M A) (k : A -> M B) :
  only_redis c -> (forall a, only_redis (k a)) -> only_redis (c ≫= k).
Proof.
  intros Hc Hk w. unfold mbind, M_bind. specialize (Hc w).
  destruct (c w) as [[a|e] w1]; cbn in *; [|done].
  rewrite Hk, Hc. reflexivity.
Qed.

End Frames.

Create HintDb frame.
#[export] Hint Resolve keeps_redis_ret keeps_redis_lift keeps_redis_raise
  keeps_redis_get_world : frame.

Ltac frame_step :=
  first [ solve [auto with frame]
        | apply keeps_redis_modify; intros ?; reflexivity
        | apply keeps_redis_bind; [|intros ?] ].

Section TwoPhase.
Variable U : UnicodeDB.
Variable settings : Settings.
Variable bytes_decode : str -> bytes -> result str.
Variable extract_from_plain extract_from_html convert_html_to_markdown : str -> str.
Variable streams : list Stream.
Variable get_system_bot : str -> result UserProfile.
Variable get_user_profile_by_id : rval -> result UserProfile.
Variable get_recipient : rval -> result Recipient.
Variable get_display_recipient : Recipient -> DisplayRecipient.
Variable get_user : str -> Realm -> result UserProfile.
Variable decode_stored_subject : rval -> result str.
Variable upload_message_image :
  str -> nat -> str -> bytes -> UserProfile -> Realm -> str.

Abbreviation consume := (mark_missed_message_address_as_used settings).
Abbreviation mirror := (mirror_email_message U settings streams).
Abbreviation missed_flow :=
  (process_missed_message settings bytes_decode extract_from_plain extract_from_html
     convert_html_to_markdown get_system_bot get_user_profile_by_id get_recipient
     get_display_recipient get_user decode_stored_subject upload_message_image).

Lemma upload_attachments_keeps_redis message user realm payload :
  forall links,
    keeps_redis (upload_attachments upload_message_image message user realm
                   payload links).
Proof.
  induction payload as [|part payload IH]; intros links; cbn [upload_attachments].
  - auto with frame.
  - destruct (if truthy _ then _ else _); [|apply IH].
    destruct (get_payload_decoded part); repeat frame_step; apply IH.
Qed.
Local Hint Resolve upload_attachments_keeps_redis : frame.

Lemma construct_zulip_body_keeps_redis message realm :
  keeps_redis (construct_zulip_body settings bytes_decode extract_from_plain
                 extract_from_html convert_html_to_markdown get_system_bot
                 upload_message_image message realm).
Proof.
  unfold construct_zulip_body, extract_and_upload_attachments.
  repeat frame_step.
  - destruct message; repeat frame_step.
  - destruct (strip _); auto with frame.
Qed.
Local Hint Resolve construct_zulip_body_keeps_redis : frame.

Lemma send_to_missed_message_address_keeps_redis address message :
  keeps_redis (send_to_missed_message_address settings bytes_decode
                 extract_from_plain extract_from_html convert_html_to_markdown
                 get_system_bot get_user_profile_by_id get_recipient
                 get_display_recipient get_user decode_stored_subject
                 upload_message_image address message).
Proof.
  unfold send_to_missed_message_address.
  repeat frame_step.
  destruct (RedisClient.hmget _ _ _) as [|[?|] [|[?|] [|[?|] [|? ?]]]];
    try solve [auto with frame].
  repeat frame_step.
  repeat case_bool_decide; try solve [auto with frame];
      destruct (get_display_recipient _) as [?|[|? ?]]; repeat frame_step.
Qed.

Lemma consume_only_redis address : only_redis (consume address).
Proof.
  unfold mark_missed_message_address_as_used.
  apply only_redis_bind; [by apply only_redis_pure|]. intros token.
  apply only_redis_bind.
  - intros w. unfold decrement_uses_left.
    destruct (RedisClient.hincrby _ _ _ _) as [[v|] r1]; reflexivity.
  - intros v. destruct (v <? 0)%Z; [|by apply only_redis_pure].
    intros w. reflexivity.
Qed.

(** The run of [mirror_email_message], by the class of the address. *)
Lemma mirror_email_message_run data w :
  let rcpt_to := recipient data in
  mirror data w =
    match is_missed_message_address settings rcpt_to with
    | Raise e => (Raise e, w)
    | Ok missed =>
        if is_true missed then
          match consume rcpt_to w with
          | (Ok _, w1) => (Ok SUCCESS, queued data w1)
          | (Raise (ZulipEmailForwardError _), w1) =>
              (Ok [(lit "status", lit "error");
                   (lit "msg", lit "5.1.1 Bad destination mailbox address: "
                               ++ lit "Bad or expired missed message address.")], w1)
          | (Raise e, w1) => (Raise e, w1)
          end
        else
          match extract_and_validate U settings streams rcpt_to with
          | Ok _ => (Ok SUCCESS, queued data w)
          | Raise (ZulipEmailForwardError _) =>
              (Ok [(lit "status", lit "error");
                   (lit "msg", lit "5.1.1 Bad destination mailbox address: "
                               ++ lit "Please use the address specified in your Streams page.")], w)
          | Raise e => (Raise e, w)
          end
    end.
Proof.
  intros rcpt_to.
  unfold mirror_email_message, mbind, M_bind, lift, try_except_forward, mret, M_ret.
  fold rcpt_to.
  destruct (is_missed_message_address settings rcpt_to) as [missed|e]; [|done].
  destruct (is_true missed).
  - destruct (consume rcpt_to w) as [[[]|e] w1]; [done|]. by destruct e.
  - destruct (extract_and_validate U settings streams rcpt_to) as [stream|e]; [done|].
    by destruct e.
Qed.

(** An address with a token is a missed-message address. *)
Lemma token_read_missed to token :
  get_missed_message_token_from_address settings to = Ok token ->
  is_missed_message_address settings to = Ok (Some true).
Proof.
  unfold get_missed_message_token_from_address, is_missed_message_address.
  destruct (get_email_gateway_message_string_from_address settings to) as [s|[]];
    try done.
  by destruct (is_mm_32_format (Some s)).
Qed.

(** C3, amended.  [mirror_email_message] sends, logs and uploads
    nothing, and adds the email to the queue exactly when it answers
    "success".  On an address that is not a missed-message address it
    leaves the store as it was and answers by [extract_and_validate]
    alone: "success" when that returns a stream, "Please use the address
    specified in your Streams page" when it raises a
    [ZulipEmailForwardError].  On a missed-message address it consumes the
    token: the store after it is the store after
    [mark_missed_message_address_as_used]; with a positive counter it
    answers "success" and leaves the counter one lower, and with a spent
    counter it answers "Bad or expired missed message address", queues
    nothing and deletes the record.  Errors of other classes leave it.
    [process_missed_message], told that the address was checked before,
    leaves the store as it was. *)
Theorem mirror_email_message_effects data w :
  let rcpt_to := recipient data in
  let after := (mirror data w).2 in
  (outbox after = outbox w /\ log after = log w /\ uploads after = uploads w
   /\ debug_info after = debug_info w)
  /\ (is_missed_message_address settings rcpt_to = Ok (Some true) ->
      redis after = redis (consume rcpt_to w).2)
  /\ (is_missed_message_address settings rcpt_to ≠ Ok (Some true) ->
      redis after = redis w)
  /\ (((mirror data w).1 = Ok SUCCESS /\ queue after = queue (queued data w))
      \/ ((mirror data w).1 ≠ Ok SUCCESS /\ queue after = queue w))
  /\ (forall message w', redis (missed_flow rcpt_to message true w').2 = redis w')
  /\ (forall missed,
        is_missed_message_address settings rcpt_to = Ok missed ->
        (mirror data w).1 =
          match (if is_true missed then (consume rcpt_to w).1
                 else result_map (fun _ => tt)
                        (extract_and_validate U settings streams rcpt_to)) with
          | Ok _ => Ok SUCCESS
          | Raise (ZulipEmailForwardError _) =>
              Ok (if is_true missed then BAD_MISSED_ADDRESS else BAD_STREAM_ADDRESS)
          | Raise e => Raise e
          end)
  /\ (forall e,
        is_missed_message_address settings rcpt_to = Raise e ->
        mirror data w = (Raise e, w))
  /\ (forall token,
        get_missed_message_token_from_address settings rcpt_to = Ok token ->
        let key := missed_message_redis_key token in
        (forall v, uses_left_of key w = Some (RInt v) -> (0 < v <= 2 ^ 63)%Z ->
                   (mirror data w).1 = Ok SUCCESS
                   /\ uses_left_of key after = Some (RInt (v - 1))
                   /\ queue after = queue (queued data w))
        /\ ((uses_left_of key w = None
             \/ exists v, uses_left_of key w = Some (RInt v) /\ (- 2 ^ 63 < v <= 0)%Z) ->
            (mirror data w).1 = Ok BAD_MISSED_ADDRESS
            /\ hashes (redis after) !! key = None
            /\ queue after = queue w)).
Proof.
  intros rcpt_to after.
  assert (Hlast : forall message w',
             redis (missed_flow rcpt_to message true w').2 = redis w').
  { intros message. unfold process_missed_message. cbn [negb].
    apply keeps_redis_bind; [auto with frame|]. intros _.
    apply send_to_missed_message_address_keeps_redis. }
  assert (Htokens : forall token,
    get_missed_message_token_from_address settings rcpt_to = Ok token ->
    let key := missed_message_redis_key token in
    (forall v, uses_left_of key w = Some (RInt v) -> (0 < v <= 2 ^ 63)%Z ->
               (mirror data w).1 = Ok SUCCESS
               /\ uses_left_of key after = Some (RInt (v - 1))
               /\ queue after = queue (queued data w))
    /\ ((uses_left_of key w = None
         \/ exists v, uses_left_of key w = Some (RInt v) /\ (- 2 ^ 63 < v <= 0)%Z) ->
        (mirror data w).1 = Ok BAD_MISSED_ADDRESS
        /\ hashes (redis after) !! key = None
        /\ queue after = queue w)).
  { intros token Htoken key. subst after. rewrite mirror_email_message_run.
    fold rcpt_to.
    rewrite (token_read_missed _ _ Htoken). cbn [is_true default from_option id].
    pose proof (consume_only_redis rcpt_to w) as Hframe. split.
    - intros v Hv Hrange.
      destruct (consume_available settings rcpt_to token w v Htoken Hv Hrange)
        as [Hok Hcount].
      destruct (consume rcpt_to w) as [[[]|e] w1]; cbn [fst snd] in *; [|done].
      split_and!; [done|done|]. rewrite Hframe. reflexivity.
    - intros Hspent.
      destruct (consume_exhausted settings rcpt_to token w Htoken Hspent)
        as [Hraise Hgone].
      destruct (consume rcpt_to w) as [[[]|e] w1]; cbn [fst snd] in *; [done|].
      injection Hraise as ->. unfold ALREADY_USED. cbn [fst snd].
      split_and!; [done|done|]. by rewrite Hframe. }
  revert Hlast Htokens. generalize (forall message w',
             redis (missed_flow rcpt_to message true w').2 = redis w').
  match goal with |- forall Q, Q -> ?T -> _ => generalize T end.
  intros T Q HQ HT. subst after. rewrite mirror_email_message_run. fold rcpt_to.
  destruct (is_missed_message_address settings rcpt_to) as [[[|]|]|e] eqn:Hmissed;
    cbn [is_true default from_option id].
  - (* a missed-message address *)
    pose proof (consume_only_redis rcpt_to w) as Hframe.
    destruct (consume rcpt_to w) as [[[]|e] w1] eqn:Hmark; cbn [snd] in Hframe.
    + rewrite Hframe. cbn. split_and!; try done; try (by left);
        by intros missed [= <-].
    + rewrite Hframe.
      destruct e; cbn; split_and!; try done; try (by right);
        by intros missed [= <-].
  - destruct (extract_and_validate U settings streams rcpt_to) as [stream|e];
      [|destruct e]; cbn; split_and!; try done; try ((by left) || (by right));
      by intros missed [= <-].
  - destruct (extract_and_validate U settings streams rcpt_to) as [stream|e];
      [|destruct e]; cbn; split_and!; try done; try ((by left) || (by right));
      by intros missed [= <-].
  - cbn. split_and!; try done; try (by right). by intros e0 [= <-].
Qed.

End TwoPhase.

(** C3: on the address of a fresh missed-message token the validation
    answers "success" and has decremented the counter of the token. *)
Lemma mirror_email_message_consumes_token :
  uses_left_of Scenario.mm_key Scenario.fresh_world = Some (RInt 1)
  /\ (Scenario.mirror_email_message Scenario.missed_reply
        Scenario.fresh_world).1 = Ok SUCCESS
  /\ uses_left_of Scenario.mm_key
       (Scenario.mirror_email_message Scenario.missed_reply
          Scenario.fresh_world).2 = Some (RInt 0).
Proof. split_and!; vm_compute; reflexivity. Qed.

(** C10.  With a template that holds no placeholder, as the empty
    template of a disabled gateway, and without an extra acceptance
    pattern, [is_missed_message_address] raises [IndexError] on every
    address that starts with the template: the expression matches and has
    no group.  The error leaves [mirror_email_message] as well. *)
Theorem is_missed_message_address_raises U settings streams address :
  has_char 37 (EMAIL_GATEWAY_PATTERN settings) = false ->
  EMAIL_GATEWAY_EXTRA_PATTERN_HACK settings = None ->
  startswith (EMAIL_GATEWAY_PATTERN settings) address = true ->
  is_missed_message_address settings address = Raise IndexError
  /\ forall text w,
       mirror_email_message U settings streams
         {| recipient := address; msg_text := text |} w
       = (Raise IndexError, w).
Proof.
  intros Hpattern Hhack Hstarts.
  assert (Hmissed : is_missed_message_address settings address = Raise IndexError).
  { unfold is_missed_message_address, get_email_gateway_message_string_from_address,
      gateway_match, gateway_last_part, pattern_parts, split.
    change (lit "%s") with [37%N; 115%N].
    rewrite Hhack, split_placeholder_absent by done.
    cbn [removelast List.last re_match]. by rewrite Hstarts. }
  split; [done|]. intros text w.
  rewrite mirror_email_message_run. cbn [recipient]. by rewrite Hmissed.
Qed.

Lemma is_missed_message_address_raises_witness :
  let disabled := {| EMAIL_GATEWAY_PATTERN := [];
                     EMAIL_GATEWAY_EXTRA_PATTERN_HACK := None;
                     EMAIL_GATEWAY_BOT := lit "emailgateway@zulip.com";
                     ERROR_BOT := None |} in
  is_missed_message_address disabled Scenario.mm_address = Raise IndexError
  /\ forall text w,
       mirror_email_message Scenario.unicode disabled Scenario.streams
         {| recipient := Scenario.mm_address; msg_text := text |} w
       = (Raise IndexError, w).
Proof.
  intros disabled.
  apply (is_missed_message_address_raises Scenario.unicode disabled Scenario.streams
           Scenario.mm_address); reflexivity.
Defined.

(** ** More on the address codec *)

Section Codec.
Local Open Scope N_scope.
Variable U : UnicodeDB.
Variable settings : Settings.

Lemma digits_from_digits fuel : forall n acc,
  Forall ascii_digit acc -> Forall ascii_digit (digits_from fuel n acc).
Proof.
  induction fuel as [|fuel IH]; intros n acc Hacc; [done|].
  cbn [digits_from].
  assert (Forall ascii_digit ((48 + n mod 10) :: acc)).
  { constructor; [|done]. pose proof (N.mod_lt n 10 ltac:(lia)) as Hd. revert Hd.
    unfold ascii_digit. generalize (n mod 10). intros d Hd. lia. }
  destruct (n / 10 =? 0); [done|]. by apply IH.
Qed.

Lemma escape_char_digits_only c :
  exists digits, escape_char c = 37 :: digits /\ Forall ascii_digit digits.
Proof.
  eexists. split; [reflexivity|]. unfold zfill. apply Forall_app. split.
  - apply Forall_forall. intros d Hd%list_elem_of_In%repeat_spec. subst d.
    unfold ascii_digit. lia.
  - apply digits_from_digits. constructor.
Qed.

Lemma ascii_digit_word c : ascii_digit c -> is_word U c = true.
Proof.
  unfold ascii_digit, is_word, ascii_isalnum. intros [H1 H2].
  rewrite (proj2 (N.ltb_lt c 128)) by lia.
  by rewrite (proj2 (N.leb_le 48 c)), (proj2 (N.leb_le c 57)).
Qed.

(** X4.  The escaped name of any stream holds only word characters and
    the "%" of the escapes: none of "@", "+", "." and the newline. *)
Theorem escape_name_safe name :
  Forall (fun c => is_word U c = true \/ c = 37) (escape_name U name)
  /\ Forall plain_char (escape_name U name).
Proof.
  assert (H : Forall (fun c => is_word U c = true \/ c = 37) (escape_name U name)).
  { unfold escape_name. induction name as [|c name IH]; [constructor|].
    cbn [flat_map]. apply Forall_app. split; [|done].
    destruct (is_word U c) eqn:Hw; [by repeat constructor|].
    destruct (escape_char_digits_only c) as (digits & -> & Hdigits).
    constructor; [by right|].
    eapply Forall_impl; [exact Hdigits|]. intros d Hd. left. by apply ascii_digit_word. }
  split; [done|]. eapply Forall_impl; [exact H|].
  intros c [Hc| ->]; [by apply is_word_plain in Hc as [Hc _]|].
  unfold plain_char. lia.
Qed.


Abbreviation decode := (decode_email_address U settings).

(** The decoding of an address made from the template, whose local part
    is a name part, one separator and a token. *)
Lemma decode_of_template prefix domain sep name_part token :
  EMAIL_GATEWAY_PATTERN settings = prefix ++ lit "%s" ++ 64 :: domain ->
  EMAIL_GATEWAY_EXTRA_PATTERN_HACK settings = None ->
  has_char 37 prefix = false -> has_char 37 domain = false ->
  sep = 43 \/ sep = 46 ->
  Forall plain_char name_part -> Forall plain_char token ->
  decode (prefix ++ (name_part ++ sep :: token) ++ 64 :: domain)
    = Ok (Some (unescape_name U name_part, token)).
Proof.
  intros Hpattern Hhack Hprefix Hdomain Hsep Hname Htoken.
  assert (Hbody : Forall (fun c => c ≠ 64 /\ c ≠ 10) (name_part ++ sep :: token)).
  { apply Forall_app. split; [by apply plain_not_end|].
    constructor; [lia|by apply plain_not_end]. }
  unfold decode_email_address.
  rewrite (message_string_of_template settings prefix domain) by done.
  change (lit "+") with [43]. change (lit ".") with [46].
  rewrite has_char_app, (plain_no_char 46 name_part) by auto.
  cbn [has_char existsb orb]. fold (has_char 46 token).
  rewrite (plain_no_char 46 token) by auto. rewrite orb_false_r.
  destruct Hsep as [-> | ->].
  - change (46 =? 43) with false. cbn [app].
    by rewrite split_char_once by (apply plain_no_char; auto).
  - rewrite N.eqb_refl. by rewrite split_char_once by (apply plain_no_char; auto).
Qed.

(** X5.  The address with "." in place of "+" decodes to the same name
    and token. *)
Theorem decode_dot_form prefix domain name token :
  EMAIL_GATEWAY_PATTERN settings = prefix ++ lit "%s" ++ 64 :: domain ->
  EMAIL_GATEWAY_EXTRA_PATTERN_HACK settings = None ->
  has_char 37 prefix = false -> has_char 37 domain = false ->
  escapable U name -> legal_token token = true ->
  decode (prefix ++ (escape_name U name ++ 46 :: token) ++ 64 :: domain)
    = Ok (Some (name, token))
  /\ decode (prefix ++ (escape_name U name ++ 46 :: token) ++ 64 :: domain)
     = decode (prefix ++ (escape_name U name ++ 43 :: token) ++ 64 :: domain).
Proof.
  intros Hpattern Hhack Hprefix Hdomain Hname Htoken.
  pose proof (escape_name_plain U _ Hname) as Hplain_name.
  pose proof (legal_token_plain _ Htoken) as Hplain_token.
  rewrite !(decode_of_template prefix domain) by auto.
  by rewrite unescape_escape_name.
Qed.

(** The local part of a stream address has not the shape of a
    missed-message string when the token has 32 characters. *)
Lemma stream_segment_not_mm name_part token :
  length token = 32%nat ->
  is_mm_32_format (Some (name_part ++ 43 :: token)) = false.
Proof.
  intros Htoken. unfold is_mm_32_format. change (lit "mm") with [109; 109].
  destruct name_part as [|a [|b name_part]].
  - cbn [app startswith]. by change (109 =? 43) with false.
  - cbn [app startswith]. change (109 =? 43) with false. cbn [andb].
    by rewrite andb_false_r.
  - apply andb_false_iff. right. apply Nat.eqb_neq.
    cbn [app length]. rewrite length_app. cbn [length]. lia.
Qed.

(** X6.  The address of a stream whose token has 32 characters is never
    taken for a missed-message address. *)
Theorem stream_address_not_missed prefix domain name token :
  EMAIL_GATEWAY_PATTERN settings = prefix ++ lit "%s" ++ 64 :: domain ->
  EMAIL_GATEWAY_EXTRA_PATTERN_HACK settings = None ->
  has_char 37 prefix = false -> has_char 37 domain = false ->
  legal_token token = true -> length token = 32%nat ->
  exists address,
    encode_email_address_helper U settings name token = Ok address
    /\ is_missed_message_address settings address = Ok (Some false).
Proof.
  intros Hpattern Hhack Hprefix Hdomain Htoken Hlength.
  exists (prefix ++ (escape_name U name ++ 43 :: token) ++ 64 :: domain). split.
  - unfold encode_email_address_helper. rewrite Hpattern.
    destruct (decide _) as [Hnil|_].
    { by apply (f_equal length) in Hnil; rewrite !length_app in Hnil; cbn in Hnil; lia. }
    by apply percent_format_placeholder.
  - assert (Hbody : Forall (fun c => c ≠ 64 /\ c ≠ 10)
                             (escape_name U name ++ 43 :: token)).
    { apply Forall_app. split; [apply plain_not_end, escape_name_safe|].
      constructor; [lia|by apply plain_not_end, legal_token_plain]. }
    unfold is_missed_message_address.
    rewrite (message_string_of_template settings prefix domain) by done.
    by rewrite stream_segment_not_mm.
Qed.

(** X7.  A token that [get_missed_message_token_from_address] returns
    has 32 characters and stands behind "mm" in the local part of the
    address; with a placeholder in the template every error that the
    function raises is a [ZulipEmailForwardError]. *)
Theorem missed_message_token_shape :
  (forall address token,
      get_missed_message_token_from_address settings address = Ok token ->
      length token = 32%nat
      /\ get_email_gateway_message_string_from_address settings address
         = Ok (lit "mm" ++ token))
  /\ ((2 <= length (pattern_parts settings))%nat ->
      forall address e,
        get_missed_message_token_from_address settings address = Raise e ->
        exists msg, e = ZulipEmailForwardError msg).
Proof.
  split.
  - intros address token. unfold get_missed_message_token_from_address.
    destruct (get_email_gateway_message_string_from_address settings address)
      as [segment|[]] eqn:Hsegment; try done.
    destruct (is_mm_32_format (Some segment)) eqn:Hshape; [|done].
    cbn [negb]. intros [= <-]. unfold is_mm_32_format in Hshape.
    apply andb_true_iff in Hshape as [Hmm Hlen%Nat.eqb_eq].
    change (lit "mm") with [109; 109] in *.
    destruct segment as [|a [|b segment]]; [done..|].
    cbn [startswith] in Hmm.
    apply andb_true_iff in Hmm as [<-%N.eqb_eq Hmm].
    apply andb_true_iff in Hmm as [<-%N.eqb_eq _].
    cbn [length] in Hlen. split; [|done]. cbn [drop]. rewrite drop_0. lia.
  - intros Hparts address e. unfold get_missed_message_token_from_address.
    pose proof (message_string_cases settings address Hparts) as H.
    destruct (gateway_match settings address).
    + destruct H as [segment ->].
      destruct (negb _); [intros [= <-]; by eexists|done].
    + rewrite H. unfold NO_MATCH. intros [= <-]. by eexists.
Qed.

(** X8.  A recipient found in the headers matches the pattern and is a
    value of one of the three recipient headers; without an extra
    acceptance pattern and with a placeholder in the template, the
    message string of that recipient can be read. *)
Theorem found_recipient_recognized message to :
  find_emailgateway_recipient settings message = Ok to ->
  match_email_re settings to = true
  /\ (exists name values,
        In name recipient_headers /\ get_all message name = Some values /\ In to values)
  /\ (EMAIL_GATEWAY_EXTRA_PATTERN_HACK settings = None ->
      (2 <= length (pattern_parts settings))%nat ->
      exists segment,
        get_email_gateway_message_string_from_address settings to = Ok segment).
Proof.
  unfold find_emailgateway_recipient.
  destruct (List.find _ _) as [found|] eqn:Hfind; [|done]. intros [= ->].
  apply find_some in Hfind as [Hin Hmatch]. split_and!; [done| |].
  - unfold recipient_headers in *. cbn [first_recipients] in Hin.
    repeat match type of Hin with
    | In _ (match get_all ?m ?n with _ => _ end) =>
        let E := fresh "E" in
        destruct (get_all m n) as [[|? ?]|] eqn:E;
        [ | exists n; eexists; split_and!; [cbn; tauto|exact E|exact Hin] | ]
    end; done.
  - intros Hhack Hparts.
    pose proof (message_string_cases settings to Hparts) as H.
    unfold match_email_re in Hmatch. apply bool_decide_eq_true in Hmatch.
    unfold gateway_match, gateway_last_part in H. rewrite Hhack in H.
    destruct (re_match _ _ to); [done|]. by destruct Hmatch.
Qed.

End Codec.

Lemma decode_dot_form_witness :
  decode_email_address Scenario.unicode Scenario.settings
    (lit "sales%0047eu.abc123@example.com") = Ok (Some (lit "sales/eu", lit "abc123")).
Proof.
  apply (proj1 (decode_dot_form Scenario.unicode Scenario.settings [] (lit "example.com")
                  (lit "sales/eu") (lit "abc123") eq_refl eq_refl eq_refl eq_refl
                  ltac:(unfold escapable; repeat (constructor; [right; reflexivity|]);
                        constructor)
                  eq_refl)).
Defined.

Lemma stream_address_not_missed_witness :
  exists address,
    encode_email_address_helper Scenario.unicode Scenario.settings
      (lit "mm") Scenario.token = Ok address
    /\ is_missed_message_address Scenario.settings address = Ok (Some false).
Proof.
  apply (stream_address_not_missed Scenario.unicode Scenario.settings []
           (lit "example.com")); reflexivity.
Defined.

Lemma missed_message_token_shape_witness :
  length Scenario.token = 32%nat
  /\ get_email_gateway_message_string_from_address Scenario.settings Scenario.mm_address
     = Ok (lit "mm" ++ Scenario.token).
Proof.
  apply (proj1 (missed_message_token_shape Scenario.settings)). reflexivity.
Defined.

Lemma found_recipient_recognized_witness :
  match_email_re Scenario.settings (lit "general+abc123@example.com") = true.
Proof.
  apply (found_recipient_recognized Scenario.settings Scenario.delivered).
  reflexivity.
Defined.

(** ** The flows and their deliveries *)

Section UploadsOnly.

Lemma uploads_and_log_only_refl w : uploads_and_log_only w w.
Proof. by repeat split. Qed.

Lemma uploads_and_log_only_trans w1 w2 w3 :
  uploads_and_log_only w1 w2 -> uploads_and_log_only w2 w3 ->
  uploads_and_log_only w1 w3.
Proof.
  intros (H1 & H2 & H3 & H4) (H1' & H2' & H3' & H4').
  repeat split; congruence.
Qed.

Lemma only_uploads_ret {A} (a : A) : only_uploads (mret a).
Proof. intros w. apply uploads_and_log_only_refl. Qed.

Lemma only_uploads_lift {A} (r : result A) : only_uploads (lift r).
Proof. intros w. apply uploads_and_log_only_refl. Qed.

Lemma only_uploads_add_upload u : only_uploads (modify (add_upload u)).
Proof. intros w. by repeat split. Qed.

Lemma only_uploads_add_log level text : only_uploads (modify (add_log level text)).
Proof. intros w. by repeat split. Qed.

Lemma only_uploads_bind {A B} (c : M A) (k : A -> M B) :
  only_uploads c -> (forall a, only_uploads (k a)) -> only_uploads (c ≫= k).
Proof.
  intros Hc Hk w. unfold mbind, M_bind. specialize (Hc w).
  destruct (c w) as [[a|e] w1]; cbn [snd] in *; [|done].
  eapply uploads_and_log_only_trans; [exact Hc|apply Hk].
Qed.

End UploadsOnly.

#[export] Hint Resolve only_uploads_ret only_uploads_lift only_uploads_add_upload
  only_uploads_add_log : frame.

Ltac uploads_step :=
  first [ solve [auto with frame]
        | apply only_uploads_bind; [|intros ?] ].

Section Flows.
Variable U : UnicodeDB.
Variable settings : Settings.
Variable bytes_decode : str -> bytes -> result str.
Variable extract_from_plain extract_from_html convert_html_to_markdown : str -> str.
Variable streams : list Stream.
Variable get_system_bot : str -> result UserProfile.
Variable get_user_profile_by_id : rval -> result UserProfile.
Variable get_recipient : rval -> result Recipient.
Variable get_display_recipient : Recipient -> DisplayRecipient.
Variable get_user : str -> Realm -> result UserProfile.
Variable decode_stored_subject : rval -> result str.
Variable upload_message_image :
  str -> nat -> str -> bytes -> UserProfile -> Realm -> str.
Variable re_search_group : str -> str -> option str.
Variable decode_subject : str -> result str.

Abbreviation validate := (extract_and_validate U settings streams).
Abbreviation assemble :=
  (construct_zulip_body settings bytes_decode extract_from_plain extract_from_html
     convert_html_to_markdown get_system_bot upload_message_image).
Abbreviation stream_flow :=
  (process_stream_message U settings bytes_decode extract_from_plain
     extract_from_html convert_html_to_markdown streams get_system_bot
     upload_message_image).

Lemma upload_attachments_only_uploads message user realm payload :
  forall links,
    only_uploads (upload_attachments upload_message_image message user realm
                    payload links).
Proof.
  induction payload as [|part payload IH]; intros links; cbn [upload_attachments].
  - auto with frame.
  - destruct (if truthy _ then _ else _); [|apply IH].
    destruct (get_payload_decoded part); repeat uploads_step; apply IH.
Qed.

Lemma construct_zulip_body_only_uploads message realm :
  only_uploads (assemble message realm).
Proof.
  unfold construct_zulip_body, extract_and_upload_attachments.
  repeat uploads_step.
  - destruct message; repeat uploads_step. apply upload_attachments_only_uploads.
  - destruct (strip _); auto with frame.
Qed.

Lemma construct_zulip_body_nonempty message realm w body w' :
  assemble message realm w = (Ok body, w') -> body ≠ [].
Proof.
  unfold construct_zulip_body, mbind, M_bind, lift, mret, M_ret.
  destruct (extract_body _ _ _ _ message) as [body0|e]; [|done].
  destruct (extract_and_upload_attachments _ _ _ message realm w) as [[links|e] w1];
    [|done].
  destruct (strip _) as [|c text] eqn:E; intros [= <- _]; done.
Qed.

Lemma stream_get_sound (p : Stream -> bool) stream :
  stream_get streams p = Ok stream ->
  List.filter p streams = [stream] /\ In stream streams /\ p stream = true.
Proof.
  unfold stream_get. destruct (List.filter p streams) as [|s [|s' l]] eqn:E; try done.
  intros [= ->]. split; [done|].
  apply filter_In. rewrite E. by left.
Qed.

(** X9.  A stream that [extract_and_validate] returns is the one row of
    the table with the token of the address, and its name is the decoded
    name up to case; when no row has the token the address is refused
    with "Bad stream token". *)
Theorem extract_and_validate_sound email :
  (forall stream,
      validate email = Ok stream ->
      In stream streams
      /\ (forall other, In other streams ->
                        email_token other = email_token stream -> other = stream)
      /\ exists name,
           decode_email_address U settings email = Ok (Some (name, email_token stream))
           /\ uni_lower U (stream_name stream) = uni_lower U name)
  /\ (forall name token,
        decode_email_address U settings email = Ok (Some (name, token)) ->
        Forall (fun s => email_token s ≠ token) streams ->
        validate email = Raise (BAD_STREAM_TOKEN email)).
Proof.
  unfold extract_and_validate, valid_stream. split.
  - intros stream.
    destruct (decode_email_address U settings email) as [[[name token]|]|e]; try done.
    destruct (stream_get streams _) as [found|e] eqn:Hfound; [|by destruct e].
    destruct (bool_decide (uni_lower U _ = _)) eqn:Hlower; [|done].
    intros [= ->]. apply stream_get_sound in Hfound as (Hfilter & Hin & Htoken).
    apply bool_decide_eq_true in Htoken, Hlower. subst token.
    split_and!; [done| |by exists name].
    intros other Hother Hsame.
    assert (Hin' : In other (List.filter
              (fun s => bool_decide (email_token s = email_token stream)) streams)).
    { apply filter_In. split; [done|]. by apply bool_decide_eq_true. }
    rewrite Hfilter in Hin'. by destruct Hin' as [<-|[]].
  - intros name token -> Hnone. unfold stream_get.
    replace (List.filter _ streams) with (@nil Stream); [reflexivity|].
    symmetry. induction Hnone as [|s l Hs _ IH]; [done|].
    cbn [List.filter]. by rewrite bool_decide_eq_false_2.
Qed.

(** The run of [process_stream_message]. *)
Lemma process_stream_message_run to subject message w :
  stream_flow to subject message w =
    match validate to with
    | Raise e => (Raise e, w)
    | Ok stream =>
        match assemble message (stream_realm stream) w with
        | (Raise e, w1) => (Raise e, w1)
        | (Ok body, w1) =>
            (Ok tt,
             add_log INFO
               (lit "Successfully processed email to " ++ stream_name stream
                ++ lit " (" ++ string_id (stream_realm stream) ++ lit ")")
               (add_delivery
                  (stream_delivery (EMAIL_GATEWAY_BOT settings) stream subject body)
                  (set_debug_info
                     {| debug_to := debug_to (debug_info w1);
                        debug_stream := Some stream |} w1)))
        end
    end.
Proof.
  unfold process_stream_message, mbind, M_bind, lift.
  destruct (validate to) as [stream|e]; [|done].
  by destruct (assemble message (stream_realm stream) w) as [[body|e] w1].
Qed.

(** X10.  [process_stream_message] never touches the store or the queue;
    when it raises it has delivered nothing, and when it returns it has
    delivered one message, to the stream of the address, with the subject
    cut at 60 characters and a body that is not empty, cut at 2000. *)
Theorem process_stream_message_outcome to subject message w :
  let outcome := stream_flow to subject message w in
  redis outcome.2 = redis w /\ queue outcome.2 = queue w
  /\ match outcome.1 with
     | Raise _ => outbox outcome.2 = outbox w
     | Ok _ =>
         exists stream body,
           validate to = Ok stream /\ body ≠ []
           /\ outbox outcome.2 =
                outbox w ++ [stream_delivery (EMAIL_GATEWAY_BOT settings) stream
                               subject body]
           /\ debug_stream (debug_info outcome.2) = Some stream
     end.
Proof.
  intros outcome. subst outcome. rewrite process_stream_message_run.
  destruct (validate to) as [stream|e]; [|done].
  pose proof (construct_zulip_body_only_uploads message (stream_realm stream) w)
    as (Hredis & Hout & Hqueue & _).
  destruct (assemble message (stream_realm stream) w) as [[body|e] w1] eqn:Hbody;
    cbn [snd fst] in *; [|done].
  apply construct_zulip_body_nonempty in Hbody.
  cbn. rewrite Hout. split_and!; [done..|]. by exists stream, body.
Qed.

(** X11.  The address that [encode_email_address] makes for a stream of
    the table is accepted: [extract_and_validate] returns the stream and
    [mirror_email_message] answers "success" and queues the email.  The
    stream is the one row with its token, the token has 32 letters and
    digits, the escaped characters of the name have code points below
    10000, and the template has one placeholder followed by "@". *)
Theorem stream_address_accepted prefix domain stream text w :
  EMAIL_GATEWAY_PATTERN settings = prefix ++ lit "%s" ++ 64%N :: domain ->
  EMAIL_GATEWAY_EXTRA_PATTERN_HACK settings = None ->
  has_char 37 prefix = false -> has_char 37 domain = false ->
  the_stream_of_token streams stream ->
  escapable U (stream_name stream) ->
  legal_token (email_token stream) = true -> length (email_token stream) = 32%nat ->
  exists address,
    encode_email_address U settings stream = Ok address
    /\ validate address = Ok stream
    /\ mirror_email_message U settings streams
         {| recipient := address; msg_text := text |} w
       = (Ok SUCCESS, queued {| recipient := address; msg_text := text |} w).
Proof.
  intros Hpattern Hhack Hprefix Hdomain Hrow Hname Htoken Hlength.
  set (name := stream_name stream) in *. set (token := email_token stream) in *.
  exists (prefix ++ (escape_name U name ++ 43%N :: token) ++ 64%N :: domain).
  assert (Hvalid : validate (prefix ++ (escape_name U name ++ 43%N :: token)
                               ++ 64%N :: domain) = Ok stream).
  { unfold extract_and_validate, valid_stream.
    rewrite (decode_of_template U settings prefix domain) by
      (auto using escape_name_plain, legal_token_plain).
    rewrite unescape_escape_name by done.
    unfold stream_get, the_stream_of_token in *. subst token. rewrite !Hrow.
    by rewrite bool_decide_eq_true_2. }
  split_and!; [|done|].
  - unfold encode_email_address, encode_email_address_helper. rewrite Hpattern.
    destruct (decide _) as [Hnil|_].
    { by apply (f_equal length) in Hnil; rewrite !length_app in Hnil; cbn in Hnil; lia. }
    by apply percent_format_placeholder.
  - rewrite mirror_email_message_run. cbn [recipient].
    assert (Hbody : Forall (fun c => c ≠ 64%N /\ c ≠ 10%N)
                      (escape_name U name ++ 43%N :: token)).
    { apply Forall_app. split; [by apply plain_not_end, escape_name_plain|].
      constructor; [lia|by apply plain_not_end, legal_token_plain]. }
    unfold is_missed_message_address.
    rewrite (message_string_of_template settings prefix domain) by done.
    rewrite stream_segment_not_mm by done. cbn [is_true default from_option id].
    by rewrite Hvalid.
Qed.

Abbreviation dispatch :=
  (process_message U settings bytes_decode extract_from_plain extract_from_html
     convert_html_to_markdown streams get_system_bot get_user_profile_by_id
     get_recipient get_display_recipient get_user decode_stored_subject
     upload_message_image re_search_group decode_subject).
Abbreviation report :=
  (log_and_report settings streams get_system_bot re_search_group).

Lemma try_except_forward_cases {A} (body : M A) (handler : str -> M A) w :
  match body w with
  | (Raise (ZulipEmailForwardError msg), w') =>
      try_except_forward body handler w = handler msg w'
  | other => try_except_forward body handler w = other
  end.
Proof.
  unfold try_except_forward. by destruct (body w) as [[a|[]] w'].
Qed.

(** The run of [log_and_report]: one entry in the log, then the report
    to Zulip. *)
Lemma log_and_report_run message error w :
  exists text,
    report message error w =
      report_to_zulip settings streams get_system_bot text (add_log ERROR text w)
    /\ exists header, text = header ++ redact_stream settings re_search_group error.
Proof.
  unfold log_and_report, mbind, M_bind, get_world, modify.
  eexists. split; [reflexivity|].
  destruct (debug_stream (debug_info w)), (debug_to (debug_info w));
    rewrite ?app_assoc; by eexists.
Qed.

Lemma report_to_zulip_no_forward_error text w :
  (forall bot msg, get_system_bot bot ≠ Raise (ZulipEmailForwardError msg)) ->
  forall msg,
    (report_to_zulip settings streams get_system_bot text w).1
    ≠ Raise (ZulipEmailForwardError msg).
Proof.
  intros Hbot msg. unfold report_to_zulip.
  destruct (ERROR_BOT settings) as [bot|]; [|done].
  unfold mbind, M_bind, lift. specialize (Hbot bot).
  destruct (get_system_bot bot) as [error_bot|e];
    [|cbn; intros [= ->]; by apply (Hbot msg)].
  unfold stream_get. by destruct (List.filter _ streams) as [|? [|? ?]].
Qed.

End Flows.

Lemma stream_address_accepted_witness :
  exists address,
    encode_email_address Scenario.unicode Scenario.settings Scenario.design = Ok address
    /\ extract_and_validate Scenario.unicode Scenario.settings Scenario.more_streams
         address = Ok Scenario.design
    /\ mirror_email_message Scenario.unicode Scenario.settings Scenario.more_streams
         {| recipient := address; msg_text := lit "Subject: hi" |} Scenario.empty_world
       = (Ok SUCCESS,
          queued {| recipient := address; msg_text := lit "Subject: hi" |}
            Scenario.empty_world).
Proof.
  apply (stream_address_accepted Scenario.unicode Scenario.settings
           Scenario.more_streams [] (lit "example.com")); try reflexivity.
  unfold escapable. repeat (constructor; [right; reflexivity|]). constructor.
Defined.

Lemma extract_and_validate_sound_witness :
  In Scenario.general Scenario.streams
  /\ (forall other, In other Scenario.streams ->
                    email_token other = email_token Scenario.general ->
                    other = Scenario.general)
  /\ exists name,
       decode_email_address Scenario.unicode Scenario.settings
         (lit "General+abc123@example.com")
       = Ok (Some (name, email_token Scenario.general))
       /\ uni_lower Scenario.unicode (stream_name Scenario.general)
          = uni_lower Scenario.unicode name.
Proof.
  apply (proj1 (extract_and_validate_sound Scenario.unicode Scenario.settings
                  Scenario.streams (lit "General+abc123@example.com"))).
  reflexivity.
Defined.

(** ** The body and the attachments *)

Section MoreContent.
Variable settings : Settings.
Variable bytes_decode : str -> bytes -> result str.
Variable extract_from_plain extract_from_html convert_html_to_markdown : str -> str.
Variable get_system_bot : str -> result UserProfile.
Variable upload_message_image :
  str -> nat -> str -> bytes -> UserProfile -> Realm -> str.

Abbreviation body_of :=
  (extract_body bytes_decode extract_from_plain extract_from_html
     convert_html_to_markdown).
Abbreviation attachments_of :=
  (extract_and_upload_attachments settings get_system_bot upload_message_image).
Abbreviation made user realm := (attachment_upload upload_message_image user realm).

Lemma upload_attachments_made message user realm payload : forall links w,
  let outcome := upload_attachments upload_message_image message user realm
                   payload links w in
  outcome.1 = Ok (links ++ (omap (made user realm) payload).*1)
  /\ uploads outcome.2 = uploads w ++ (omap (made user realm) payload).*2.
Proof.
  induction payload as [|part payload IH]; intros links w.
  - cbn. by rewrite !app_nil_r.
  - cbn [upload_attachments omap list_omap]. unfold made at 1 3, attachment_upload.
    fold (attachment_name part).
    destruct (attachment_name part) as [filename|]; [|apply IH].
    destruct (get_payload_decoded part) as [attachment|].
    + unfold mbind, M_bind, modify. cbn zeta.
      destruct (IH (links ++ [lit "[" ++ filename ++ lit "](" ++
                   upload_message_image filename (length attachment)
                     (content_type (part_info part)) attachment user realm ++ lit ")"])
                  (add_upload {| upload_filename := filename;
                                 upload_size := length attachment;
                                 upload_content_type := content_type (part_info part);
                                 upload_data := attachment; upload_user := user;
                                 upload_realm := realm |} w)) as [H1 H2].
      cbn zeta in H1, H2. rewrite H1, H2. cbn [fmap list_fmap fst snd uploads add_upload].
      by rewrite <- !app_assoc.
    + unfold mbind, M_bind, modify. cbn zeta.
      destruct (IH links (add_log WARNING
                  (lit "Payload is not bytes (invalid attachment " ++ filename
                   ++ lit " in message from "
                   ++ str_of_optional (get_header message (lit "From")) ++ lit ").") w))
        as [H1 H2].
      cbn zeta in H1, H2. by rewrite H1, H2.
Qed.

(** X13.  [extract_and_upload_attachments] uploads the immediate parts
    of the email that are leaves with a file name, in their order, and
    returns their links joined by newlines: one upload for each link, and
    nothing for an email that is not multipart. *)
Theorem extract_and_upload_attachments_links message realm user w :
  get_system_bot (EMAIL_GATEWAY_BOT settings) = Ok user ->
  let made := omap (made user realm) (immediate_parts message) in
  (attachments_of message realm w).1 = Ok (join [10%N] made.*1)
  /\ uploads (attachments_of message realm w).2 = uploads w ++ made.*2.
Proof.
  intros Hbot. unfold extract_and_upload_attachments, mbind, M_bind, lift.
  rewrite Hbot. destruct message as [info payload|info payload]; cbn [immediate_parts].
  - cbn. by rewrite app_nil_r.
  - destruct (upload_attachments_made (Multipart info payload) user realm payload [] w)
      as [H1 H2].
    cbn zeta in H1, H2.
    destruct (upload_attachments _ _ _ _ payload [] w) as [[links|e] w1];
      cbn [fst snd] in *; [|done].
    injection H1 as ->. done.
Qed.

Lemma part_by_type_from_none (all : list Message) wanted parts :
  Forall (skipped wanted) parts ->
  forall idx, drop idx all = parts ->
  part_by_type_from bytes_decode
    (List.map (fun part => content_charset (part_info part)) all) wanted idx parts
  = Ok None.
Proof.
  induction 1 as [|q parts Hq _ IH]; intros idx Hdrop; [done|].
  cbn [part_by_type_from].
  assert (Hl : all !! idx = Some q).
  { rewrite <- (Nat.add_0_r idx), <- lookup_drop, Hdrop. done. }
  assert (Hnext : drop (S idx) all = parts).
  { replace (S idx) with (idx + 1)%nat by lia.
    rewrite <- (drop_drop all 1 idx), Hdrop. done. }
  destruct Hq as [Hq|[[c Hc] Hq]].
  - rewrite bool_decide_eq_false_2 by done. by apply IH.
  - case_bool_decide; [|by apply IH].
    rewrite Hc. change (List.map ?f all) with (f <$> all).
    rewrite list_lookup_fmap, Hl. cbn. rewrite Hq. by apply IH.
Qed.

Lemma get_message_part_by_type_none message wanted :
  Forall (skipped wanted) (walk message) ->
  get_message_part_by_type bytes_decode message wanted = Ok None.
Proof.
  intros H. unfold get_message_part_by_type, get_charsets.
  by apply part_by_type_from_none.
Qed.

(** X14.  When every plaintext part of an email lacks a declared
    charset, the body is taken from the first HTML part that declares
    one and decodes to a text that is not empty, and when the HTML parts
    lack it too, [extract_body] raises "Unable to find plaintext or HTML
    message body". *)
Theorem extract_body_without_plaintext message :
  Forall (skipped TEXT_PLAIN) (walk message) ->
  (Forall (skipped TEXT_HTML) (walk message) -> body_of message = Raise NO_BODY)
  /\ (forall pre p rest cs content text,
        walk message = pre ++ p :: rest ->
        Forall (skipped TEXT_HTML) pre ->
        content_type (part_info p) = TEXT_HTML ->
        get_payload_decoded p = Some content ->
        content_charset (part_info p) = Some cs -> cs ≠ [] ->
        bytes_decode cs content = Ok text -> text ≠ [] ->
        body_of message = Ok (convert_html_to_markdown (extract_from_html text))).
Proof.
  intros Hplain. unfold extract_body. fold TEXT_PLAIN TEXT_HTML.
  rewrite (get_message_part_by_type_none _ _ Hplain). cbn [truthy]. split.
  - intros Hhtml. by rewrite (get_message_part_by_type_none _ _ Hhtml).
  - intros pre p rest cs content text Hwalk Hpre Hty Hpay Hcs Hne Hdec Htext.
    rewrite (get_message_part_by_type_found _ _ _ _ _ _ _ _ _ Hwalk Hpre Hty Hpay
               Hcs Hne Hdec).
    by destruct text.
Qed.

(** C8.  An email that holds a plaintext part without a declared
    charset and an HTML part: [extract_body] takes the body from the HTML
    part, although the plaintext is there; and on the plaintext part alone
    it finds no body at all. *)
Theorem extract_body_passes_over_plaintext info plain_info html_info plain_content
    html_content cs text :
  content_type plain_info = TEXT_PLAIN ->
  truthy (content_charset plain_info) = false ->
  content_type html_info = TEXT_HTML ->
  content_charset html_info = Some cs -> cs ≠ [] ->
  bytes_decode cs html_content = Ok text -> text ≠ [] ->
  content_type info ≠ TEXT_PLAIN -> content_type info ≠ TEXT_HTML ->
  let plain := Leaf plain_info plain_content in
  let html := Leaf html_info html_content in
  In plain (walk (Multipart info [plain; html]))
  /\ body_of (Multipart info [plain; html])
     = Ok (convert_html_to_markdown (extract_from_html text))
  /\ body_of plain = Raise NO_BODY.
Proof.
  intros Hplain Hcharset Hhtml Hcs Hne Hdecode Htext Hinfo Hinfo' plain html.
  assert (Hdiff : TEXT_HTML ≠ TEXT_PLAIN) by (vm_compute; discriminate).
  assert (Hskip : skipped TEXT_PLAIN plain) by (right; split; [by eexists|done]).
  assert (Hhtml_skip : skipped TEXT_PLAIN html) by (left; cbn; congruence).
  assert (Hplain_skip : skipped TEXT_HTML plain) by (left; cbn; congruence).
  split_and!.
  - cbn. right. by left.
  - unfold extract_body. fold TEXT_PLAIN TEXT_HTML.
    rewrite get_message_part_by_type_none.
    2:{ cbn [walk flat_map app].
        constructor; [by left|]. constructor; [done|]. constructor; [done|].
        constructor. }
    cbn [truthy].
    rewrite (get_message_part_by_type_found bytes_decode _ TEXT_HTML
               [Multipart info [plain; html]; plain] html [] cs html_content text);
      try done.
    + by destruct text.
    + constructor; [by left|]. constructor; [done|]. constructor.
  - unfold extract_body. fold TEXT_PLAIN TEXT_HTML.
    rewrite get_message_part_by_type_none by (constructor; [done|constructor]).
    cbn [truthy]. rewrite get_message_part_by_type_none; [done|].
    constructor; [done|constructor].
Qed.

End MoreContent.

Section FooterAgain.
Local Open Scope N_scope.

Lemma has_sub_app_l sub a b : has_sub sub a = true -> has_sub sub (a ++ b) = true.
Proof.
  induction a as [|c a IH]; cbn [has_sub app].
  - rewrite orb_false_r. destruct sub; [|done]. intros _. by destruct b.
  - intros [H|H]%orb_true_iff; apply orb_true_iff.
    + left. by apply (startswith_app sub (c :: a) b).
    + right. by apply IH.
Qed.

Lemma has_sub_app_r sub a b : has_sub sub b = true -> has_sub sub (a ++ b) = true.
Proof.
  intros H. induction a as [|c a IH]; [done|].
  cbn [app has_sub]. rewrite IH. by rewrite orb_true_r.
Qed.

Lemma has_sub_part sub a s b :
  has_sub sub (a ++ s ++ b) = false -> has_sub sub s = false.
Proof.
  intros H. destruct (has_sub sub s) eqn:E; [|done].
  by rewrite has_sub_app_r in H by (by apply has_sub_app_l).
Qed.

Lemma partition_head_prefix sep s : exists rest, s = partition_head sep s ++ rest.
Proof.
  induction s as [|c s [rest IH]]; [by exists []|].
  cbn [partition_head]. destruct (startswith sep (c :: s)); [by eexists|].
  exists rest. cbn [app]. by rewrite <- IH.
Qed.

(** The text before the first two dashes holds no two dashes. *)
Lemma partition_head_dashes s : has_sub (lit "--") (partition_head (lit "--") s) = false.
Proof.
  change (lit "--") with [45; 45].
  induction s as [|c s IH]; [done|].
  cbn [partition_head]. destruct (startswith [45; 45] (c :: s)) eqn:E; [done|].
  cbn [has_sub]. rewrite IH, orb_false_r.
  destruct (partition_head_prefix [45; 45] s) as [rest Hs].
  destruct (partition_head [45; 45] s) as [|d p]; cbn [startswith] in *.
  - by rewrite andb_false_r.
  - rewrite Hs in E. cbn [app startswith] in E. by rewrite !andb_true_r in *.
Qed.

Lemma strip_part s : exists a b, s = a ++ strip s ++ b.
Proof.
  unfold strip. destruct (lstrip_decompose s) as (a & Ha & _).
  destruct (rstrip_decompose (lstrip s)) as (b & Hb & _).
  exists a, b. by rewrite <- Hb.
Qed.

Lemma join_part sep lines line :
  In line lines -> exists a b, join sep lines = a ++ line ++ b.
Proof.
  induction lines as [|l lines IH]; [done|]. intros [->|Hin].
  - exists []. destruct lines; [exists []; by rewrite app_nil_r|].
    rewrite join_cons_cons. by eexists.
  - destruct (IH Hin) as (a & b & Hj). destruct lines as [|l' lines]; [done|].
    rewrite join_cons_cons, Hj. exists (l ++ sep ++ a), b.
    by rewrite <- !app_assoc.
Qed.

Lemma footer_candidate_dashes line :
  footer_candidate line = true -> has_sub (lit "--") line = true.
Proof.
  intros (ws & rest & -> & _)%footer_candidate_shape.
  apply has_sub_app_r. change (lit "--") with [45; 45]. cbn [has_sub startswith].
  by rewrite !N.eqb_refl.
Qed.

(** A text without two dashes side by side has no footer line. *)
Lemma no_dashes_no_footer text :
  has_sub (lit "--") text = false ->
  List.filter footer_candidate (split [10] text) = [].
Proof.
  intros Htext.
  assert (H : forall lines, (forall line, In line lines -> footer_candidate line = false)
                            -> List.filter footer_candidate lines = []).
  { induction lines as [|l lines IH]; [done|]. intros Hall. cbn [List.filter].
    rewrite (Hall l) by (by left). apply IH. intros line Hin. apply Hall. by right. }
  apply H. intros line Hin.
  destruct (join_part [10] _ _ Hin) as (a & b & Hj). rewrite join_split_char in Hj.
  destruct (footer_candidate line) eqn:E; [|done].
  apply footer_candidate_dashes in E. rewrite Hj in Htext.
  apply has_sub_part in Htext. congruence.
Qed.

(** X15.  [filter_footer] is idempotent, and a text that it has cut
    holds no two dashes side by side. *)
Theorem filter_footer_idempotent text :
  filter_footer (filter_footer text) = filter_footer text
  /\ (filter_footer text ≠ text -> has_sub (lit "--") (filter_footer text) = false).
Proof.
  assert (Hcases : filter_footer text = text
                   \/ filter_footer text = strip (partition_head (lit "--") text)).
  { unfold filter_footer. destruct (negb _); [by left|by right]. }
  destruct Hcases as [Hsame | Hcase]; [rewrite !Hsame; by split|]. rewrite !Hcase.
  assert (Hcut : has_sub (lit "--") (strip (partition_head (lit "--") text)) = false).
  { destruct (strip_part (partition_head (lit "--") text)) as (a & b & Hs).
    pose proof (partition_head_dashes text) as Hp. rewrite Hs in Hp.
    by apply has_sub_part in Hp. }
  split; [|done].
  unfold filter_footer at 1. fold footer_candidate.
  by rewrite (no_dashes_no_footer _ Hcut).
Qed.

End FooterAgain.

Lemma extract_and_upload_attachments_links_witness :
  (extract_and_upload_attachments Scenario.settings Scenario.get_system_bot
     (fun _ _ _ _ _ _ => lit "/user_uploads/1") Scenario.with_attachments
     Scenario.realm Scenario.empty_world).1
  = Ok (lit "[a.txt](/user_uploads/1)" ++ [10%N] ++ lit "[b.txt](/user_uploads/1)").
Proof.
  apply (extract_and_upload_attachments_links Scenario.settings Scenario.get_system_bot
           (fun _ _ _ _ _ _ => lit "/user_uploads/1") Scenario.with_attachments
           Scenario.realm Scenario.bot Scenario.empty_world eq_refl).
Defined.

Lemma extract_body_without_plaintext_witness :
  Scenario.extract_body
    (Scenario.alternative [Scenario.plain_without_charset; Scenario.html_part])
  = Ok (lit "<p>Hi</p>").
Proof.
  refine (proj2 (extract_body_without_plaintext Scenario.bytes_decode Scenario.identity
           Scenario.identity Scenario.identity
           (Scenario.alternative [Scenario.plain_without_charset; Scenario.html_part]) _)
           [Scenario.alternative [Scenario.plain_without_charset; Scenario.html_part];
            Scenario.plain_without_charset]
           Scenario.html_part [] (lit "utf-8") (Scenario.to_bytes "<p>Hi</p>")
           (lit "<p>Hi</p>") eq_refl _ eq_refl eq_refl eq_refl _ eq_refl _).
  - constructor; [left; vm_compute; discriminate|].
    constructor; [right; split; [by eexists|reflexivity]|].
    constructor; [left; vm_compute; discriminate|]. constructor.
  - constructor; [left; vm_compute; discriminate|].
    constructor; [left; vm_compute; discriminate|]. constructor.
  - vm_compute; discriminate.
  - vm_compute; discriminate.
Defined.

Lemma extract_body_passes_over_plaintext_witness :
  In Scenario.plain_without_charset
    (walk (Scenario.alternative [Scenario.plain_without_charset; Scenario.html_part]))
  /\ Scenario.extract_body
       (Scenario.alternative [Scenario.plain_without_charset; Scenario.html_part])
     = Ok (lit "<p>Hi</p>")
  /\ Scenario.extract_body Scenario.plain_without_charset = Raise NO_BODY.
Proof.
  apply (extract_body_passes_over_plaintext Scenario.bytes_decode Scenario.identity
           Scenario.identity Scenario.identity _ _ _ (Scenario.to_bytes "Hello")
           (Scenario.to_bytes "<p>Hi</p>") (lit "utf-8") (lit "<p>Hi</p>"));
    try reflexivity; vm_compute; discriminate.
Defined.

(** ** The missed-message addresses *)

Section Creation.
Variable settings : Settings.
Variable profile_id : UserProfile -> Z.
Variable get_personal_recipient : Z -> result Recipient.
Variable utf8_encode : str -> result bytes.
Variable NOREPLY : str.
Local Open Scope Z_scope.

Abbreviation create :=
  (create_missed_message_address settings profile_id get_personal_recipient
     utf8_encode NOREPLY).
Abbreviation key_of := missed_message_redis_key.

Lemma hash_of_insert key h r t :
  RedisClient.hash_of key {| hashes := <[key := h]> (hashes r); ttls := t |} = h.
Proof. unfold RedisClient.hash_of. cbn. by rewrite lookup_insert_eq. Qed.

(** The loop keeps the first token whose key holds no counter. *)
Lemma claim_token_first used token rest r :
  Forall (taken r) used ->
  RedisClient.hash_of (key_of token) r !! uses_left = None ->
  claim_token (used ++ token :: rest) r =
    Some (token,
          {| hashes := <[key_of token :=
                           <[uses_left := RInt 1]> (RedisClient.hash_of (key_of token) r)]>
                         (hashes r);
             ttls := ttls r |}).
Proof.
  intros Hused Hfree. induction Hused as [|t used Ht _ IH]; cbn [app claim_token].
  - unfold RedisClient.hsetnx. by rewrite Hfree.
  - unfold RedisClient.hsetnx. unfold taken in Ht.
    by destruct (RedisClient.hash_of (key_of t) r !! uses_left).
Qed.

(** The run of [create_missed_message_address] with a gateway. *)
Lemma create_missed_message_address_run used token rest user_profile message rid
    subject_b w :
  EMAIL_GATEWAY_PATTERN settings ≠ [] ->
  recipient_to_reply get_personal_recipient message = Ok rid ->
  utf8_encode (chat_subject message) = Ok subject_b ->
  Forall (taken (redis w)) used ->
  uses_left_of (key_of token) w = None ->
  create (used ++ token :: rest) user_profile message w =
    Some (percent_format (EMAIL_GATEWAY_PATTERN settings) [lit "mm" ++ token],
          set_redis
            {| hashes :=
                 <[key_of token :=
                     <[lit "subject" := RBytes subject_b]>
                       (<[lit "recipient_id" := RInt rid]>
                          (<[lit "user_profile_id" := RInt (profile_id user_profile)]>
                             (<[uses_left := RInt 1]>
                                (RedisClient.hash_of (key_of token) (redis w)))))]>
                   (hashes (redis w));
               ttls := <[key_of token := TOKEN_TTL]> (ttls (redis w)) |} w).
Proof.
  intros Hpattern Hrid Hsubject Hused Hfree. unfold create_missed_message_address.
  rewrite decide_False by done. unfold recipient_to_reply in Hrid.
  rewrite Hrid, Hsubject, (claim_token_first _ _ _ _ Hused Hfree).
  unfold RedisClient.hmset, RedisClient.expire. rewrite hash_of_insert.
  cbn [hashes ttls foldl fst snd]. rewrite lookup_insert_eq, insert_insert_eq.
  reflexivity.
Qed.

(** X16.  With a gateway, [create_missed_message_address] keeps the
    first generated token whose key holds no counter, stores under that
    key the counter 1 and the three fields that the reply needs, gives
    the key five days to live, and returns the template filled with "mm"
    and the token; no other key changes, and nothing but the store. *)
Theorem create_missed_message_address_stores used token rest user_profile message rid
    subject_b w :
  EMAIL_GATEWAY_PATTERN settings ≠ [] ->
  recipient_to_reply get_personal_recipient message = Ok rid ->
  utf8_encode (chat_subject message) = Ok subject_b ->
  Forall (taken (redis w)) used ->
  uses_left_of (key_of token) w = None ->
  exists w',
    create (used ++ token :: rest) user_profile message w =
      Some (percent_format (EMAIL_GATEWAY_PATTERN settings) [lit "mm" ++ token], w')
    /\ uses_left_of (key_of token) w' = Some (RInt 1)
    /\ RedisClient.hmget (key_of token) DATA_FIELDS (redis w') =
         [Some (RInt (profile_id user_profile)); Some (RInt rid);
          Some (RBytes subject_b)]
    /\ ttls (redis w') !! key_of token = Some TOKEN_TTL
    /\ (forall k, k ≠ key_of token ->
                  hashes (redis w') !! k = hashes (redis w) !! k
                  /\ ttls (redis w') !! k = ttls (redis w) !! k)
    /\ w' = set_redis (redis w') w.
Proof.
  intros Hpattern Hrid Hsubject Hused Hfree. eexists. split.
  { by apply create_missed_message_address_run. }
  unfold uses_left_of. cbn [redis set_redis]. unfold RedisClient.hmget.
  rewrite hash_of_insert. cbn [hashes ttls List.map DATA_FIELDS].
  split_and!.
  - by rewrite !lookup_insert_ne, lookup_insert_eq by (vm_compute; discriminate).
  - rewrite lookup_insert_eq.
    rewrite (lookup_insert_ne _ (lit "subject") (lit "recipient_id"))
      by (vm_compute; discriminate).
    rewrite lookup_insert_eq.
    do 2 rewrite (lookup_insert_ne _ _ (lit "user_profile_id"))
      by (vm_compute; discriminate).
    by rewrite lookup_insert_eq.
  - by rewrite lookup_insert_eq.
  - intros k Hk. by rewrite !lookup_insert_ne.
  - reflexivity.
Qed.

End Creation.

Section MissedFlow.
Variable settings : Settings.
Variable bytes_decode : str -> bytes -> result str.
Variable extract_from_plain extract_from_html convert_html_to_markdown : str -> str.
Variable get_system_bot : str -> result UserProfile.
Variable get_user_profile_by_id : rval -> result UserProfile.
Variable get_recipient : rval -> result Recipient.
Variable get_display_recipient : Recipient -> DisplayRecipient.
Variable get_user : str -> Realm -> result UserProfile.
Variable decode_stored_subject : rval -> result str.
Variable upload_message_image :
  str -> nat -> str -> bytes -> UserProfile -> Realm -> str.
Local Open Scope Z_scope.

Abbreviation spend := (mark_missed_message_address_as_used settings).
Abbreviation body_for :=
  (construct_zulip_body settings bytes_decode extract_from_plain extract_from_html
     convert_html_to_markdown get_system_bot upload_message_image).
Abbreviation reply :=
  (send_to_missed_message_address settings bytes_decode extract_from_plain
     extract_from_html convert_html_to_markdown get_system_bot get_user_profile_by_id
     get_recipient get_display_recipient get_user decode_stored_subject
     upload_message_image).
Abbreviation missed_message_flow :=
  (process_missed_message settings bytes_decode extract_from_plain extract_from_html
     convert_html_to_markdown get_system_bot get_user_profile_by_id get_recipient
     get_display_recipient get_user decode_stored_subject upload_message_image).

(** What [send_to_missed_message_address] has done when it stops. *)
Lemma send_to_missed_message_address_outcome address message w res w' :
  reply address message w = (res, w') ->
  queue w' = queue w
  /\ match res with
     | Raise _ => outbox w' = outbox w
     | Ok _ =>
         exists token user_profile_id recipient_id subject_b user_profile body d,
           get_missed_message_token_from_address settings address = Ok token
           /\ RedisClient.hmget (missed_message_redis_key token) DATA_FIELDS (redis w)
              = [Some user_profile_id; Some recipient_id; Some subject_b]
           /\ get_user_profile_by_id user_profile_id = Ok user_profile
           /\ body ≠ [] /\ sent_as user_profile body d
           /\ outbox w' = outbox w ++ [d]
     end.
Proof.
  unfold send_to_missed_message_address, mbind at 1, M_bind at 1, lift at 1.
  destruct (get_missed_message_token_from_address settings address) as [token|e];
    [|by intros [= <- <-]].
  unfold mbind at 1, M_bind at 1, get_world. cbn [fst snd].
  fold DATA_FIELDS.
  destruct (RedisClient.hmget _ DATA_FIELDS (redis w))
    as [|[user_profile_id|] [|[recipient_id|] [|[subject_b|] [|? ?]]]] eqn:Hdata;
    try (by intros [= <- <-]).
  unfold mbind at 1, M_bind at 1, lift at 1.
  destruct (get_user_profile_by_id user_profile_id) as [user_profile|e] eqn:Huser;
    [|by intros [= <- <-]].
  unfold mbind at 1, M_bind at 1, lift at 1.
  destruct (get_recipient recipient_id) as [recipient|e]; [|by intros [= <- <-]].
  unfold mbind at 1, M_bind at 1.
  pose proof (construct_zulip_body_only_uploads settings bytes_decode extract_from_plain
                extract_from_html convert_html_to_markdown get_system_bot
                upload_message_image message (user_realm user_profile) w)
    as (_ & Hout & Hqueue & _).
  destruct (body_for message (user_realm user_profile) w) as [[body|e] w1] eqn:Hbody;
    cbn [fst snd] in *; [|by intros [= <- <-]].
  apply construct_zulip_body_nonempty in Hbody.
  assert (Hsent : forall d recipient_str,
            sent_as user_profile body d ->
            (Ok tt,
             add_log INFO (lit "Successfully processed email from "
                           ++ user_email user_profile ++ lit " to " ++ recipient_str)
               (add_delivery d w1)) = (res, w') ->
            queue w' = queue w
            /\ match res with
               | Raise _ => outbox w' = outbox w
               | Ok _ =>
                   exists token0 user_profile_id0 recipient_id0 subject_b0
                          user_profile0 body0 d0,
                     Ok token = Ok token0
                     /\ RedisClient.hmget (missed_message_redis_key token0)
                          DATA_FIELDS (redis w)
                        = [Some user_profile_id0; Some recipient_id0; Some subject_b0]
                     /\ get_user_profile_by_id user_profile_id0 = Ok user_profile0
                     /\ body0 ≠ [] /\ sent_as user_profile0 body0 d0
                     /\ outbox w' = outbox w ++ [d0]
               end).
  { intros d recipient_str Hd [= <- <-]. split; [done|].
    exists token, user_profile_id, recipient_id, subject_b, user_profile, body, d.
    split_and!; try done. cbn. by rewrite Hout. }
  unfold mbind, M_bind, lift, modify, raise, mret, M_ret.
  repeat case_bool_decide; try (by intros [= <- <-]);
    destruct (get_display_recipient recipient) as [name|[|email emails]];
    try (by intros [= <- <-]).
  - destruct (decode_stored_subject subject_b) as [topic|e]; [|by intros [= <- <-]].
    intros Heq. by refine (Hsent _ _ _ Heq).
  - destruct (get_user email (user_realm user_profile)) as [recipient_user|e];
      [|by intros [= <- <-]].
    intros Heq. by refine (Hsent _ _ _ Heq).
  - intros Heq. by refine (Hsent _ _ _ Heq).
  - intros Heq. by refine (Hsent _ _ _ Heq).
Qed.

(** A consumption that succeeds found a positive counter and left it
    one lower. *)
Lemma consume_succeeded address token w w' :
  get_missed_message_token_from_address settings address = Ok token ->
  spend address w = (Ok tt, w') ->
  exists v, 0 <= v
    /\ uses_left_of (missed_message_redis_key token) w = Some (RInt (v + 1))
    /\ uses_left_of (missed_message_redis_key token) w' = Some (RInt v).
Proof.
  intros Htoken. rewrite (consume_run _ _ _ _ Htoken).
  set (key := missed_message_redis_key token).
  destruct (hincrby_cases key (redis w)) as [Hnone|(v & Hv & Hh & Hold)].
  { cbn zeta in Hnone. by rewrite Hnone. }
  cbn zeta in Hv, Hh.
  destruct (RedisClient.hincrby key uses_left (-1) (redis w)) as [o r1].
  cbn [fst snd] in Hv, Hh. subst o. cbn zeta.
  destruct (v <? 0) eqn:Hneg; [done|]. intros [= <-].
  destruct Hold as [[_ ->]|(old & Hold & ->)]; [done|].
  exists (old - 1). split_and!; [lia| |].
  - unfold uses_left_of. rewrite Hold. do 2 f_equal. lia.
  - unfold uses_left_of. cbn [redis set_redis]. rewrite hash_of_expire.
    unfold RedisClient.hash_of at 1. rewrite Hh, lookup_insert_eq. cbn.
    by rewrite lookup_insert_eq.
Qed.

(** X17.  [process_missed_message] never touches the queue, and told
    [pre_checked] not the store either.  When it raises it has delivered
    nothing; when it returns it has delivered one message, as the user
    stored with the token and with a body that is not empty, and when it
    was not told [pre_checked] it has found a positive counter and left it
    one lower. *)
Theorem process_missed_message_outcome to message pre_checked w :
  let outcome := missed_message_flow to message pre_checked w in
  queue outcome.2 = queue w
  /\ (pre_checked = true -> redis outcome.2 = redis w)
  /\ match outcome.1 with
     | Raise _ => outbox outcome.2 = outbox w
     | Ok _ =>
         exists token user_profile_id recipient_id subject_b user_profile body d,
           get_missed_message_token_from_address settings to = Ok token
           /\ RedisClient.hmget (missed_message_redis_key token) DATA_FIELDS
                (redis outcome.2)
              = [Some user_profile_id; Some recipient_id; Some subject_b]
           /\ get_user_profile_by_id user_profile_id = Ok user_profile
           /\ body ≠ [] /\ sent_as user_profile body d
           /\ outbox outcome.2 = outbox w ++ [d]
           /\ (pre_checked = false ->
               exists v, 0 <= v
                 /\ uses_left_of (missed_message_redis_key token) w = Some (RInt (v + 1))
                 /\ uses_left_of (missed_message_redis_key token) outcome.2
                    = Some (RInt v))
     end.
Proof.
  cbn zeta. unfold process_missed_message, mbind, M_bind.
  assert (Hsend : forall w1,
            let outcome := reply to message w1 in
            redis outcome.2 = redis w1 /\ queue outcome.2 = queue w1
            /\ match outcome.1 with
               | Raise _ => outbox outcome.2 = outbox w1
               | Ok _ =>
                   exists token user_profile_id recipient_id subject_b user_profile
                          body d,
                     get_missed_message_token_from_address settings to = Ok token
                     /\ RedisClient.hmget (missed_message_redis_key token) DATA_FIELDS
                          (redis outcome.2)
                        = [Some user_profile_id; Some recipient_id; Some subject_b]
                     /\ get_user_profile_by_id user_profile_id = Ok user_profile
                     /\ body ≠ [] /\ sent_as user_profile body d
                     /\ outbox outcome.2 = outbox w1 ++ [d]
               end).
  { intros w1. cbn zeta.
    pose proof (send_to_missed_message_address_keeps_redis settings bytes_decode
                  extract_from_plain extract_from_html convert_html_to_markdown
                  get_system_bot get_user_profile_by_id get_recipient
                  get_display_recipient get_user decode_stored_subject
                  upload_message_image to message w1) as Hredis.
    destruct (reply to message w1) as [res w2] eqn:Hrun. cbn [fst snd] in *.
    destruct (send_to_missed_message_address_outcome _ _ _ _ _ Hrun) as [Hq Hres].
    split_and!; [done..|]. destruct res; [|done]. by rewrite Hredis. }
  destruct pre_checked; cbn [negb].
  - cbn [mret M_ret]. destruct (Hsend w) as (Hr & Hq & Hres).
    split_and!; [done..|].
    destruct (reply to message w).1; [|done].
    destruct Hres as (token & upid & rid & sb & up & body & d & H).
    exists token, upid, rid, sb, up, body, d. by split_and!; try apply H.
  - pose proof (consume_only_redis settings to w) as Hframe.
    destruct (spend to w) as [[[]|e] w1] eqn:Hspend; cbn [fst snd] in *.
    2:{ by rewrite Hframe. }
    destruct (Hsend w1) as (Hr & Hq & Hres).
    assert (Hout : outbox w1 = outbox w) by (by rewrite Hframe).
    assert (Hqueue : queue w1 = queue w) by (by rewrite Hframe).
    split_and!; [congruence|done|].
    destruct (reply to message w1) as [[[]|e] w2]; cbn [fst snd] in *; [|congruence].
    destruct Hres as (token & upid & rid & sb & up & body & d & Htoken & H).
    exists token, upid, rid, sb, up, body, d. rewrite <- Hout.
    split_and!; try apply H; [done|]. intros _.
    destruct (consume_succeeded _ _ _ _ Htoken Hspend) as (v & Hv & Hbefore & Hafter).
    exists v. split_and!; [done..|].
    unfold uses_left_of in *. by rewrite Hr.
Qed.

End MissedFlow.

Section Lifecycle.
Variable settings : Settings.
Variable profile_id : UserProfile -> Z.
Variable get_personal_recipient : Z -> result Recipient.
Variable utf8_encode : str -> result bytes.
Variable NOREPLY : str.
Variable bytes_decode : str -> bytes -> result str.
Variable extract_from_plain extract_from_html convert_html_to_markdown : str -> str.
Variable get_system_bot : str -> result UserProfile.
Variable get_user_profile_by_id : rval -> result UserProfile.
Variable get_recipient : rval -> result Recipient.
Variable get_display_recipient : Recipient -> DisplayRecipient.
Variable get_user : str -> Realm -> result UserProfile.
Variable decode_stored_subject : rval -> result str.
Variable upload_message_image :
  str -> nat -> str -> bytes -> UserProfile -> Realm -> str.
Local Open Scope Z_scope.

Abbreviation create :=
  (create_missed_message_address settings profile_id get_personal_recipient
     utf8_encode NOREPLY).
Abbreviation spend := (mark_missed_message_address_as_used settings).
Abbreviation reply :=
  (send_to_missed_message_address settings bytes_decode extract_from_plain
     extract_from_html convert_html_to_markdown get_system_bot get_user_profile_by_id
     get_recipient get_display_recipient get_user decode_stored_subject
     upload_message_image).
Abbreviation missed_message_flow :=
  (process_missed_message settings bytes_decode extract_from_plain extract_from_html
     convert_html_to_markdown get_system_bot get_user_profile_by_id get_recipient
     get_display_recipient get_user decode_stored_subject upload_message_image).

Lemma missed_address_of_template prefix domain token :
  EMAIL_GATEWAY_PATTERN settings = prefix ++ lit "%s" ++ 64%N :: domain ->
  EMAIL_GATEWAY_EXTRA_PATTERN_HACK settings = None ->
  has_char 37 prefix = false -> has_char 37 domain = false ->
  legal_token token = true -> length token = 32%nat ->
  is_missed_message_address settings (prefix ++ (lit "mm" ++ token) ++ 64%N :: domain)
  = Ok (Some true)
  /\ get_missed_message_token_from_address settings
       (prefix ++ (lit "mm" ++ token) ++ 64%N :: domain) = Ok token.
Proof.
  intros Hpattern Hhack Hprefix Hdomain Htoken Hlength.
  assert (Hsegment : get_email_gateway_message_string_from_address settings
            (prefix ++ (lit "mm" ++ token) ++ 64%N :: domain) = Ok (lit "mm" ++ token)).
  { apply message_string_of_template; try done.
    change (lit "mm") with [109%N; 109%N]. rewrite Forall_app. split.
    - repeat constructor; lia.
    - by apply plain_not_end, legal_token_plain. }
  assert (Hshape : is_mm_32_format (Some (lit "mm" ++ token)) = true).
  { unfold is_mm_32_format. change (lit "mm") with [109%N; 109%N].
    cbn [app startswith length]. rewrite Hlength. reflexivity. }
  unfold is_missed_message_address, get_missed_message_token_from_address.
  by rewrite Hsegment, Hshape.
Qed.

(** A consumption that succeeds changes the counter only. *)
Lemma consume_keeps_fields address token fields w :
  get_missed_message_token_from_address settings address = Ok token ->
  (spend address w).1 = Ok tt ->
  Forall (fun field => field ≠ uses_left) fields ->
  RedisClient.hmget (missed_message_redis_key token) fields (redis (spend address w).2)
  = RedisClient.hmget (missed_message_redis_key token) fields (redis w).
Proof.
  intros Htoken. rewrite (consume_run _ _ _ _ Htoken).
  set (key := missed_message_redis_key token).
  destruct (hincrby_cases key (redis w)) as [Hnone|(v & Hv & Hh & Hold)].
  { cbn zeta in Hnone. by rewrite Hnone. }
  cbn zeta in Hv, Hh.
  destruct (RedisClient.hincrby key uses_left (-1) (redis w)) as [o r1].
  cbn [fst snd] in Hv, Hh. subst o. cbn zeta.
  destruct (v <? 0) eqn:Hneg; [done|]. intros _ Hfields.
  cbn [snd redis set_redis]. unfold RedisClient.hmget. rewrite hash_of_expire.
  unfold RedisClient.hash_of at 1. rewrite Hh, lookup_insert_eq. cbn [default from_option id].
  induction Hfields as [|field fields Hfield _ IH]; [done|].
  cbn [List.map]. by rewrite IH, lookup_insert_ne.
Qed.

(** X18.  The life of a missed-message address.  The address that
    [create_missed_message_address] returns for a fresh token of 32
    letters and digits is a missed-message address; it can be spent once,
    and the stored fields are then still there for the reply; spending it
    again through [process_missed_message] fails with "Missed message
    address has already been used", delivers nothing and deletes the
    record, after which [send_to_missed_message_address] fails with
    "Missing missed message address data". *)
Theorem created_address_single_use prefix domain used token rest user_profile chat rid
    subject_b email w :
  EMAIL_GATEWAY_PATTERN settings = prefix ++ lit "%s" ++ 64%N :: domain ->
  EMAIL_GATEWAY_EXTRA_PATTERN_HACK settings = None ->
  has_char 37 prefix = false -> has_char 37 domain = false ->
  legal_token token = true -> length token = 32%nat ->
  recipient_to_reply get_personal_recipient chat = Ok rid ->
  utf8_encode (chat_subject chat) = Ok subject_b ->
  Forall (taken (redis w)) used ->
  uses_left_of (missed_message_redis_key token) w = None ->
  exists address w1,
    create (used ++ token :: rest) user_profile chat w = Some (Ok address, w1)
    /\ is_missed_message_address settings address = Ok (Some true)
    /\ (spend address w1).1 = Ok tt
    /\ let w2 := (spend address w1).2 in
       RedisClient.hmget (missed_message_redis_key token) DATA_FIELDS (redis w2)
       = [Some (RInt (profile_id user_profile)); Some (RInt rid);
          Some (RBytes subject_b)]
       /\ let spent := missed_message_flow address email false w2 in
          spent.1 = Raise ALREADY_USED
          /\ outbox spent.2 = outbox w
          /\ hashes (redis spent.2) !! missed_message_redis_key token = None
          /\ reply address email spent.2 = (Raise MISSING_DATA, spent.2).
Proof.
  intros Hpattern Hhack Hprefix Hdomain Htoken Hlength Hrid Hsubject Hused Hfree.
  set (key := missed_message_redis_key token).
  set (address := prefix ++ (lit "mm" ++ token) ++ 64%N :: domain).
  destruct (missed_address_of_template prefix domain token) as [Hmissed Hread];
    try done. fold address in Hmissed, Hread.
  assert (Hne : EMAIL_GATEWAY_PATTERN settings ≠ []).
  { rewrite Hpattern. intros Hnil. apply (f_equal length) in Hnil.
    rewrite !length_app in Hnil. cbn in Hnil. lia. }
  pose proof (create_missed_message_address_run settings profile_id
                get_personal_recipient utf8_encode NOREPLY used token rest user_profile
                chat rid subject_b w Hne Hrid Hsubject Hused Hfree) as Hcreate.
  rewrite Hpattern, percent_format_placeholder in Hcreate by done.
  fold key address in Hcreate.
  match type of Hcreate with _ = Some (_, ?w0) => set (w1 := w0) in * end.
  exists address, w1. split; [done|]. split; [done|].
  assert (Hone : uses_left_of key w1 = Some (RInt 1)).
  { unfold uses_left_of, w1. cbn [redis set_redis]. rewrite hash_of_insert.
    by rewrite !lookup_insert_ne, lookup_insert_eq by (vm_compute; discriminate). }
  destruct (consume_available settings address token w1 1 Hread Hone) as [Hok Hzero];
    [lia|].
  split; [done|]. cbn zeta. split.
  { rewrite (consume_keeps_fields _ _ _ _ Hread Hok)
      by (repeat constructor; vm_compute; discriminate).
    unfold w1, RedisClient.hmget. cbn [redis set_redis]. rewrite hash_of_insert.
    cbn [List.map DATA_FIELDS]. rewrite lookup_insert_eq.
    rewrite (lookup_insert_ne _ (lit "subject") (lit "recipient_id"))
      by (vm_compute; discriminate).
    rewrite lookup_insert_eq.
    do 2 rewrite (lookup_insert_ne _ _ (lit "user_profile_id"))
      by (vm_compute; discriminate).
    by rewrite lookup_insert_eq. }
  set (w2 := (spend address w1).2) in *.
  destruct (consume_exhausted settings address token w2 Hread) as [Hused2 Hgone].
  { right. exists 0. split; [done|lia]. }
  fold key in Hgone.
  assert (Hflow : missed_message_flow address email false w2
                  = (Raise ALREADY_USED, (spend address w2).2)).
  { unfold process_missed_message, mbind, M_bind. cbn [negb].
    destruct (spend address w2) as [[[]|e] w3]; cbn [fst snd] in *; congruence. }
  rewrite Hflow. cbn [fst snd]. split_and!; [done| |done|].
  - rewrite (consume_only_redis settings address w2). cbn [outbox set_redis].
    unfold w2. by rewrite (consume_only_redis settings address w1).
  - unfold send_to_missed_message_address, mbind, M_bind, lift, get_world.
    rewrite Hread. cbn [fst snd]. unfold RedisClient.hmget, RedisClient.hash_of.
    fold key. by rewrite Hgone.
Qed.

End Lifecycle.

Lemma create_missed_message_address_stores_witness :
  exists w',
    Scenario.create_missed_message_address
      [Scenario.token; lit "fedcba9876543210fedcba9876543210"] Scenario.fresh_world
    = Some (percent_format (EMAIL_GATEWAY_PATTERN Scenario.settings)
              [lit "mm" ++ lit "fedcba9876543210fedcba9876543210"], w')
    /\ uses_left_of
         (missed_message_redis_key (lit "fedcba9876543210fedcba9876543210")) w'
       = Some (RInt 1)
    /\ RedisClient.hmget
         (missed_message_redis_key (lit "fedcba9876543210fedcba9876543210"))
         DATA_FIELDS (redis w')
       = [Some (RInt 7); Some (RInt 11); Some (RBytes (Scenario.to_bytes "hello"))]
    /\ ttls (redis w')
         !! missed_message_redis_key (lit "fedcba9876543210fedcba9876543210")
       = Some TOKEN_TTL
    /\ (forall k,
          k ≠ missed_message_redis_key (lit "fedcba9876543210fedcba9876543210") ->
          hashes (redis w') !! k = hashes (redis Scenario.fresh_world) !! k
          /\ ttls (redis w') !! k = ttls (redis Scenario.fresh_world) !! k)
    /\ w' = set_redis (redis w') Scenario.fresh_world.
Proof.
  apply (create_missed_message_address_stores Scenario.settings (fun _ => 7%Z)
           (fun _ => Raise DoesNotExist) Scenario.utf8_encode
           (lit "noreply@example.com") [Scenario.token]
           (lit "fedcba9876543210fedcba9876543210") [] Scenario.bot Scenario.missed
           11%Z (Scenario.to_bytes "hello")).
  - vm_compute; discriminate.
  - reflexivity.
  - vm_compute; reflexivity.
  - constructor; [vm_compute; discriminate|constructor].
  - vm_compute; reflexivity.
Defined.

Lemma created_address_single_use_witness :
  let spend := mark_missed_message_address_as_used Scenario.settings in
  let flow :=
    process_missed_message Scenario.settings Scenario.bytes_decode Scenario.identity
      Scenario.identity Scenario.identity Scenario.get_system_bot Scenario.no_user
      (fun _ => Raise DoesNotExist) (fun _ => DisplayUsers [])
      (fun _ _ => Raise DoesNotExist) (fun _ => Raise ValueError)
      (fun _ _ _ _ _ _ => lit "/user_uploads/1") in
  exists address w1,
    Scenario.create_missed_message_address [Scenario.token] Scenario.empty_world
    = Some (Ok address, w1)
    /\ is_missed_message_address Scenario.settings address = Ok (Some true)
    /\ (spend address w1).1 = Ok tt
    /\ (flow address Scenario.forwarded false (spend address w1).2).1
       = Raise ALREADY_USED.
Proof.
  intros spend flow.
  destruct (created_address_single_use Scenario.settings (fun _ => 7%Z)
              (fun _ => Raise DoesNotExist) Scenario.utf8_encode
              (lit "noreply@example.com") Scenario.bytes_decode Scenario.identity
              Scenario.identity Scenario.identity Scenario.get_system_bot
              Scenario.no_user (fun _ => Raise DoesNotExist) (fun _ => DisplayUsers [])
              (fun _ _ => Raise DoesNotExist) (fun _ => Raise ValueError)
              (fun _ _ _ _ _ _ => lit "/user_uploads/1")
              [] (lit "example.com") [] Scenario.token [] Scenario.bot Scenario.missed
              11%Z (Scenario.to_bytes "hello") Scenario.forwarded Scenario.empty_world
              eq_refl eq_refl eq_refl eq_refl eq_refl eq_refl eq_refl
              ltac:(vm_compute; reflexivity) ltac:(constructor)
              ltac:(vm_compute; reflexivity))
    as (address & w1 & Hcreate & Hmissed & Hspend & _ & Hspent & _).
  exists address, w1. by split_and!.
Defined.

(** ** The error reports *)

Section Reports.
Variable settings : Settings.
Variable streams : list Stream.
Variable get_system_bot : str -> result UserProfile.
Variable re_search_group : str -> str -> option str.

Abbreviation redact := (redact_stream settings re_search_group).
Abbreviation report_error := (log_and_report settings streams get_system_bot re_search_group).

Lemma split_from_nonempty sep s : forall skip, split_from sep skip s ≠ [].
Proof.
  induction s as [|c s IH]; intros skip; [done|]. cbn [split_from].
  destruct skip; [|apply IH]. destruct (startswith sep (c :: s)); [done|].
  by destruct (split_from sep 0 s).
Qed.

Lemma startswith_length p s : startswith p s = true -> (length p <= length s)%nat.
Proof.
  revert s. induction p as [|a p IH]; intros [|b s]; cbn; try done; [lia|].
  intros [_ H]%andb_true_iff. apply IH in H. lia.
Qed.

Lemma join_cons_length sep p pieces :
  pieces ≠ [] ->
  length (join sep (p :: pieces)) = (length p + length sep + length (join sep pieces))%nat.
Proof.
  destruct pieces; [done|]. intros _. cbn [join]. rewrite !length_app. lia.
Qed.

(** Joining the pieces of a split with a string as long as the
    separator gives the length of the text back. *)
Lemma join_split_from_length sep new s :
  sep ≠ [] -> length new = length sep ->
  forall skip, (skip <= length s)%nat ->
    (length (join new (split_from sep skip s)) + skip)%nat = length s.
Proof.
  intros Hsep Hnew.
  assert (0 < length sep)%nat by (destruct sep; [done|cbn; lia]).
  induction s as [|c s IH]; intros skip Hskip.
  - cbn in *. lia.
  - cbn [split_from length] in *. destruct skip as [|k].
    + destruct (startswith sep (c :: s)) eqn:E.
      * apply startswith_length in E. cbn [length] in E.
        rewrite join_cons_length by apply split_from_nonempty.
        specialize (IH (Nat.pred (length sep)) ltac:(lia)). cbn [length]. lia.
      * specialize (IH 0%nat ltac:(lia)).
        pose proof (split_from_nonempty sep s 0) as Hne.
        destruct (split_from sep 0 s) as [|piece pieces]; [done|].
        destruct pieces as [|piece' pieces]; cbn [join length app] in *; lia.
    + specialize (IH k ltac:(lia)). lia.
Qed.

Lemma replace_length old new s :
  old ≠ [] -> length new = length old -> length (replace old new s) = length s.
Proof.
  intros Hold Hnew. unfold replace, split.
  pose proof (join_split_from_length old new s Hold Hnew 0 ltac:(lia)). lia.
Qed.

Lemma join_split_from_overwritten sep s :
  sep ≠ [] ->
  forall skip, (skip <= length s)%nat ->
    repeat 88%N skip ++ join (repeat 88%N (length sep)) (split_from sep skip s)
    = overwritten sep skip s.
Proof.
  intros Hsep.
  assert (Hlen : repeat 88%N (length sep) = 88%N :: repeat 88%N (Nat.pred (length sep)))
    by (by destruct sep).
  induction s as [|c s IH]; intros skip Hskip.
  - cbn in Hskip. by replace skip with 0%nat by lia.
  - cbn [split_from overwritten length] in *. destruct skip as [|k].
    + destruct (startswith sep (c :: s)) eqn:E.
      * apply startswith_length in E. cbn [length] in E.
        pose proof (split_from_nonempty sep s (Nat.pred (length sep))) as Hne.
        destruct (split_from sep (Nat.pred (length sep)) s) as [|piece pieces] eqn:Es;
          [done|].
        rewrite <- (IH (Nat.pred (length sep))) by lia. rewrite Es.
        cbn [repeat app join]. by rewrite Hlen.
      * rewrite <- (IH 0%nat) by lia. cbn [repeat app].
        pose proof (split_from_nonempty sep s 0) as Hne.
        destruct (split_from sep 0 s) as [|piece pieces]; [done|].
        by destruct pieces.
    + rewrite <- (IH k) by lia. reflexivity.
Qed.

Lemma overwritten_length name s : forall pending,
  length (overwritten name pending s) = length s.
Proof.
  induction s as [|c s IH]; intros pending; [done|]. cbn [overwritten].
  destruct pending; [destruct (startswith name (c :: s))|]; cbn [length];
    by rewrite IH.
Qed.

Lemma overwritten_lookup name s : forall pending i c,
  overwritten name pending s !! i = Some c -> c = 88%N \/ s !! i = Some c.
Proof.
  induction s as [|d s IH]; intros pending i c; [done|]. cbn [overwritten].
  destruct pending; [destruct (startswith name (d :: s))|]; destruct i as [|i];
    cbn; try (intros [= <-]; by (left + right)); apply IH.
Qed.

(** X19.  What [redact_stream] returns.  When the regular expression
    captures a name that is not empty, the result is the message with
    every occurrence of the name, read from left to right, overwritten
    with as many "X" as the name has characters; when it captures nothing,
    or the empty string, the result is the message.  So the result is as
    long as the message, and each of its characters is an "X" or the
    character of the message at that place. *)
Theorem redact_stream_overwrites error_message :
  let domain := List.last (split (lit "@") (EMAIL_GATEWAY_PATTERN settings)) [] in
  redact_stream settings re_search_group error_message =
    match re_search_group (lit "\b(.*?)@" ++ domain) error_message with
    | Some (c :: name) => overwritten (c :: name) 0 error_message
    | _ => error_message
    end
  /\ length (redact_stream settings re_search_group error_message)
     = length error_message
  /\ forall i c,
       redact_stream settings re_search_group error_message !! i = Some c ->
       c = 88%N \/ error_message !! i = Some c.
Proof.
  intros domain.
  assert (Hcases : redact_stream settings re_search_group error_message =
    match re_search_group (lit "\b(.*?)@" ++ domain) error_message with
    | Some (c :: name) => overwritten (c :: name) 0 error_message
    | _ => error_message
    end).
  { unfold redact_stream. fold domain.
    destruct (re_search_group _ _) as [[|c name]|]; try done.
    unfold replace, split.
    by rewrite <- (join_split_from_overwritten (c :: name) error_message)
      by (done || lia). }
  split; [done|]. rewrite Hcases.
  destruct (re_search_group _ _) as [[|c name]|]; try (split; [done|by right]).
  split; [apply overwritten_length|apply overwritten_lookup].
Qed.

(** What [log_and_report] has done when it stops. *)
Lemma log_and_report_outcome message error w :
  let outcome := report_error message error w in
  exists header,
    let text := header ++ redact error in
    log outcome.2 = log w ++ [(ERROR, text)]
    /\ redis outcome.2 = redis w /\ queue outcome.2 = queue w
    /\ uploads outcome.2 = uploads w
    /\ match outcome.1, ERROR_BOT settings with
       | Raise _, _ | Ok _, None => outbox outcome.2 = outbox w
       | Ok _, Some bot =>
           exists error_bot error_stream,
             get_system_bot bot = Ok error_bot
             /\ In error_stream streams
             /\ stream_name error_stream = lit "errors"
             /\ stream_realm error_stream = user_realm error_bot
             /\ outbox outcome.2 =
                  outbox w ++ [stream_delivery bot error_stream
                                 (lit "email mirror error")
                                 (lit "~~~" ++ [10%N] ++ text ++ [10%N] ++ lit "~~~")]
       end.
Proof.
  cbn zeta.
  destruct (log_and_report_run settings streams get_system_bot re_search_group
              message error w) as (text & -> & header & ->).
  exists header. unfold report_to_zulip.
  destruct (ERROR_BOT settings) as [bot|]; [|done].
  unfold mbind, M_bind, lift.
  destruct (get_system_bot bot) as [error_bot|e] eqn:Hbot; [|done].
  destruct (stream_get streams _) as [error_stream|e] eqn:Hstream; [|done].
  apply stream_get_sound in Hstream as (_ & Hin & [Hname Hrealm]%andb_true_iff).
  apply bool_decide_eq_true in Hname, Hrealm.
  cbn. split_and!; try done. by exists error_bot, error_stream.
Qed.

(** X20.  [log_and_report] writes one entry in the log, at level ERROR,
    whose text ends with the redacted error and is as long as its header
    and the error together; it leaves the store, the queue and the
    uploads as they were; and it delivers nothing when it raises or when
    there is no error bot, and otherwise one message, to the stream
    "errors" of the realm of the error bot, with the text of the log
    entry between two lines of tildes, cut at 2000 characters. *)
Theorem log_and_report_effects message error w :
  let outcome := report_error message error w in
  exists header text,
    text = header ++ redact error
    /\ length text = (length header + length error)%nat
    /\ log outcome.2 = log w ++ [(ERROR, text)]
    /\ redis outcome.2 = redis w /\ queue outcome.2 = queue w
    /\ uploads outcome.2 = uploads w
    /\ match outcome.1, ERROR_BOT settings with
       | Raise _, _ | Ok _, None => outbox outcome.2 = outbox w
       | Ok _, Some bot =>
           exists error_bot error_stream,
             get_system_bot bot = Ok error_bot
             /\ In error_stream streams
             /\ stream_name error_stream = lit "errors"
             /\ stream_realm error_stream = user_realm error_bot
             /\ outbox outcome.2 =
                  outbox w ++ [stream_delivery bot error_stream
                                 (lit "email mirror error")
                                 (lit "~~~" ++ [10%N] ++ text ++ [10%N] ++ lit "~~~")]
       end.
Proof.
  intros outcome. destruct (log_and_report_outcome message error w) as (header & H).
  exists header, (header ++ redact error). split; [done|]. split; [|exact H].
  rewrite length_app. f_equal.
  unfold redact_stream. destruct (re_search_group _ _) as [[|c name]|]; try done.
  apply replace_length; [done|]. by rewrite repeat_length.
Qed.

End Reports.

(** The redaction in the deployment of the examples: the expression
    captures everything from the first word boundary to the "@". *)
Example redact_stream_address :
  redact_stream Scenario.settings Scenario.re_search_group
    (lit "Bad stream token from email recipient general+abc123@example.com")
  = repeat 88%N 52 ++ lit "@example.com".
Proof. vm_compute. reflexivity. Qed.

Section SpentAddress.
Variable U : UnicodeDB.
Variable settings : Settings.
Variable bytes_decode : str -> bytes -> result str.
Variable extract_from_plain extract_from_html convert_html_to_markdown : str -> str.
Variable streams : list Stream.
Variable get_system_bot : str -> result UserProfile.
Variable get_user_profile_by_id : rval -> result UserProfile.
Variable get_recipient : rval -> result Recipient.
Variable get_display_recipient : Recipient -> DisplayRecipient.
Variable get_user : str -> Realm -> result UserProfile.
Variable decode_stored_subject : rval -> result str.
Variable upload_message_image :
  str -> nat -> str -> bytes -> UserProfile -> Realm -> str.
Variable re_search_group : str -> str -> option str.
Variable decode_subject : str -> result str.
Local Open Scope Z_scope.

Abbreviation dispatch :=
  (process_message U settings bytes_decode extract_from_plain extract_from_html
     convert_html_to_markdown streams get_system_bot get_user_profile_by_id
     get_recipient get_display_recipient get_user decode_stored_subject
     upload_message_image re_search_group decode_subject).

(** X21.  A reply to a missed-message address whose counter is spent:
    [process_message], not told [pre_checked], delivers no reply, deletes
    the record, and logs "Missed message address has already been used"
    with the address redacted; the only message it may send is the report
    to the stream "errors". *)
Theorem process_message_spent_address message rcpt_to subject to token w :
  decode_subject (default (lit "(no subject)") (get_header message (lit "Subject")))
  = Ok subject ->
  resolve_recipient settings message rcpt_to = Ok to ->
  get_missed_message_token_from_address settings to = Ok token ->
  (uses_left_of (missed_message_redis_key token) w = None
   \/ exists v, uses_left_of (missed_message_redis_key token) w = Some (RInt v)
                /\ - 2 ^ 63 < v <= 0) ->
  let outcome := dispatch message rcpt_to false w in
  hashes (redis outcome.2) !! missed_message_redis_key token = None
  /\ queue outcome.2 = queue w
  /\ (exists header,
        log outcome.2 =
          log w ++ [(ERROR,
                     header ++ redact_stream settings re_search_group
                                 (lit "Missed message address has already been used"))])
  /\ (outbox outcome.2 = outbox w
      \/ exists bot error_stream text,
           ERROR_BOT settings = Some bot /\ In error_stream streams
           /\ stream_name error_stream = lit "errors"
           /\ outbox outcome.2 =
                outbox w ++ [stream_delivery bot error_stream
                               (lit "email mirror error") text]).
Proof.
  intros Hsubject Hto Htoken Hspent. cbn zeta.
  rewrite (process_message_resolved _ _ _ _ _ _ _ _ _ _ _ _ _ _ _ _ _ _ _ _ _ _
             Hsubject Hto).
  set (w0 := dispatch_start to w).
  destruct (consume_exhausted settings to token w0 Htoken Hspent) as [Hraise Hgone].
  pose proof (consume_only_redis settings to w0) as Hframe.
  match goal with
  | |- context [try_except_forward ?body ?handler w0] =>
      pose proof (try_except_forward_cases body handler w0) as Hcases;
      assert (Hbody : body w0 = (Raise ALREADY_USED,
                                 (mark_missed_message_address_as_used settings to w0).2))
  end.
  { unfold mbind at 1, M_bind at 1, lift at 1.
    rewrite (token_read_missed settings _ _ Htoken). cbn [is_true default from_option id].
    unfold process_missed_message, mbind, M_bind. cbn [negb].
    destruct (mark_missed_message_address_as_used settings to w0) as [[[]|e] w1];
      cbn [fst snd] in *; congruence. }
  rewrite Hbody in Hcases. unfold ALREADY_USED in Hcases. rewrite Hcases.
  set (w1 := (mark_missed_message_address_as_used settings to w0).2) in *.
  destruct (log_and_report_outcome settings streams get_system_bot re_search_group
              message (lit "Missed message address has already been used") w1)
    as (header & Hlog & Hredis & Hqueue & _ & Hout).
  assert (Hw1 : outbox w1 = outbox w /\ log w1 = log w /\ queue w1 = queue w).
  { by rewrite Hframe. }
  destruct Hw1 as (Ho & Hl & Hq).
  split_and!.
  - by rewrite Hredis.
  - congruence.
  - exists header. by rewrite Hlog, Hl.
  - destruct (log_and_report _ _ _ _ _ _ w1).1; [|left; congruence].
    destruct (ERROR_BOT settings) as [bot|]; [|left; congruence].
    destruct Hout as (error_bot & error_stream & _ & Hin & Hname & _ & Hout).
    right. exists bot, error_stream. eexists. split_and!; [done..|].
    rewrite Hout, Ho. reflexivity.
Qed.

Abbreviation flows to subject message pre_checked :=
  (missed ← lift (is_missed_message_address settings to);
   if is_true missed
   then process_missed_message settings bytes_decode extract_from_plain
          extract_from_html convert_html_to_markdown get_system_bot
          get_user_profile_by_id get_recipient get_display_recipient get_user
          decode_stored_subject upload_message_image to message pre_checked
   else process_stream_message U settings bytes_decode extract_from_plain
          extract_from_html convert_html_to_markdown streams get_system_bot
          upload_message_image to subject message).
Abbreviation report_of :=
  (log_and_report settings streams get_system_bot re_search_group).

(** X12.  No [ZulipEmailForwardError] leaves [process_message], when
    the collaborators themselves raise none: an error of that class that
    the search for the recipient or a flow raises is caught and handed to
    [log_and_report], in the world that the flow left, so that the log
    gets one more entry, at level ERROR, that ends with the redacted
    error; what [process_message] returns is then what [log_and_report]
    returns.  A flow that returns, or raises an error of another class,
    gives its own outcome to [process_message]. *)
Theorem process_message_catches_forward_errors message rcpt_to pre_checked w msg :
  (forall header e, decode_subject header ≠ Raise (ZulipEmailForwardError e)) ->
  (forall bot e, get_system_bot bot ≠ Raise (ZulipEmailForwardError e)) ->
  (dispatch message rcpt_to pre_checked w).1 ≠ Raise (ZulipEmailForwardError msg)
  /\ forall subject,
       decode_subject (default (lit "(no subject)") (get_header message (lit "Subject")))
       = Ok subject ->
       (forall error,
           resolve_recipient settings message rcpt_to
           = Raise (ZulipEmailForwardError error) ->
           let w0 := set_debug_info {| debug_to := None; debug_stream := None |} w in
           dispatch message rcpt_to pre_checked w = report_of message error w0
           /\ exists header,
                log (dispatch message rcpt_to pre_checked w).2 =
                  log w0 ++ [(ERROR, header
                                     ++ redact_stream settings re_search_group error)])
       /\ (forall to,
             resolve_recipient settings message rcpt_to = Ok to ->
             match flows to subject message pre_checked (dispatch_start to w) with
             | (Raise (ZulipEmailForwardError error), w1) =>
                 dispatch message rcpt_to pre_checked w = report_of message error w1
                 /\ exists header,
                      log (dispatch message rcpt_to pre_checked w).2 =
                        log w1 ++ [(ERROR, header
                                           ++ redact_stream settings re_search_group
                                                error)]
             | outcome => dispatch message rcpt_to pre_checked w = outcome
             end).
Proof.
  intros Hsubject Hbot.
  assert (Hlog : forall error w1,
            exists header,
              log (report_of message error w1).2 =
                log w1 ++ [(ERROR, header
                                   ++ redact_stream settings re_search_group error)]).
  { intros error w1.
    destruct (log_and_report_outcome settings streams get_system_bot re_search_group
                message error w1) as (header & Hl & _).
    by exists header. }
  split.
  - unfold process_message, mbind at 1, M_bind at 1, lift at 1.
    specialize (Hsubject
                  (default (lit "(no subject)") (get_header message (lit "Subject")))).
    destruct (decode_subject _) as [subject|e];
      [|cbn; intros [= ->]; by apply (Hsubject msg)].
    unfold mbind at 1, M_bind at 1. cbn [modify].
    match goal with
    | |- (try_except_forward ?body ?handler ?w0).1 ≠ _ =>
        pose proof (try_except_forward_cases body handler w0) as Hcases;
        destruct (body w0) as [[[]|e] w1]
    end.
    + by rewrite Hcases.
    + destruct e; rewrite Hcases; try done.
      destruct (log_and_report_run settings streams get_system_bot re_search_group
                  message msg0 w1) as (text & -> & _).
      by apply report_to_zulip_no_forward_error.
  - intros subject Hdecoded. split.
    + intros error Hto w0.
      assert (Hrun : dispatch message rcpt_to pre_checked w
                     = report_of message error w0).
      { unfold process_message, mbind at 1 2, M_bind at 1 2, lift at 1.
        rewrite Hdecoded. cbn [modify]. fold w0.
        unfold try_except_forward, mbind at 1, M_bind at 1.
        destruct rcpt_to as [rcpt_to|]; cbn [resolve_recipient] in Hto; [done|].
        unfold lift at 1. by rewrite Hto. }
      split; [done|]. rewrite Hrun. apply Hlog.
    + intros to Hto.
      rewrite (process_message_resolved _ _ _ _ _ _ _ _ _ _ _ _ _ _ _ _ _ _ _ _ _ _
                 Hdecoded Hto).
      match goal with
      | |- context [try_except_forward ?body ?handler ?w0] =>
          pose proof (try_except_forward_cases body handler w0) as Hcases;
          destruct (body w0) as [[[]|e] w1]
      end; [done|].
      destruct e; try done. rewrite Hcases. split; [done|]. apply Hlog.
Qed.

End SpentAddress.

Lemma process_message_spent_address_witness :
  let outcome := Scenario.process_message Scenario.forwarded (Some Scenario.mm_address)
                   false Scenario.empty_world in
  hashes (redis outcome.2) !! Scenario.mm_key = None
  /\ queue outcome.2 = queue Scenario.empty_world.
Proof.
  intros outcome.
  destruct (process_message_spent_address Scenario.unicode Scenario.settings
              Scenario.bytes_decode Scenario.identity Scenario.identity
              Scenario.identity Scenario.streams Scenario.get_system_bot
              Scenario.no_user (fun _ => Raise DoesNotExist) (fun _ => DisplayUsers [])
              (fun _ _ => Raise DoesNotExist) (fun _ => Raise ValueError)
              (fun _ _ _ _ _ _ => lit "/user_uploads/1") Scenario.re_search_group
              Scenario.decode_subject Scenario.forwarded (Some Scenario.mm_address)
              (default (lit "(no subject)")
                 (get_header Scenario.forwarded (lit "Subject")))
              Scenario.mm_address Scenario.token Scenario.empty_world
              eq_refl eq_refl ltac:(vm_compute; reflexivity)
              ltac:(left; vm_compute; reflexivity))
    as (Hgone & Hqueue & _).
  by split.
Defined.

Lemma process_message_catches_forward_errors_witness :
  (Scenario.process_message Scenario.forwarded None false Scenario.empty_world).1
    ≠ Raise MISSING_RECIPIENT
  /\ (Scenario.process_message Scenario.forwarded None false Scenario.empty_world).1
     = Ok tt
  /\ length (log (Scenario.process_message Scenario.forwarded None false
                    Scenario.empty_world).2) = 1%nat.
Proof.
  split.
  - apply process_message_catches_forward_errors; intros; discriminate.
  - split; vm_compute; reflexivity.
Defined.
